(** * The recommendation engine of [app_full.py], embedded and verified

    The development follows [app_full.py]: the SQLite tables become lists of
    rows (in rowid order), the two endpoints [get_recommendations] and
    [log_event] become functions that pass the store and the random
    generator explicitly, and every SQL statement becomes a list function.
    The broadcasts to the WebSocket clients and the read-only endpoints do
    not touch the tables and are left out.

    Conventions of the embedding:
    - a [REAL] column and a Python float are exact rationals ([Q]); the
      literals [0.3], [0.2], [0.15], [0.1], [0.01] are the rationals they
      denote;
    - a [TEXT] column is a [string]; [NULL] is read as the empty string,
      which the modelled code treats in the same way (both are falsy in
      [x.split(',') if x else []], both miss every key of [difficulty_match]);
    - a [TIMESTAMP] and [datetime.now()] are microseconds since a fixed epoch
      ([Z]); one request reads one clock value;
    - [random.random()] is the next element of a sequence of draws;
    - [list(set(...))] lists a set in the order of [elements]; no statement
      below depends on that order;
    - the peer query has no tie-break in its [ORDER BY]: [similar_users_rows]
      says which results the text of the statement allows, the handler takes
      the answers of the engine as a parameter, and [similar_users] is one
      engine, used for the concrete requests at the end; [peer_finder] is the
      answer of sqlite3, the engine of the program, which returns rows with
      equal counts in descending order of [user_id]. *)

From Stdlib Require Import QArith Qminmax Qabs Qround Lqa ZArith Lia Ascii.
From stdpp Require Import gmap strings list sorting pretty.

Local Open Scope Q_scope.

(** ** Python primitives *)

Module Py.

(** [s.split(sep)] for a one-character separator. *)
Fixpoint split (sep : ascii) (s : string) : list string :=
  match s with
  | EmptyString => [EmptyString]
  | String c rest =>
      if Ascii.eqb c sep then EmptyString :: split sep rest
      else match split sep rest with
           | w :: ws => String c w :: ws
           | [] => [String c EmptyString]
           end
  end.

(** [sep.join(l)]. *)
Fixpoint join (sep : string) (l : list string) : string :=
  match l with
  | [] => EmptyString
  | x :: rest =>
      match rest with
      | [] => x
      | _ :: _ => x +:+ sep +:+ join sep rest
      end
  end.

Definition Qltb (a b : Q) : bool := negb (Qle_bool b a).

(** [max(a, b)]: the first argument unless the second is strictly larger. *)
Definition max (a b : Q) : Q := if Qltb a b then b else a.

(** [min(a, b)]: the first argument unless the second is strictly smaller. *)
Definition min (a b : Q) : Q := if Qltb b a then b else a.

(** The generator of module [random]: the sequence of the values that
    [random.random()] returns, and the number of draws made so far. *)
Record Rng := { draws : nat -> Q; pos : nat }.

Definition random (g : Rng) : Q * Rng :=
  (draws g (pos g), {| draws := draws g; pos := S (pos g) |}).

(** [random.uniform(a, b)] is [a + (b - a) * random()]. *)
Definition uniform (a b : Q) (g : Rng) : Q * Rng :=
  let '(r, g') := random g in (a + (b - a) * r, g').

(** [random.choices(population, k=k)] is
    [[population[floor(random() * n)] for _ in range(k)]]. *)
Fixpoint choices (population : list ascii) (k : nat) (g : Rng)
  : list ascii * Rng :=
  match k with
  | O => ([], g)
  | S k' =>
      let '(r, g1) := random g in
      let i := Z.to_nat (Qfloor (r * inject_Z (Z.of_nat (length population)))) in
      let '(cs, g2) := choices population k' g1 in
      (nth i population "a"%char :: cs, g2)
  end.

(** [string.ascii_lowercase + string.digits] *)
Definition ascii_lowercase_digits : list ascii :=
  String.list_ascii_of_string "abcdefghijklmnopqrstuvwxyz0123456789".

(** [''.join(random.choices(string.ascii_lowercase + string.digits, k=16))] *)
Definition random_id (g : Rng) : string * Rng :=
  let '(cs, g') := choices ascii_lowercase_digits 16 g in
  (String.string_of_list_ascii cs, g').

(** [l.sort(key=..., reverse=True)]: a stable sort into descending key order.
    [lt x y] says that the key of [x] is strictly below the key of [y]; an
    element is placed in front of the first one whose key is not above its
    own, so elements with equal keys keep their order. *)
Section Sort.
Context {A : Type} (lt : A -> A -> bool).

Fixpoint insert_desc (x : A) (l : list A) : list A :=
  match l with
  | [] => [x]
  | y :: l' => if lt x y then y :: insert_desc x l' else x :: y :: l'
  end.

Fixpoint sort_reverse (l : list A) : list A :=
  match l with
  | [] => []
  | x :: l' => insert_desc x (sort_reverse l')
  end.

End Sort.

End Py.

(** Equality of scores is decidable. *)
#[local] Instance Qeq_decision (a b : Q) : Decision (a == b) := Qeq_dec a b.

(** ** The tables of [init_database] *)

Module Users.
Record row := mk {
  user_id : string;
  name : string;
  email : string;
  cohort_tag : string;
  skill_level : string;
  interests : string;
  created_at : Z;
  last_active : option Z
}.
End Users.

Module Content.
Record row := mk {
  content_id : string;
  title : string;
  description : string;
  content_type : string;
  difficulty : string;
  tags : string;
  duration_minutes : Z;
  popularity_score : Q;
  created_at : Z
}.
End Content.

Module Events.
Record row := mk {
  event_id : string;
  user_id : string;
  content_id : string;
  event_type : string;
  value : option Q;
  session_id : option string;
  timestamp : Z
}.
End Events.

Module RecommendationLogs.
Record row := mk {
  log_id : string;
  user_id : string;
  content_id : string;
  score : Q;
  model_version : string;
  reason_tags : string;
  timestamp : Z;
  clicked : bool
}.
End RecommendationLogs.

Record Store := {
  users : list Users.row;
  content : list Content.row;
  events : list Events.row;
  recommendation_logs : list RecommendationLogs.row
}.

(** ** The pydantic models of the two endpoints *)

Module Recommendation.
Record t := mk {
  content_id : string;
  title : string;
  score : Q;
  reason_tags : list string;
  difficulty : string;
  content_type : string
}.
End Recommendation.

Inductive Strategy := collaborative | content_based | hybrid.

Module RecommendationResponse.
Record t := mk {
  user_id : string;
  recommendations : list Recommendation.t;
  model_version : string;
  latency_ms : Z;
  strategy : Strategy
}.
End RecommendationResponse.

Module EventCreate.
Record t := mk {
  user_id : string;
  content_id : string;
  event_type : string;
  value : option Q;
  session_id : option string
}.
End EventCreate.

Module EventResponse.
Record t := mk {
  event_id : string;
  status : string;
  timestamp : Z
}.
End EventResponse.

(** What a request can end in besides its response: the two
    [HTTPException(status_code=404, ...)] of the handlers, the 422 of the
    [Query(..., ge=1, le=50)] validation, and the [sqlite3.IntegrityError] of
    an [INSERT] whose primary key is taken. *)
Inductive Failure :=
| NotFound (detail : string)
| Unprocessable
| IntegrityError.

(** ** The class [ConnectionManager]

    A WebSocket object is known by its identity, a number here. *)

Module ConnectionManager.

Record t := mk { active_connections : list nat }.

(** [self.active_connections.append(websocket)] *)
Definition connect (self : t) (websocket : nat) : t :=
  mk (active_connections self ++ [websocket]).

(** [l.remove(x)]: without the first occurrence of [x]; [None] stands for the
    [ValueError] of a list that does not hold [x]. *)
Fixpoint list_remove (x : nat) (l : list nat) : option (list nat) :=
  match l with
  | [] => None
  | y :: l' =>
      if decide (y = x) then Some l' else (cons y) <$> list_remove x l'
  end.

(** [self.active_connections.remove(websocket)] *)
Definition disconnect (self : t) (websocket : nat) : option t :=
  mk <$> list_remove websocket (active_connections self).

End ConnectionManager.

(** ** The SQL statements of the handlers *)

(** [SELECT * FROM users WHERE user_id = ?], then [fetchone()]. *)
Definition select_user (db : Store) (uid : string) : option Users.row :=
  head (filter (λ u, Users.user_id u = uid) (users db)).

(** [SELECT content_id FROM content WHERE content_id = ?], then [fetchone()]. *)
Definition select_content (db : Store) (cid : string) : option Content.row :=
  head (filter (λ c, Content.content_id c = cid) (content db)).

(** One more interaction of a user with [(content_id, event_type)]. *)
Definition record_interaction (h : gmap string (gmap string nat))
    (e : Events.row) : gmap string (gmap string nat) :=
  let by_type := default ∅ (h !! Events.content_id e) in
  let n := default 0%nat (by_type !! Events.event_type e) in
  <[Events.content_id e := <[Events.event_type e := S n]> by_type]> h.

(** The dictionary [user_history]: the rows of
    [SELECT content_id, event_type, COUNT( * ) FROM events WHERE user_id = ?
     GROUP BY content_id, event_type]
    stored as [user_history[content_id][event_type] = interaction_count].
    The events of the user are counted into the dictionary one by one;
    [history_count] and [history_is_Some] below show that an entry exists
    exactly for the groups of the query and holds their [COUNT( * )]. *)
Definition user_history (db : Store) (uid : string)
  : gmap string (gmap string nat) :=
  foldl record_interaction ∅
        (filter (λ e, Events.user_id e = uid) (events db)).

(** [content_id in user_history and 'complete' in user_history[content_id]] *)
Definition already_completed (h : gmap string (gmap string nat))
    (cid : string) : bool :=
  match h !! cid with
  | Some by_type => bool_decide (is_Some (by_type !! "complete"))
  | None => false
  end.

(** The rows of
    [events e1 JOIN events e2 ON e1.content_id = e2.content_id
     WHERE e1.user_id = ? AND e2.user_id != ?],
    projected on [e2.user_id]. *)
Definition peer_join (db : Store) (uid : string) : list string :=
  e1 ← filter (λ e, Events.user_id e = uid) (events db);
  e2 ← filter (λ e, Events.content_id e = Events.content_id e1
                     ∧ Events.user_id e ≠ uid) (events db);
  [Events.user_id e2].

(** [GROUP BY e2.user_id] with [COUNT( * ) as common_items]. *)
Definition common_items (db : Store) (uid : string) : gmap string nat :=
  foldl (λ m p, <[p := S (default 0%nat (m !! p))]> m) ∅ (peer_join db uid).

(** What [ORDER BY common_items DESC LIMIT 10] allows the engine to return:
    the first ten rows of some arrangement of the groups in which the
    counts never increase. The statement names no second sort key. *)
Definition similar_users_rows (db : Store) (uid : string)
    (rows : list (string * nat)) : Prop :=
  ∃ ordered,
    ordered ≡ₚ map_to_list (common_items db uid)
    ∧ StronglySorted (λ a b, (b.2 ≤ a.2)%nat) ordered
    ∧ rows = take 10 ordered.

(** The rows of one engine: the groups in the order in which the map lists
    them, sorted stably. *)
Definition similar_users (db : Store) (uid : string) : list (string * nat) :=
  take 10 (Py.sort_reverse (λ a b, (a.2 <? b.2)%nat)
                           (map_to_list (common_items db uid))).

(** [SELECT COUNT( * ) FROM events WHERE user_id = ? AND content_id = ?
     AND event_type IN ('like', 'complete')] *)
Definition liked_count (db : Store) (peer cid : string) : nat :=
  length (filter (λ e, Events.user_id e = peer ∧ Events.content_id e = cid
                        ∧ (Events.event_type e = "like"
                           ∨ Events.event_type e = "complete"))
                 (events db)).

(** [SELECT COUNT( * ) FROM events WHERE content_id = ?] *)
Definition event_count (evs : list Events.row) (cid : string) : nat :=
  length (filter (λ e, Events.content_id e = cid) evs).

(** [UPDATE users SET last_active = ? WHERE user_id = ?] *)
Definition update_last_active (timestamp : Z) (uid : string)
    (us : list Users.row) : list Users.row :=
  (λ u, if decide (Users.user_id u = uid)
        then Users.mk (Users.user_id u) (Users.name u) (Users.email u)
                      (Users.cohort_tag u) (Users.skill_level u)
                      (Users.interests u) (Users.created_at u) (Some timestamp)
        else u) <$> us.

(** [UPDATE content SET popularity_score =
       (SELECT COUNT( * ) * 0.01 FROM events WHERE content_id = ?)
     WHERE content_id = ?] *)
Definition update_popularity (evs : list Events.row) (cid : string)
    (cs : list Content.row) : list Content.row :=
  (λ c, if decide (Content.content_id c = cid)
        then Content.mk (Content.content_id c) (Content.title c)
                        (Content.description c) (Content.content_type c)
                        (Content.difficulty c) (Content.tags c)
                        (Content.duration_minutes c)
                        (inject_Z (Z.of_nat (event_count evs cid)) * 0.01)
                        (Content.created_at c)
        else c) <$> cs.

(** ** Scoring one content item

    The handler updates two locals, [score] and [reason_tags]; each block of
    the loop body is a function on that pair. *)

Definition Scored : Type := Q * list string.

(** [col.split(',') if col else []] *)
Definition parse_tags (col : string) : list string :=
  if decide (col = EmptyString) then [] else Py.split "," col.

(** [set(user_interests) & set(content_tags)] *)
Definition common_tags (user_interests content_tags : list string)
  : gset string :=
  list_to_set user_interests ∩ list_to_set content_tags.

(** [tag_overlap = len(set(user_interests) & set(content_tags))] *)
Definition tag_overlap (user_interests content_tags : list string) : nat :=
  size (common_tags user_interests content_tags).

(** Content-based scoring. *)
Definition content_based_scoring (user_interests content_tags : list string)
    (st : Scored) : Scored :=
  if (0 <? tag_overlap user_interests content_tags)%nat
  then (st.1 + inject_Z (Z.of_nat (tag_overlap user_interests content_tags)) * 0.3,
        st.2 ++ take 2 (elements (common_tags user_interests content_tags)))
  else st.

Definition difficulty_match : gmap string (gmap string Q) :=
  {[ "novice" :=
       {[ "beginner" := 1.0; "intermediate" := 0.5; "advanced" := 0.2 ]};
     "intermediate" :=
       {[ "beginner" := 0.5; "intermediate" := 1.0; "advanced" := 0.7 ]};
     "expert" :=
       {[ "beginner" := 0.3; "intermediate" := 0.7; "advanced" := 1.0 ]} ]}.

(** [difficulty_match.get(user_skill, {}).get(content['difficulty'], 0.5)] *)
Definition difficulty_factor (user_skill difficulty : string) : Q :=
  default 0.5 (default ∅ (difficulty_match !! user_skill) !! difficulty).

(** Difficulty matching. *)
Definition difficulty_matching (user_skill difficulty : string)
    (st : Scored) : Scored :=
  (st.1 + difficulty_factor user_skill difficulty * 0.2, st.2).

(** Popularity boost. *)
Definition popularity_boost (popularity_score : Q) (st : Scored) : Scored :=
  (st.1 + popularity_score * 0.15, st.2).

(** The loop over [similar_users] with its [break]: does one of them have a
    ['like'] or ['complete'] event on this content? *)
Fixpoint any_peer_liked (db : Store) (cid : string)
    (similar : list (string * nat)) : bool :=
  match similar with
  | [] => false
  | su :: rest =>
      if (0 <? liked_count db su.1 cid)%nat then true
      else any_peer_liked db cid rest
  end.

Definition peer_affinity (db : Store) (similar : list (string * nat))
    (cid : string) (st : Scored) : Scored :=
  if any_peer_liked db cid similar
  then (st.1 + 0.2, st.2 ++ ["popular_with_similar_users"])
  else st.

(** The answer of the SQL engine to the peer query of the handler:
    [engine db uid] are the rows that
    [SELECT e2.user_id, COUNT( * ) as common_items ... ORDER BY common_items
     DESC LIMIT 10] returns for [uid] on the store [db]. The handler is
    verified for every engine whose answers the statement allows. *)
Section Engine.
Context (engine : Store → string → list (string * nat)).
Hypothesis engine_allowed :
  ∀ db uid, similar_users_rows db uid (engine db uid).

(** Collaborative filtering: [if strategy in ["collaborative", "hybrid"]]. *)
Definition collaborative_filtering (db : Store) (uid : string)
    (strategy : Strategy) (cid : string) (st : Scored) : Scored :=
  match strategy with
  | content_based => st
  | collaborative | hybrid => peer_affinity db (engine db uid) cid st
  end.

Definition microseconds_per_day : Z := 86400000000.

(** [(datetime.now() - datetime.fromisoformat(created_at)).days] *)
Definition days_old (now created_at : Z) : Z :=
  ((now - created_at) / microseconds_per_day)%Z.

(** [max(0.5, 1.0 - (days_old / 365))] *)
Definition recency_factor (d : Z) : Q :=
  Py.max 0.5 (1.0 - inject_Z d / 365).

(** Recency penalty for old content. *)
Definition recency_penalty (now created_at : Z) (st : Scored) : Scored :=
  (st.1 * recency_factor (days_old now created_at), st.2).

(** Randomness for exploration: [score += random.uniform(0, 0.1)]. *)
Definition exploration (g : Py.Rng) (st : Scored) : Scored * Py.Rng :=
  let '(jitter, g') := Py.uniform 0 0.1 g in ((st.1 + jitter, st.2), g').

(** [if not reason_tags: reason_tags = ["recommended_for_you"]] *)
Definition fallback_tags (reason_tags : list string) : list string :=
  match reason_tags with
  | [] => ["recommended_for_you"]
  | _ :: _ => reason_tags
  end.

(** The running pair before the recency penalty: blocks 1 to 4. *)
Definition raw_scoring (db : Store) (uid : string)
    (user_interests : list string) (user_skill : string)
    (strategy : Strategy) (c : Content.row) : Scored :=
  let st : Scored := (0.0, []) in
  let st := content_based_scoring user_interests
                                  (parse_tags (Content.tags c)) st in
  let st := difficulty_matching user_skill (Content.difficulty c) st in
  let st := popularity_boost (Content.popularity_score c) st in
  collaborative_filtering db uid strategy (Content.content_id c) st.

(** The body of [for content in all_content] after the [continue] test. *)
Definition score_content (db : Store) (uid : string)
    (user_interests : list string) (user_skill : string)
    (strategy : Strategy) (now : Z) (g : Py.Rng) (c : Content.row)
  : Recommendation.t * Py.Rng :=
  let st := raw_scoring db uid user_interests user_skill strategy c in
  let st := recency_penalty now (Content.created_at c) st in
  let '(st, g') := exploration g st in
  let reason_tags := fallback_tags st.2 in
  (Recommendation.mk (Content.content_id c) (Content.title c)
                     (Py.min st.1 1.0) (take 3 reason_tags)
                     (Content.difficulty c) (Content.content_type c),
   g').

(** ** The handler of [GET /recommend/{user_id}] *)

(** The loop [for content in all_content]: completed items are skipped, every
    other item is scored and appended to [recommendations]. *)
Fixpoint score_all (db : Store) (uid : string)
    (user_interests : list string) (user_skill : string)
    (history : gmap string (gmap string nat)) (strategy : Strategy) (now : Z)
    (g : Py.Rng) (all_content : list Content.row)
  : list Recommendation.t * Py.Rng :=
  match all_content with
  | [] => ([], g)
  | c :: rest =>
      if already_completed history (Content.content_id c)
      then score_all db uid user_interests user_skill history strategy now
                     g rest
      else
        let '(rec, g1) := score_content db uid user_interests user_skill
                                        strategy now g c in
        let '(recs, g2) := score_all db uid user_interests user_skill history
                                     strategy now g1 rest in
        (rec :: recs, g2)
  end.

(** [recommendations.sort(key=lambda x: x['score'], reverse=True)] *)
Definition sort_by_score (recs : list Recommendation.t)
  : list Recommendation.t :=
  Py.sort_reverse
    (λ a b, Py.Qltb (Recommendation.score a) (Recommendation.score b)) recs.

(** The row that the handler inserts for one recommendation. *)
Definition log_row (log_id uid : string) (now : Z) (rec : Recommendation.t)
  : RecommendationLogs.row :=
  RecommendationLogs.mk log_id uid (Recommendation.content_id rec)
                        (Recommendation.score rec) "v2.0.0"
                        (Py.join "," (Recommendation.reason_tags rec))
                        now false.

(** The loop [for rec in top_recs] of [INSERT INTO recommendation_logs];
    [None] when a drawn [log_id] is already a primary key of the table. *)
Fixpoint log_recommendations (logs : list RecommendationLogs.row)
    (uid : string) (now : Z) (g : Py.Rng) (top_recs : list Recommendation.t)
  : option (list RecommendationLogs.row) * Py.Rng :=
  match top_recs with
  | [] => (Some logs, g)
  | rec :: rest =>
      let '(log_id, g1) := Py.random_id g in
      if decide (log_id ∈ RecommendationLogs.log_id <$> logs)
      then (None, g1)
      else log_recommendations (logs ++ [log_row log_id uid now rec])
                               uid now g1 rest
  end.

(** The recommendations that a request computes before it logs them. *)
Definition top_recs (db : Store) (g : Py.Rng) (now : Z) (user : Users.row)
    (uid : string) (k : Z) (strategy : Strategy)
  : list Recommendation.t * Py.Rng :=
  let user_interests := parse_tags (Users.interests user) in
  let user_skill := Users.skill_level user in
  let history := user_history db uid in
  let '(recommendations, g1) :=
    score_all db uid user_interests user_skill history strategy now g
              (content db) in
  (take (Z.to_nat k) (sort_by_score recommendations), g1).

(** [get_recommendations(user_id, k, strategy)]. [now] is the clock of the
    request and [latency] the measured latency in milliseconds. A failed
    request commits nothing. *)
Definition get_recommendations (db : Store) (g : Py.Rng) (now latency : Z)
    (user_id : string) (k : Z) (strategy : Strategy)
  : (Failure + RecommendationResponse.t) * Store * Py.Rng :=
  if negb ((1 <=? k)%Z && (k <=? 50)%Z) then (inl Unprocessable, db, g)
  else
    match select_user db user_id with
    | None => (inl (NotFound "User not found"), db, g)
    | Some user =>
        let '(recs, g1) := top_recs db g now user user_id k strategy in
        match log_recommendations (recommendation_logs db) user_id now g1 recs
        with
        | (None, g2) => (inl IntegrityError, db, g2)
        | (Some logs, g2) =>
            (inr (RecommendationResponse.mk user_id recs "v2.0.0" latency
                                            strategy),
             {| users := users db; content := content db;
                events := events db; recommendation_logs := logs |},
             g2)
        end
    end.

(** ** The handler of [POST /events] *)

(** [log_event(event)]. A failed request commits nothing. *)
Definition log_event (db : Store) (g : Py.Rng) (now : Z)
    (event : EventCreate.t)
  : (Failure + EventResponse.t) * Store * Py.Rng :=
  let '(event_id, g') := Py.random_id g in
  let timestamp := now in
  match select_user db (EventCreate.user_id event) with
  | None => (inl (NotFound "User not found"), db, g')
  | Some _ =>
      match select_content db (EventCreate.content_id event) with
      | None => (inl (NotFound "Content not found"), db, g')
      | Some _ =>
          if decide (event_id ∈ Events.event_id <$> events db)
          then (inl IntegrityError, db, g')
          else
            let events' :=
              events db ++
              [Events.mk event_id (EventCreate.user_id event)
                         (EventCreate.content_id event)
                         (EventCreate.event_type event)
                         (EventCreate.value event)
                         (EventCreate.session_id event) timestamp] in
            let users' :=
              update_last_active timestamp (EventCreate.user_id event)
                                 (users db) in
            let content' :=
              update_popularity events' (EventCreate.content_id event)
                                (content db) in
            (inr (EventResponse.mk event_id "success" timestamp),
             {| users := users'; content := content'; events := events';
                recommendation_logs := recommendation_logs db |},
             g')
      end
  end.

(** [content.popularity_score] of the row with a given id. *)
Definition popularity_of (db : Store) (cid : string) : option Q :=
  Content.popularity_score <$> select_content db cid.

(** ** Notions used in the statements *)

(** The contract of [random.random()]: every draw lies in [[0, 1)]. *)
Definition unit_draws (g : Py.Rng) : Prop :=
  ∀ i, 0 <= Py.draws g i < 1.

(** The user's history holds a ['complete'] event for the content. *)
Definition has_completed (db : Store) (uid cid : string) : Prop :=
  ∃ e, e ∈ events db ∧ Events.user_id e = uid ∧ Events.content_id e = cid
       ∧ Events.event_type e = "complete".

(** The candidates of a request: the catalog minus what the loop skips. *)
Definition eligible (db : Store) (uid : string) : list Content.row :=
  filter (λ c, already_completed (user_history db uid) (Content.content_id c)
               = false) (content db).

(** The reason tags that the signals of one candidate produce, in the order
    in which the loop body discovers them. *)
Definition discovered_tags (db : Store) (uid : string)
    (user_interests : list string) (strategy : Strategy) (c : Content.row)
  : list string :=
  take 2 (elements (common_tags user_interests (parse_tags (Content.tags c))))
  ++ match strategy with
     | content_based => []
     | collaborative | hybrid =>
         if any_peer_liked db (Content.content_id c) (engine db uid)
         then ["popular_with_similar_users"] else []
     end.

(** The peer-affinity contribution of block 4 under a strategy. *)
Definition peer_bonus (db : Store) (uid : string) (strategy : Strategy)
    (cid : string) : Q :=
  match strategy with
  | content_based => 0
  | collaborative | hybrid =>
      if any_peer_liked db cid (engine db uid) then 0.2 else 0
  end.

(** One recommendation is the scored form of one content item, for some
    state of the generator that draws from the sequence of [g]. *)
Definition scored_from (db : Store) (uid : string) (user : Users.row)
    (strategy : Strategy) (now : Z) (g : Py.Rng)
    (c : Content.row) (r : Recommendation.t) : Prop :=
  ∃ g', Py.draws g' = Py.draws g
        ∧ r = (score_content db uid (parse_tags (Users.interests user))
                             (Users.skill_level user) strategy now g' c).1.

(** The log rows of a list of recommendations, up to their random ids. *)
Definition logged_as (uid : string) (now : Z)
    (recs : list Recommendation.t) (new : list RecommendationLogs.row)
  : Prop :=
  Forall2 (λ r l, ∃ log_id, l = log_row log_id uid now r) recs new.

(** The user has no row in [events]. *)
Definition has_no_events (db : Store) (uid : string) : Prop :=
  ∀ e, e ∈ events db → Events.user_id e ≠ uid.

(** A response with its [strategy] field replaced. *)
Definition with_strategy (strategy : Strategy)
    (resp : RecommendationResponse.t) : RecommendationResponse.t :=
  RecommendationResponse.mk (RecommendationResponse.user_id resp)
                            (RecommendationResponse.recommendations resp)
                            (RecommendationResponse.model_version resp)
                            (RecommendationResponse.latency_ms resp)
                            strategy.

(** The tag-overlap contribution of block 1 for a user row and a content
    row, and the overlap count behind it. *)
Definition tag_contribution (u : Users.row) (c : Content.row) : Q :=
  (content_based_scoring (parse_tags (Users.interests u))
                         (parse_tags (Content.tags c)) (0.0, [])).1.

Definition overlap_count (u : Users.row) (c : Content.row) : nat :=
  tag_overlap (parse_tags (Users.interests u)) (parse_tags (Content.tags c)).

(** A string without the separator. *)
Fixpoint no_sep (sep : ascii) (s : string) : Prop :=
  match s with
  | EmptyString => True
  | String c rest => c ≠ sep ∧ no_sep sep rest
  end.

(** The tags [t], [tt], [ttt], ... *)
Fixpoint tag_of (i : nat) : string :=
  match i with
  | O => "t"
  | S i' => String "t" (tag_of i')
  end.

Definition numbered_tags (n : nat) : list string := tag_of <$> seq 0 n.

(** A user and a content item whose tag columns both hold the first [n]
    numbered tags. *)
Definition user_with_tags (n : nat) : Users.row :=
  Users.mk "U" "User U" "u@example.com" "beginner" "novice"
           (Py.join "," (numbered_tags n)) 0 None.

Definition content_with_tags (n : nat) : Content.row :=
  Content.mk "C" "Introduction to Python Programming" "" "video" "beginner"
             (Py.join "," (numbered_tags n)) 30 0.4 0.

(** ** Sample data

    The scenario of the specification: user [U] with interests
    [python, cloud] and skill level novice, content [C] with tags
    [python, ai], difficulty beginner and popularity 0.4, created at the
    instant of the request. The larger store adds a second user, two more
    content items and a few events. *)

Definition user_U : Users.row :=
  Users.mk "U" "User U" "u@example.com" "beginner" "novice" "python,cloud"
           0 None.

Definition user_V : Users.row :=
  Users.mk "V" "User V" "v@example.com" "advanced" "expert" "ai" 0 None.

Definition user_W : Users.row :=
  Users.mk "W" "User W" "w@example.com" "beginner" "intermediate"
           "cloud,devops" 0 None.

Definition content_C : Content.row :=
  Content.mk "C" "Introduction to Python Programming" "" "video" "beginner"
             "python,ai" 30 0.4 0.

Definition content_D : Content.row :=
  Content.mk "D" "Cloud Computing with AWS" "" "course" "advanced"
             "cloud,python" 120 0.4 0.

Definition content_E : Content.row :=
  Content.mk "E" "SQL Database Mastery" "" "article" "intermediate" ""
             45 0.2 0.

Definition db_scenario : Store :=
  {| users := [user_U]; content := [content_C]; events := [];
     recommendation_logs := [] |}.

Definition db_sample : Store :=
  {| users := [user_U; user_V];
     content := [content_C; content_D; content_E];
     events := [Events.mk "e1" "U" "C" "view" None None 0;
                Events.mk "e2" "V" "C" "like" None None 0;
                Events.mk "e3" "V" "D" "complete" None None 0;
                Events.mk "e4" "U" "E" "complete" None None 0];
     recommendation_logs := [] |}.

(** A generator whose draws are all [0]. *)
Definition rng_zero : Py.Rng := {| Py.draws := λ _, 0; Py.pos := 0 |}.

(** A generator whose draws run through [0/36, 1/36, ..., 35/36]. *)
Definition rng_cycle : Py.Rng :=
  {| Py.draws := λ i, inject_Z (Z.of_nat (i mod 36)) / 36; Py.pos := 0 |}.

(** The event row that [log_event] inserts. *)
Definition event_row (event_id : string) (timestamp : Z)
    (event : EventCreate.t) : Events.row :=
  Events.mk event_id (EventCreate.user_id event)
            (EventCreate.content_id event) (EventCreate.event_type event)
            (EventCreate.value event) (EventCreate.session_id event)
            timestamp.

(** One successful event ingestion leads from [db] to [db']. *)
Definition ingest_step (db db' : Store) : Prop :=
  ∃ g now event resp g', log_event db g now event = (inr resp, db', g').

(** The popularity that the recompute of [log_event] assigns: 0.01 times
    the number of event rows that reference the content. *)
Definition popularity_from_events (db : Store) (cid : string) : Q :=
  inject_Z (Z.of_nat (event_count (events db) cid)) * 0.01.

(** The stored popularity of a content item is the recomputed one. *)
Definition in_sync (db : Store) (cid : string) : Prop :=
  popularity_of db cid = Some (popularity_from_events db cid).

(** A store with [n] events on content [C], then one more ingestion. *)
Definition db_busy (n : nat) : Store :=
  {| users := [user_U]; content := [content_C];
     events := (λ i, Events.mk (tag_of i) "U" "C" "view" None None 0)
               <$> seq 0 n;
     recommendation_logs := [] |}.

Definition event_view_C : EventCreate.t :=
  EventCreate.mk "U" "C" "view" None None.


(** Two users, [V] and [W], who each share one interaction with [U]. *)
Definition db_tie : Store :=
  {| users := [user_U; user_V; user_W];
     content := [content_C];
     events := [Events.mk "e1" "U" "C" "view" None None 0;
                Events.mk "e2" "V" "C" "like" None None 0;
                Events.mk "e3" "W" "C" "view" None None 0];
     recommendation_logs := [] |}.

(** ** More of [app_full.py]: invariants of the store *)

(** The primary keys of the four tables. *)
Definition unique_keys (db : Store) : Prop :=
  NoDup (Users.user_id <$> users db)
  ∧ NoDup (Content.content_id <$> content db)
  ∧ NoDup (Events.event_id <$> events db)
  ∧ NoDup (RecommendationLogs.log_id <$> recommendation_logs db).

(** The two foreign keys of [events]. *)
Definition references_exist (db : Store) : Prop :=
  ∀ e, e ∈ events db →
       Events.user_id e ∈ Users.user_id <$> users db
       ∧ Events.content_id e ∈ Content.content_id <$> content db.

Definition popularity_nonneg (db : Store) : Prop :=
  Forall (λ c, 0 <= Content.popularity_score c) (content db).

(** One served recommendation request leads from [db] to [db']. *)
Definition serve_step (db db' : Store) : Prop :=
  ∃ g now latency uid k strategy resp g',
    get_recommendations db g now latency uid k strategy = (inr resp, db', g').

(** One successful request of either kind. *)
Definition request_step (db db' : Store) : Prop :=
  ingest_step db db' ∨ serve_step db db'.

(** ** More of [app_full.py]: [calculate_user_similarity] *)

(** The rows of
    [events e1 JOIN events e2 ON e1.content_id = e2.content_id
     WHERE e1.user_id = ? AND e2.user_id = ?],
    projected on [e1.content_id]. *)
Definition similarity_join (db : Store) (user_id target_user_id : string)
  : list string :=
  e1 ← filter (λ e, Events.user_id e = user_id) (events db);
  e2 ← filter (λ e, Events.content_id e = Events.content_id e1
                     ∧ Events.user_id e = target_user_id) (events db);
  [Events.content_id e1].

(** [SELECT COUNT(DISTINCT e1.content_id) as common_content] *)
Definition common_content (db : Store) (user_id target_user_id : string)
  : nat :=
  size (list_to_set (similarity_join db user_id target_user_id) : gset string).

(** [calculate_user_similarity(user_id, target_user_id)]:
    [min(common / 10.0, 1.0)]. *)
Definition calculate_user_similarity (db : Store)
    (user_id target_user_id : string) : Q :=
  Py.min (inject_Z (Z.of_nat (common_content db user_id target_user_id))
          / 10.0) 1.0.

(** ** More of [app_full.py]: statements of the analytics handlers *)

(** [x or d] for a nullable number: [d] when [x] is [None] or zero. *)
Definition or_default (x : option Q) (d : Q) : Q :=
  match x with
  | Some v => if Qeq_bool v 0 then d else v
  | None => d
  end.

(** [get_analytics]: [SELECT event_type, COUNT( * ) as count FROM events
    GROUP BY event_type], read into
    [{row['event_type']: row['count'] for row in cursor.fetchall()}]. *)
Definition event_distribution (db : Store) : gmap string nat :=
  foldl (λ m p, <[p := S (default 0%nat (m !! p))]> m) ∅
        (Events.event_type <$> events db).

(** [get_analytics]: [SELECT COUNT( * ) FROM events]. *)
Definition total_events (db : Store) : nat := length (events db).

(** [COUNT(DISTINCT user_id)] over [events]. *)
Definition active_users (db : Store) : gset string :=
  list_to_set (Events.user_id <$> events db).

(** [COUNT(DISTINCT CASE WHEN event_type = 'complete' THEN user_id END)] *)
Definition completing_users (db : Store) : gset string :=
  list_to_set (Events.user_id
               <$> filter (λ e, Events.event_type e = "complete") (events db)).

(** [get_analytics]: the engagement rate of the statement,
    [COUNT(DISTINCT CASE ...) * 1.0 / COUNT(DISTINCT user_id)]; SQLite gives
    [NULL] for a division by zero. *)
Definition engagement_rate_row (db : Store) : option Q :=
  if decide (size (active_users db) = 0%nat) then None
  else Some (inject_Z (Z.of_nat (size (completing_users db))) * 1.0
             / inject_Z (Z.of_nat (size (active_users db)))).

(** [engagement_rate = cursor.fetchone()['engagement_rate'] or 0.0] *)
Definition engagement_rate (db : Store) : Q :=
  or_default (engagement_rate_row db) 0.0.

(** [get_user_analytics]: [SELECT COUNT( * ) FROM events WHERE user_id = ?]. *)
Definition user_total_events (db : Store) (uid : string) : nat :=
  length (filter (λ e, Events.user_id e = uid) (events db)).

(** [get_user_analytics]: [SELECT COUNT(DISTINCT content_id) FROM events
    WHERE user_id = ? AND event_type = ?], run with ['view'] and with
    ['complete']. *)
Definition distinct_content (db : Store) (uid event_type : string)
  : gset string :=
  list_to_set (Events.content_id
               <$> filter (λ e, Events.user_id e = uid
                                ∧ Events.event_type e = event_type)
                          (events db)).

Definition content_viewed (db : Store) (uid : string) : nat :=
  size (distinct_content db uid "view").

Definition content_completed (db : Store) (uid : string) : nat :=
  size (distinct_content db uid "complete").

(** The non-[NULL] values of the quiz events of a user. *)
Definition quiz_values (db : Store) (uid : string) : list Q :=
  omap Events.value
       (filter (λ e, Events.user_id e = uid
                     ∧ Events.event_type e = "quiz_score") (events db)).

Definition Qsum (l : list Q) : Q := foldr Qplus 0 l.

(** [SELECT AVG(value) FROM events WHERE user_id = ? AND event_type =
    'quiz_score']: the mean of the values that are not [NULL], and [NULL]
    when there is none. *)
Definition avg_score_row (db : Store) (uid : string) : option Q :=
  match quiz_values db uid with
  | [] => None
  | vs => Some (Qsum vs / inject_Z (Z.of_nat (length vs)))
  end.

(** [avg_quiz_score = cursor.fetchone()['avg_score'] or 0.0] *)
Definition avg_quiz_score (db : Store) (uid : string) : Q :=
  or_default (avg_score_row db uid) 0.0.

(** The sum of the counts of a distribution. *)
Definition sum_counts (m : gmap string nat) : nat :=
  map_fold (λ _ n acc, (n + acc)%nat) 0%nat m.

(** ** [seed_database] *)

(** The functions of Python's module [random] that the seeding calls, as
    functions of the generator. What they return is left open up to what
    their documentation promises, see [random_contract]. *)
Record RandomModule := {
  randint : Z → Z → Py.Rng → Z * Py.Rng;
  choice : list string → Py.Rng → string * Py.Rng;
  sample : list string → nat → Py.Rng → list string * Py.Rng
}.

(** [randint(a, b)] is an integer [N] with [a <= N <= b]; [choice(seq)] is
    an element of the non-empty [seq]; [sample(population, k)] is a list of
    [k] elements chosen from [population] without replacement. They draw
    from the generator of [random.random()], whose draws stay in
    [[0, 1)]. *)
Definition random_contract (R : RandomModule) : Prop :=
  (∀ a b g, (a ≤ b)%Z → (a ≤ (randint R a b g).1 ≤ b)%Z)
  ∧ (∀ seq g, seq ≠ [] → (choice R seq g).1 ∈ seq)
  ∧ (∀ population k g,
       (k ≤ length population)%nat →
       (sample R population k g).1 ⊆+ population
       ∧ length (sample R population k g).1 = k)
  ∧ (∀ a b g, unit_draws g → unit_draws (randint R a b g).2)
  ∧ (∀ seq g, unit_draws g → unit_draws (choice R seq g).2)
  ∧ (∀ population k g,
       unit_draws g → unit_draws (sample R population k g).2).

(** The clock of the machine: the values that it shows when it is read, and
    the number of times it has been read. *)
Record Clock := { reading : nat → Z; reads : nat }.

(** What the seeding threads through its loops: the generator and the
    clock. *)
Definition Seeding (A : Type) : Type := Py.Rng * Clock → A * (Py.Rng * Clock).

#[local] Instance Seeding_ret : MRet Seeding := λ A x s, (x, s).
#[local] Instance Seeding_bind : MBind Seeding :=
  λ A B f m s, let '(x, s') := m s in f x s'.

(** A call of a function of [random]. *)
Definition draw {A : Type} (f : Py.Rng → A * Py.Rng) : Seeding A :=
  λ s, let '(x, g') := f s.1 in (x, (g', s.2)).

(** [datetime.now()], and the [CURRENT_TIMESTAMP] of a column default. *)
Definition datetime_now : Seeding Z :=
  λ s, (reading s.2 (reads s.2),
        (s.1, {| reading := reading s.2; reads := S (reads s.2) |})).

(** [timedelta(hours=h)] in microseconds. *)
Definition microseconds_per_hour : Z := 3600000000.

Definition cohorts : list string := ["beginner"; "intermediate"; "advanced"].

Definition interests_pool : list string :=
  ["python"; "javascript"; "machine-learning"; "web-dev"; "data-science";
   "cloud"; "devops"; "ai"].

Definition skill_levels : list string := ["novice"; "intermediate"; "expert"].

(** The tuple of [users.append((...))] for one [i], as the row that the
    [INSERT] makes of it; [last_active] is not among the columns of the
    statement and stays [NULL]. *)
Definition seed_user (R : RandomModule) (i : nat) : Seeding Users.row :=
  cohort_tag ← draw (choice R cohorts);
  skill_level ← draw (choice R skill_levels);
  n ← draw (randint R 2 4);
  interests ← draw (sample R interests_pool (Z.to_nat n));
  now ← datetime_now;
  days ← draw (randint R 1 365);
  mret (Users.mk ("user_" +:+ pretty i) ("User " +:+ pretty i)
                 ("user" +:+ pretty i +:+ "@example.com")
                 cohort_tag skill_level (Py.join "," interests)
                 (now - days * microseconds_per_day)%Z None).

Definition content_types : list string :=
  ["video"; "article"; "course"; "tutorial"; "quiz"; "project"].

Definition difficulties : list string :=
  ["beginner"; "intermediate"; "advanced"].

Definition content_titles : list string :=
  ["Introduction to Python Programming";
   "Advanced JavaScript Patterns";
   "Machine Learning Fundamentals";
   "React for Beginners";
   "Docker and Kubernetes";
   "Data Structures and Algorithms";
   "Web Development Bootcamp";
   "TensorFlow Deep Learning";
   "System Design Interview Prep";
   "Cloud Computing with AWS";
   "Python Data Science";
   "Node.js Backend Development";
   "Vue.js Complete Guide";
   "DevOps Best Practices";
   "Natural Language Processing";
   "Computer Vision with OpenCV";
   "SQL Database Mastery";
   "MongoDB NoSQL Basics";
   "REST API Design";
   "GraphQL Fundamentals"].

(** [c.lower()] for a character of an ASCII string. *)
Definition ascii_lower (c : ascii) : ascii :=
  let n := nat_of_ascii c in
  if ((65 <=? n) && (n <=? 90))%nat then ascii_of_nat (n + 32) else c.

(** [s.lower()] *)
Fixpoint lower (s : string) : string :=
  match s with
  | EmptyString => EmptyString
  | String c rest => String (ascii_lower c) (lower rest)
  end.

(** [random.choice(content_titles) if i > 20 else content_titles[i-1] if
    i <= len(content_titles) else f"Course {i}"], for the [i] of
    [range(1, 201)]. *)
Definition seed_title (R : RandomModule) (i : nat) : Seeding string :=
  if decide (20 < i)%nat then draw (choice R content_titles)
  else if decide (i ≤ length content_titles)%nat
       then mret (default "" (content_titles !! (i - 1)%nat))
       else mret ("Course " +:+ pretty i).

(** The tuple of [content.append((...))] for one [i], as the row that the
    [INSERT] makes of it once the column default gives [created_at]. *)
Definition seed_content (R : RandomModule) (i : nat)
  : Seeding (Z → Content.row) :=
  title ← seed_title R i;
  content_type ← draw (choice R content_types);
  difficulty ← draw (choice R difficulties);
  n ← draw (randint R 1 3);
  tags ← draw (sample R interests_pool (Z.to_nat n));
  duration_minutes ← draw (randint R 10 240);
  popularity_score ← draw (Py.uniform 0.0 1.0);
  mret (Content.mk ("content_" +:+ pretty i) title
                   ("Comprehensive guide to " +:+ lower title)
                   content_type difficulty (Py.join "," tags)
                   duration_minutes popularity_score).

(** The [created_at] of an inserted content row:
    [DEFAULT CURRENT_TIMESTAMP]. *)
Definition stamp_content (c : Z → Content.row) : Seeding Content.row :=
  now ← datetime_now; mret (c now).

Definition event_types : list string :=
  ["view"; "complete"; "like"; "quiz_score"; "bookmark"; "share"].

(** The tuple of [events.append((...))] for one [i]. The [value] of a quiz
    event is an integer, which the [REAL] column stores as a float. *)
Definition seed_event (R : RandomModule) (i : nat) : Seeding Events.row :=
  u ← draw (randint R 1 100);
  c ← draw (randint R 1 200);
  event_type ← draw (choice R event_types);
  value ← (if decide (event_type = "quiz_score")
           then v ← draw (randint R 60 100); mret (Some (inject_Z v))
           else mret None);
  session ← draw (randint R 1 1000);
  now ← datetime_now;
  hours ← draw (randint R 1 720);
  mret (Events.mk ("event_" +:+ pretty i) ("user_" +:+ pretty u)
                  ("content_" +:+ pretty c) event_type value
                  (Some ("session_" +:+ pretty session))
                  (now - hours * microseconds_per_hour)%Z).

(** [cursor.executemany("INSERT INTO ...", rows)]: the rows are appended one
    by one; [None] stands for the [sqlite3.IntegrityError] of a row whose
    primary key is in the table. *)
Fixpoint executemany {A : Type} (key : A → string) (table rows : list A)
  : option (list A) :=
  match rows with
  | [] => Some table
  | r :: rest =>
      if decide (key r ∈ key <$> table) then None
      else executemany key (table ++ [r]) rest
  end.

(** [seed_database()]: the store after the call, or [None] when an [INSERT]
    raises, in which case nothing is committed. *)
Definition seed_database (R : RandomModule) (db : Store)
  : Seeding (option Store) :=
  if decide (0 < length (users db))%nat then mret (Some db)
  else
    new_users ← mapM (seed_user R) (seq 1 100);
    match executemany Users.user_id (users db) new_users with
    | None => mret None
    | Some users' =>
        tuples ← mapM (seed_content R) (seq 1 200);
        new_content ← mapM stamp_content tuples;
        match executemany Content.content_id (content db) new_content with
        | None => mret None
        | Some content' =>
            new_events ← mapM (seed_event R) (seq 1 5000);
            match executemany Events.event_id (events db) new_events with
            | None => mret None
            | Some events' =>
                mret (Some {| users := users'; content := content';
                              events := events';
                              recommendation_logs :=
                                recommendation_logs db |})
            end
        end
    end.

(** The store of a database file that [init_database] has just created. *)
Definition db_empty : Store :=
  {| users := []; content := []; events := []; recommendation_logs := [] |}.

(** A [random] module that always picks the first: the lower bound, the
    first element, the first [k] elements. *)
Definition random_first : RandomModule :=
  {| randint := λ a _ g, (a, g);
     choice := λ seq g, (default "" (head seq), g);
     sample := λ population k g, (take k population, g) |}.

Definition clock_zero : Clock := {| reading := λ _, 0%Z; reads := 0 |}.

(** What the body of the users loop makes of [i]. *)
Definition seeded_user (i : nat) (r : Users.row) : Prop :=
  Users.user_id r = "user_" +:+ pretty i
  ∧ Users.cohort_tag r ∈ cohorts
  ∧ Users.skill_level r ∈ skill_levels
  ∧ (∃ l, Users.interests r = Py.join "," l ∧ l ⊆+ interests_pool
          ∧ (2 ≤ length l ≤ 4)%nat)
  ∧ Users.last_active r = None.

(** What the body of the content loop makes of [i]. *)
Definition seeded_content (i : nat) (c : Content.row) : Prop :=
  Content.content_id c = "content_" +:+ pretty i
  ∧ Content.title c ∈ content_titles
  ∧ Content.description c
    = "Comprehensive guide to " +:+ lower (Content.title c)
  ∧ Content.content_type c ∈ content_types
  ∧ Content.difficulty c ∈ difficulties
  ∧ (∃ l, Content.tags c = Py.join "," l ∧ l ⊆+ interests_pool
          ∧ (1 ≤ length l ≤ 3)%nat)
  ∧ (10 ≤ Content.duration_minutes c ≤ 240)%Z
  ∧ 0 <= Content.popularity_score c < 1.

(** What the body of the events loop makes of [i]. *)
Definition seeded_event (i : nat) (e : Events.row) : Prop :=
  Events.event_id e = "event_" +:+ pretty i
  ∧ (∃ u : nat, (1 ≤ u ≤ 100)%nat ∧ Events.user_id e = "user_" +:+ pretty u)
  ∧ (∃ c : nat, (1 ≤ c ≤ 200)%nat
                ∧ Events.content_id e = "content_" +:+ pretty c)
  ∧ Events.event_type e ∈ event_types
  ∧ (if decide (Events.event_type e = "quiz_score")
     then ∃ v : Z, (60 ≤ v ≤ 100)%Z ∧ Events.value e = Some (inject_Z v)
     else Events.value e = None)
  ∧ (∃ n : nat, (1 ≤ n ≤ 1000)%nat
                ∧ Events.session_id e = Some ("session_" +:+ pretty n)).

(** ** The peer query as sqlite3 answers it *)

(** The statement sorts by the count alone, and SQL leaves the order of rows
    with equal counts to the engine. The engine of the program is sqlite3.
    It answers this statement, on the tables and indexes of [init_database],
    with the rows of equal count in descending order of [user_id], compared
    byte by byte as its BINARY collation does: the groups of
    [GROUP BY e2.user_id] reach the sorter of [ORDER BY] in ascending order
    of the key, and the sorter returns rows with equal sort keys in the
    reverse of the order in which it received them.
    [ranks_before a b]: the row [a] is [b] or is returned before [b]. *)
Definition ranks_before (a b : string * nat) : Prop :=
  (b.2 < a.2)%nat ∨ (a.2 = b.2 ∧ String.leb b.1 a.1 = true).

#[local] Instance ranks_before_dec (a b : string * nat)
  : Decision (ranks_before a b) :=
  ltac:(unfold ranks_before; apply _).

(** The rows that the peer query of the handler returns for [uid]. *)
Definition peer_finder (db : Store) (uid : string) : list (string * nat) :=
  take 10 (merge_sort ranks_before (map_to_list (common_items db uid))).

(** * Properties *)

(** ** Python primitives *)

Lemma Qltb_lt (a b : Q) : Py.Qltb a b = true ↔ a < b.
Proof.
  unfold Py.Qltb. rewrite negb_true_iff, <- not_true_iff_false, Qle_bool_iff.
  split; [apply Qnot_le_lt | apply Qlt_not_le].
Qed.

Lemma Qltb_ge (a b : Q) : Py.Qltb a b = false ↔ b <= a.
Proof.
  unfold Py.Qltb. rewrite negb_false_iff. apply Qle_bool_iff.
Qed.

Lemma max_lower_l (a b : Q) : a <= Py.max a b.
Proof.
  unfold Py.max. destruct (Py.Qltb a b) eqn:E; [|lra].
  apply Qltb_lt in E. lra.
Qed.

Lemma max_lower_r (a b : Q) : b <= Py.max a b.
Proof.
  unfold Py.max. destruct (Py.Qltb a b) eqn:E; [lra|].
  apply Qltb_ge in E. lra.
Qed.

Lemma min_upper_r (a b : Q) : Py.min a b <= b.
Proof.
  unfold Py.min. destruct (Py.Qltb b a) eqn:E; [lra|].
  apply Qltb_ge in E. lra.
Qed.

Lemma min_upper_l (a b : Q) : Py.min a b <= a.
Proof.
  unfold Py.min. destruct (Py.Qltb b a) eqn:E; [|lra].
  apply Qltb_lt in E. lra.
Qed.

Lemma min_lower (a b c : Q) : c <= a → c <= b → c <= Py.min a b.
Proof. intros Ha Hb. unfold Py.min. by destruct (Py.Qltb b a). Qed.

Lemma inject_nat_nonneg (n : nat) : 0 <= inject_Z (Z.of_nat n).
Proof. change 0 with (inject_Z 0). rewrite <- Zle_Qle. lia. Qed.

Lemma random_draws (g : Py.Rng) : Py.draws (Py.random g).2 = Py.draws g.
Proof. reflexivity. Qed.

Lemma uniform_draws (a b : Q) (g : Py.Rng) :
  Py.draws (Py.uniform a b g).2 = Py.draws g.
Proof. reflexivity. Qed.

Lemma choices_draws (population : list ascii) (k : nat) (g : Py.Rng) :
  Py.draws (Py.choices population k g).2 = Py.draws g.
Proof.
  revert g. induction k as [|k IH]; intros g; simpl; [done|].
  destruct (Py.choices population k _) as [cs g2] eqn:E. simpl.
  specialize (IH {| Py.draws := Py.draws g; Py.pos := S (Py.pos g) |}).
  by rewrite E in IH.
Qed.

Lemma random_id_draws (g : Py.Rng) : Py.draws (Py.random_id g).2 = Py.draws g.
Proof.
  unfold Py.random_id.
  pose proof (choices_draws Py.ascii_lowercase_digits 16 g) as H.
  by destruct (Py.choices _ _ _).
Qed.

Lemma uniform_range (a b : Q) (g : Py.Rng) :
  unit_draws g → a <= b →
  a <= (Py.uniform a b g).1 ∧ (Py.uniform a b g).1 <= b.
Proof.
  intros Hg Hab. unfold Py.uniform, Py.random. simpl.
  destruct (Hg (Py.pos g)) as [H0 H1]. split; nra.
Qed.

(** ** The model on concrete inputs *)

Example split_example :
  Py.split "," "python,,cloud," = ["python"; ""; "cloud"; ""].
Proof. reflexivity. Qed.

Example parse_tags_example :
  parse_tags "" = [] ∧ parse_tags "python,cloud" = ["python"; "cloud"].
Proof. by split. Qed.

Example join_example : Py.join "," ["python"; "ai"; "cloud"] = "python,ai,cloud".
Proof. reflexivity. Qed.

Example random_id_example : (Py.random_id rng_cycle).1 = "abcdefghijklmnop".
Proof. vm_compute. reflexivity. Qed.

Example sort_reverse_example :
  Py.sort_reverse (λ a b : string * nat, (a.2 <? b.2)%nat)
                  [("a", 1); ("b", 3); ("c", 1); ("d", 3)]%nat
  = [("b", 3); ("d", 3); ("a", 1); ("c", 1)]%nat.
Proof. reflexivity. Qed.

(** The difficulty table: novice and beginner, expert and advanced, an
    unknown skill level, an unknown difficulty. *)
Example difficulty_factor_example :
  difficulty_factor "novice" "beginner" = 1.0
  ∧ difficulty_factor "expert" "advanced" = 1.0
  ∧ difficulty_factor "intermediate" "advanced" = 0.7
  ∧ difficulty_factor "guru" "beginner" = 0.5
  ∧ difficulty_factor "novice" "unknown" = 0.5.
Proof. vm_compute. by repeat split. Qed.

Example days_old_example :
  days_old (3 * microseconds_per_day - 1) 0 = 2%Z
  ∧ days_old 0 1 = (-1)%Z.
Proof. by split. Qed.

Example recency_factor_example :
  recency_factor 0 == 1 ∧ recency_factor 73 == 0.8
  ∧ recency_factor 1000 == 0.5 ∧ recency_factor (-73) == 1.2.
Proof. vm_compute. by repeat split. Qed.

(** ** The stable descending sort *)

Section SortFacts.
Context {A : Type} (lt : A → A → bool).

Lemma insert_desc_perm (x : A) (l : list A) : Py.insert_desc lt x l ≡ₚ x :: l.
Proof.
  induction l as [|y l IH]; simpl; [done|].
  destruct (lt x y); [|done].
  rewrite IH. apply Permutation_swap.
Qed.

Lemma sort_reverse_perm (l : list A) : Py.sort_reverse lt l ≡ₚ l.
Proof.
  induction l as [|x l IH]; simpl; [done|].
  by rewrite insert_desc_perm, IH.
Qed.


(** Stability: a class [P] of elements none of which is below another keeps
    its order. *)
Lemma insert_desc_filter (P : A → Prop) `{!∀ x, Decision (P x)}
    (x : A) (l : list A) :
  (∀ y, P x → P y → lt x y = false) →
  filter P (Py.insert_desc lt x l) = filter P (x :: l).
Proof.
  intros Htie. induction l as [|y l IH]; simpl; [done|].
  destruct (lt x y) eqn:E; [|done].
  rewrite filter_cons, IH, !filter_cons.
  destruct (decide (P y)) as [Hy|Hy]; [|done].
  destruct (decide (P x)) as [Hx|Hx]; [|done].
  rewrite (Htie y Hx Hy) in E. discriminate.
Qed.

Lemma sort_reverse_filter (P : A → Prop) `{!∀ x, Decision (P x)}
    (l : list A) :
  (∀ x y, P x → P y → lt x y = false) →
  filter P (Py.sort_reverse lt l) = filter P l.
Proof.
  intros Htie. induction l as [|x l IH]; simpl; [done|].
  rewrite insert_desc_filter by (intros; by apply Htie).
  by rewrite !filter_cons, IH.
Qed.

Context (lt_asym : ∀ x y, lt x y = true → lt y x = false).
Context (ge_trans : ∀ x y z, lt x y = false → lt y z = false → lt x z = false).

(** [lt a b = false] reads: [a] is not below [b], so [a] may stand in front
    of [b]. *)
Lemma insert_desc_sorted (x : A) (l : list A) :
  StronglySorted (λ a b, lt a b = false) l →
  StronglySorted (λ a b, lt a b = false) (Py.insert_desc lt x l).
Proof.
  induction 1 as [|y l Hl IH Hy]; simpl.
  - repeat constructor.
  - destruct (lt x y) eqn:E.
    + constructor; [done|].
      rewrite insert_desc_perm. constructor; [by apply lt_asym|done].
    + constructor; [by constructor|].
      constructor; [done|].
      eapply Forall_impl; [exact Hy|]. intros z Hz. simpl in Hz.
      by apply (ge_trans x y z).
Qed.

Lemma sort_reverse_sorted (l : list A) :
  StronglySorted (λ a b, lt a b = false) (Py.sort_reverse lt l).
Proof.
  induction l as [|x l IH]; simpl; [constructor|].
  by apply insert_desc_sorted.
Qed.

End SortFacts.

(** ** The blocks of the scoring loop *)

Lemma difficulty_match_values :
  map_Forall (λ _ m, map_Forall (λ _ q, 0 <= q <= 1) m) difficulty_match.
Proof.
  unfold difficulty_match.
  repeat (apply map_Forall_insert_2 || apply map_Forall_empty); lra.
Qed.

Lemma difficulty_factor_range (user_skill difficulty : string) :
  0 <= difficulty_factor user_skill difficulty <= 1.
Proof.
  unfold difficulty_factor.
  destruct (difficulty_match !! user_skill) as [m|] eqn:E; simpl.
  - apply difficulty_match_values in E.
    destruct (m !! difficulty) as [q|] eqn:E2; simpl; [|lra].
    by apply E in E2.
  - rewrite lookup_empty. simpl. lra.
Qed.

Lemma recency_factor_floor (d : Z) : 0.5 <= recency_factor d.
Proof. apply max_lower_l. Qed.

Lemma content_based_scoring_score (ui ct : list string) (st : Scored) :
  (content_based_scoring ui ct st).1
  == st.1 + inject_Z (Z.of_nat (tag_overlap ui ct)) * 0.3.
Proof.
  unfold content_based_scoring.
  destruct (0 <? tag_overlap ui ct)%nat eqn:E; simpl; [reflexivity|].
  apply Nat.ltb_ge in E. assert (tag_overlap ui ct = 0%nat) as -> by lia.
  change (inject_Z (Z.of_nat 0)) with 0. lra.
Qed.

Lemma content_based_scoring_tags (ui ct : list string) (st : Scored) :
  (content_based_scoring ui ct st).2
  = st.2 ++ take 2 (elements (common_tags ui ct)).
Proof.
  unfold content_based_scoring.
  destruct (0 <? tag_overlap ui ct)%nat eqn:E; simpl; [done|].
  apply Nat.ltb_ge in E. assert (tag_overlap ui ct = 0%nat) as H0 by lia.
  unfold tag_overlap in H0. apply size_empty_inv in H0.
  apply leibniz_equiv in H0. rewrite H0, elements_empty.
  by rewrite app_nil_r.
Qed.

Lemma collaborative_filtering_score (db : Store) (uid : string)
    (strategy : Strategy) (cid : string) (st : Scored) :
  (collaborative_filtering db uid strategy cid st).1
  == st.1 + peer_bonus db uid strategy cid.
Proof.
  unfold collaborative_filtering, peer_bonus, peer_affinity.
  destruct strategy; simpl; try lra;
    destruct (any_peer_liked _ _ _); simpl; lra.
Qed.

Lemma peer_bonus_nonneg (db : Store) (uid : string) (strategy : Strategy)
    (cid : string) : 0 <= peer_bonus db uid strategy cid.
Proof.
  unfold peer_bonus.
  destruct strategy; try lra; destruct (any_peer_liked _ _ _); lra.
Qed.

(** The running total before the recency penalty is the sum of the four
    contributions. *)
Lemma raw_scoring_sum (db : Store) (uid : string) (ui : list string)
    (us : string) (strategy : Strategy) (c : Content.row) :
  (raw_scoring db uid ui us strategy c).1
  == inject_Z (Z.of_nat (tag_overlap ui (parse_tags (Content.tags c)))) * 0.3
     + difficulty_factor us (Content.difficulty c) * 0.2
     + Content.popularity_score c * 0.15
     + peer_bonus db uid strategy (Content.content_id c).
Proof.
  unfold raw_scoring.
  rewrite collaborative_filtering_score.
  unfold popularity_boost, difficulty_matching. simpl.
  rewrite content_based_scoring_score. simpl. lra.
Qed.

Lemma raw_scoring_nonneg (db : Store) (uid : string) (ui : list string)
    (us : string) (strategy : Strategy) (c : Content.row) :
  0 <= Content.popularity_score c →
  0 <= (raw_scoring db uid ui us strategy c).1.
Proof.
  intros Hp. rewrite raw_scoring_sum.
  pose proof (inject_nat_nonneg (tag_overlap ui (parse_tags (Content.tags c)))).
  pose proof (difficulty_factor_range us (Content.difficulty c)).
  pose proof (peer_bonus_nonneg db uid strategy (Content.content_id c)).
  lra.
Qed.

(** The score of a recommendation: decay first, then jitter, then clamp. *)
Lemma score_content_score (db : Store) (uid : string) (ui : list string)
    (us : string) (strategy : Strategy) (now : Z) (g : Py.Rng)
    (c : Content.row) :
  Recommendation.score (score_content db uid ui us strategy now g c).1
  = Py.min ((raw_scoring db uid ui us strategy c).1
            * recency_factor (days_old now (Content.created_at c))
            + (Py.uniform 0 0.1 g).1) 1.0.
Proof. reflexivity. Qed.

Lemma score_content_draws (db : Store) (uid : string) (ui : list string)
    (us : string) (strategy : Strategy) (now : Z) (g : Py.Rng)
    (c : Content.row) :
  Py.draws (score_content db uid ui us strategy now g c).2 = Py.draws g.
Proof. reflexivity. Qed.

Lemma score_content_range (db : Store) (uid : string) (ui : list string)
    (us : string) (strategy : Strategy) (now : Z) (g : Py.Rng)
    (c : Content.row) :
  unit_draws g → 0 <= Content.popularity_score c →
  0 <= Recommendation.score (score_content db uid ui us strategy now g c).1
    <= 1.
Proof.
  intros Hg Hp. rewrite score_content_score.
  split; [|pose proof (min_upper_r ((raw_scoring db uid ui us strategy c).1
            * recency_factor (days_old now (Content.created_at c))
            + (Py.uniform 0 0.1 g).1) 1.0); lra].
  apply min_lower; [|lra].
  pose proof (raw_scoring_nonneg db uid ui us strategy c Hp).
  pose proof (recency_factor_floor (days_old now (Content.created_at c))).
  destruct (uniform_range 0 0.1 g Hg) as [Hj _]; [lra|]. nra.
Qed.

(** ** The interaction history *)

Lemma record_interaction_lookup (h : gmap string (gmap string nat))
    (e : Events.row) (cid et : string) :
  (record_interaction h e !! cid) ≫= (.!! et)
  = if decide (cid = Events.content_id e ∧ et = Events.event_type e)
    then Some (S (default 0%nat ((h !! cid) ≫= (.!! et))))
    else (h !! cid) ≫= (.!! et).
Proof.
  unfold record_interaction.
  destruct (decide (cid = Events.content_id e)) as [->|Hc].
  - rewrite lookup_insert_eq. simpl.
    destruct (decide (et = Events.event_type e)) as [->|He].
    + rewrite lookup_insert_eq, decide_True by done.
      by destruct (h !! Events.content_id e).
    + rewrite lookup_insert_ne, decide_False by intuition congruence.
      by destruct (h !! Events.content_id e).
  - rewrite lookup_insert_ne, decide_False by intuition congruence. done.
Qed.

(** The entry [h[cid][et]] is the [COUNT( * )] of its group. *)
Lemma history_count (l : list Events.row) (h : gmap string (gmap string nat))
    (cid et : string) :
  default 0%nat ((foldl record_interaction h l !! cid) ≫= (.!! et))
  = (default 0%nat ((h !! cid) ≫= (.!! et))
     + length (filter (λ e, Events.content_id e = cid
                            ∧ Events.event_type e = et) l))%nat.
Proof.
  revert h. induction l as [|e l IH]; intros h; simpl; [lia|].
  rewrite IH, record_interaction_lookup, filter_cons.
  destruct (decide (cid = Events.content_id e ∧ et = Events.event_type e))
    as [[-> ->]|Hne].
  - rewrite decide_True by done. simpl. lia.
  - rewrite decide_False by (intros [? ?]; by apply Hne). lia.
Qed.

(** A group has a row exactly when one of the events falls in it. *)
Lemma history_is_Some (l : list Events.row)
    (h : gmap string (gmap string nat)) (cid et : string) :
  is_Some ((foldl record_interaction h l !! cid) ≫= (.!! et))
  ↔ is_Some ((h !! cid) ≫= (.!! et))
    ∨ ∃ e, e ∈ l ∧ Events.content_id e = cid ∧ Events.event_type e = et.
Proof.
  revert h. induction l as [|e l IH]; intros h; simpl.
  - split; [by left|]. intros [?|(e & He & _)]; [done|]. by inversion He.
  - rewrite IH, record_interaction_lookup.
    destruct (decide (cid = Events.content_id e ∧ et = Events.event_type e))
      as [[-> ->]|Hne].
    + split; [|by left]. intros _. right. exists e. split; [left|done].
    + split.
      * intros [?|(e' & He' & ?)]; [by left|].
        right. exists e'. split; [by right|done].
      * intros [?|(e' & He' & Hc & Ht)]; [by left|].
        apply elem_of_cons in He' as [->|He']; [by destruct Hne|].
        right. by exists e'.
Qed.

Lemma already_completed_spec (db : Store) (uid cid : string) :
  already_completed (user_history db uid) cid = true ↔ has_completed db uid cid.
Proof.
  unfold already_completed, has_completed, user_history.
  pose proof (history_is_Some
                (filter (λ e, Events.user_id e = uid) (events db))
                ∅ cid "complete") as H.
  rewrite lookup_empty in H. simpl in H.
  destruct (foldl record_interaction ∅ _ !! cid) as [by_type|] eqn:E;
    simpl in H.
  - rewrite bool_decide_eq_true, H. split.
    + intros [[? [=]]|(e & He & ? & ?)].
      apply list_elem_of_filter in He as [? ?]. by exists e.
    + intros (e & He & ? & ? & ?). right. exists e.
      split; [by apply list_elem_of_filter|done].
  - split; [done|]. intros (e & He & ? & ? & ?).
    destruct H as [_ H]. destruct H as [? [=]].
    right. exists e. split; [by apply list_elem_of_filter|done].
Qed.

(** ** The scoring loop and the log loop *)

Lemma score_all_spec (db : Store) (uid : string) (ui : list string)
    (us : string) (h : gmap string (gmap string nat)) (strategy : Strategy)
    (now : Z) (g : Py.Rng) (cs : list Content.row) :
  Forall2 (λ c r, ∃ g', Py.draws g' = Py.draws g
                        ∧ r = (score_content db uid ui us strategy now g' c).1)
          (filter (λ c, already_completed h (Content.content_id c) = false) cs)
          (score_all db uid ui us h strategy now g cs).1
  ∧ Py.draws (score_all db uid ui us h strategy now g cs).2 = Py.draws g.
Proof.
  revert g. induction cs as [|c cs IH]; intros g.
  - split; [constructor|done].
  - cbn [score_all]. rewrite filter_cons.
    destruct (already_completed h (Content.content_id c)) eqn:E.
    + rewrite decide_False by done. apply IH.
    + rewrite decide_True by done.
      pose proof (score_content_draws db uid ui us strategy now g c) as Hg1.
      destruct (score_content db uid ui us strategy now g c) as [rec g1] eqn:E1.
      destruct (IH g1) as [IH1 IH2].
      destruct (score_all db uid ui us h strategy now g1 cs) as [recs g2].
      cbn [fst snd] in *.
      split; [|congruence].
      constructor.
      * exists g. split; [done|]. by rewrite E1.
      * eapply Forall2_impl; [exact IH1|].
        intros c' r' (g' & Hg' & ->). exists g'. split; [congruence|done].
Qed.

Lemma log_recommendations_spec (logs : list RecommendationLogs.row)
    (uid : string) (now : Z) (g : Py.Rng) (recs : list Recommendation.t)
    (logs' : list RecommendationLogs.row) (g' : Py.Rng) :
  log_recommendations logs uid now g recs = (Some logs', g') →
  ∃ new, logs' = logs ++ new ∧ logged_as uid now recs new.
Proof.
  revert logs g. induction recs as [|r recs IH]; intros logs g;
    cbn [log_recommendations].
  - intros [= <- <-]. exists []. split; [by rewrite app_nil_r|constructor].
  - destruct (Py.random_id g) as [log_id g1].
    destruct (decide _) as [|Hfresh]; [done|].
    intros H. apply IH in H as (new & -> & Hnew).
    exists (log_row log_id uid now r :: new). split.
    + by rewrite <- (assoc_L (++)).
    + constructor; [by exists log_id|done].
Qed.

(** ** The ranking *)

Lemma StronglySorted_weaken {A : Type} (R1 R2 : A → A → Prop) (l : list A) :
  (∀ a b, R1 a b → R2 a b) → StronglySorted R1 l → StronglySorted R2 l.
Proof.
  intros HR. induction 1 as [|x l Hl IH Hx]; constructor; [done|].
  eapply Forall_impl; [exact Hx|]. intros y; apply HR.
Qed.


Lemma sort_by_score_perm (recs : list Recommendation.t) :
  sort_by_score recs ≡ₚ recs.
Proof. apply sort_reverse_perm. Qed.

Lemma sort_by_score_sorted (recs : list Recommendation.t) :
  StronglySorted (λ a b, Recommendation.score b <= Recommendation.score a)
                 (sort_by_score recs).
Proof.
  pose proof (sort_reverse_sorted
    (λ a b, Py.Qltb (Recommendation.score a) (Recommendation.score b))) as H.
  eapply StronglySorted_weaken; [|apply H].
  - intros a b Hab. by apply Qltb_ge.
  - intros x y Hxy. apply Qltb_lt in Hxy. apply Qltb_ge. lra.
  - intros x y z Hxy Hyz. apply Qltb_ge in Hxy, Hyz. apply Qltb_ge. lra.
Qed.

(** Recommendations with one and the same score keep the order in which the
    loop produced them. *)
Lemma sort_by_score_stable (q : Q) (recs : list Recommendation.t) :
  filter (λ r, Recommendation.score r == q) (sort_by_score recs)
  = filter (λ r, Recommendation.score r == q) recs.
Proof.
  apply (sort_reverse_filter _ (λ r, Recommendation.score r == q)).
  intros x y Hx Hy. apply Qltb_ge. rewrite Hx, Hy. lra.
Qed.

(** A descending list is fixed by the order inside its classes of equal
    score: the stable descending sort of a list is the only descending list
    that agrees with it class by class. *)
Lemma descending_unique (l1 l2 : list Recommendation.t) :
  StronglySorted (λ a b, Recommendation.score b <= Recommendation.score a) l1 →
  StronglySorted (λ a b, Recommendation.score b <= Recommendation.score a) l2 →
  (∀ q, filter (λ r, Recommendation.score r == q) l1
        = filter (λ r, Recommendation.score r == q) l2) →
  l1 = l2.
Proof.
  intros Hl1. revert l2.
  induction Hl1 as [|x l1 Hl1 IH Hx]; intros l2 Hl2 Hcls.
  - destruct l2 as [|y l2]; [done|].
    specialize (Hcls (Recommendation.score y)).
    rewrite filter_nil, filter_cons, decide_True in Hcls by reflexivity.
    discriminate Hcls.
  - destruct l2 as [|y l2].
    { specialize (Hcls (Recommendation.score x)).
      rewrite filter_nil, filter_cons, decide_True in Hcls by reflexivity.
      discriminate Hcls. }
    apply StronglySorted_inv in Hl2 as [Hl2 Hy].
    assert (Recommendation.score x == Recommendation.score y) as Hxy.
    { assert (x ∈ y :: l2) as Hin.
      { pose proof (Hcls (Recommendation.score x)) as H.
        rewrite filter_cons, decide_True in H by reflexivity.
        assert (x ∈ filter (λ r, Recommendation.score r
                                  == Recommendation.score x) (y :: l2)) as Hf
          by (rewrite <- H; left).
        by apply list_elem_of_filter in Hf as [_ ?]. }
      assert (y ∈ x :: l1) as Hin'.
      { pose proof (Hcls (Recommendation.score y)) as H.
        rewrite (filter_cons _ y), decide_True in H by reflexivity.
        assert (y ∈ filter (λ r, Recommendation.score r
                                  == Recommendation.score y) (x :: l1)) as Hf
          by (rewrite H; left).
        by apply list_elem_of_filter in Hf as [_ ?]. }
      apply elem_of_cons in Hin as [->|Hin]; [reflexivity|].
      apply elem_of_cons in Hin' as [->|Hin']; [reflexivity|].
      pose proof (proj1 (Forall_forall _ _) Hx y Hin').
      pose proof (proj1 (Forall_forall _ _) Hy x Hin). simpl in *. lra. }
    assert (x = y ∧ ∀ q, filter (λ r, Recommendation.score r == q) l1
                         = filter (λ r, Recommendation.score r == q) l2)
      as [-> Htl].
    { split.
      - specialize (Hcls (Recommendation.score x)).
        rewrite !filter_cons, decide_True in Hcls by reflexivity.
        rewrite decide_True in Hcls by (by symmetry).
        by injection Hcls.
      - intros q. specialize (Hcls q). rewrite !filter_cons in Hcls.
        destruct (decide (Recommendation.score x == q)) as [Hq|Hq].
        + rewrite decide_True in Hcls by (by rewrite <- Hxy).
          by injection Hcls.
        + rewrite decide_False in Hcls by (by rewrite <- Hxy). done. }
    f_equal. by apply IH.
Qed.

Lemma sort_by_score_unique (recs ranked : list Recommendation.t) :
  StronglySorted (λ a b, Recommendation.score b <= Recommendation.score a)
                 ranked →
  (∀ q, filter (λ r, Recommendation.score r == q) ranked
        = filter (λ r, Recommendation.score r == q) recs) →
  ranked = sort_by_score recs.
Proof.
  intros Hsorted Hcls. apply descending_unique; [done|..].
  - apply sort_by_score_sorted.
  - intros q. by rewrite Hcls, sort_by_score_stable.
Qed.

(** ** What a served request did *)

Lemma top_recs_spec (db : Store) (g : Py.Rng) (now : Z) (user : Users.row)
    (uid : string) (k : Z) (strategy : Strategy) :
  ∃ scored,
    Forall2 (scored_from db uid user strategy now g) (eligible db uid) scored
    ∧ (top_recs db g now user uid k strategy).1
      = take (Z.to_nat k) (sort_by_score scored).
Proof.
  unfold top_recs, eligible.
  destruct (score_all_spec db uid (parse_tags (Users.interests user))
              (Users.skill_level user) (user_history db uid) strategy now g
              (content db)) as [H _].
  destruct (score_all _ _ _ _ _ _ _ _ _) as [scored g1]. by exists scored.
Qed.

Lemma get_recommendations_inr (db : Store) (g : Py.Rng) (now latency : Z)
    (uid : string) (k : Z) (strategy : Strategy)
    (resp : RecommendationResponse.t) (db' : Store) (g' : Py.Rng) :
  get_recommendations db g now latency uid k strategy = (inr resp, db', g') →
  (1 ≤ k ≤ 50)%Z
  ∧ ∃ user new,
      select_user db uid = Some user
      ∧ resp = RecommendationResponse.mk
                 uid (top_recs db g now user uid k strategy).1 "v2.0.0"
                 latency strategy
      ∧ db' = {| users := users db; content := content db;
                 events := events db;
                 recommendation_logs := recommendation_logs db ++ new |}
      ∧ logged_as uid now (RecommendationResponse.recommendations resp) new.
Proof.
  unfold get_recommendations.
  destruct ((1 <=? k)%Z && (k <=? 50)%Z) eqn:Hk; simpl; [|done].
  apply andb_true_iff in Hk as [Hk1 Hk2].
  apply Z.leb_le in Hk1, Hk2.
  destruct (select_user db uid) as [user|]; [|done].
  destruct (top_recs db g now user uid k strategy) as [recs g1] eqn:Htop.
  destruct (log_recommendations _ _ _ _ _) as [[logs|] g2] eqn:Hlog; [|done].
  intros [= <- <- <-].
  apply log_recommendations_spec in Hlog as (new & -> & Hnew).
  split; [done|]. exists user, new. by rewrite Htop.
Qed.

(** A request for an existing user with [1 <= k <= 50] ends in a response,
    unless the log refuses one of the drawn ids. *)
Lemma get_recommendations_existing (db : Store) (g : Py.Rng)
    (now latency : Z) (uid : string) (k : Z) (strategy : Strategy) :
  is_Some (select_user db uid) → (1 ≤ k ≤ 50)%Z →
  (∃ resp db' g',
     get_recommendations db g now latency uid k strategy = (inr resp, db', g'))
  ∨ (∃ g',
       get_recommendations db g now latency uid k strategy
       = (inl IntegrityError, db, g')).
Proof.
  intros [user Huser] [Hk1 Hk2]. unfold get_recommendations.
  apply Z.leb_le in Hk1, Hk2. rewrite Hk1, Hk2, Huser. simpl.
  destruct (top_recs _ _ _ _ _ _ _) as [recs g1].
  destruct (log_recommendations _ _ _ _ _) as [[logs|] g2].
  - left. by eexists _, _, _.
  - right. by eexists.
Qed.

Lemma Forall2_elem_of_r {A B : Type} (P : A → B → Prop) (l : list A)
    (k : list B) (y : B) :
  Forall2 P l k → y ∈ k → ∃ x, x ∈ l ∧ P x y.
Proof.
  induction 1 as [|x y' l k Hxy Hlk IH]; intros Hy; [by inversion Hy|].
  apply elem_of_cons in Hy as [->|Hy].
  - exists x. split; [left|done].
  - destruct (IH Hy) as (x' & ? & ?). exists x'. split; [by right|done].
Qed.

(** Every served recommendation is the scored form of a candidate. *)
Lemma served_from_candidate (db : Store) (g : Py.Rng) (now : Z)
    (user : Users.row) (uid : string) (k : Z) (strategy : Strategy)
    (r : Recommendation.t) :
  r ∈ (top_recs db g now user uid k strategy).1 →
  ∃ c, c ∈ eligible db uid ∧ scored_from db uid user strategy now g c r.
Proof.
  destruct (top_recs_spec db g now user uid k strategy)
    as (scored & Hscored & ->).
  intros Hr. apply (Forall2_elem_of_r _ _ _ _ Hscored).
  rewrite <- (sort_by_score_perm scored).
  eapply elem_of_sublist; [exact Hr|apply sublist_take].
Qed.

Lemma eligible_spec (db : Store) (uid : string) (c : Content.row) :
  c ∈ eligible db uid
  ↔ c ∈ content db ∧ ¬ has_completed db uid (Content.content_id c).
Proof.
  unfold eligible. rewrite list_elem_of_filter, <- already_completed_spec.
  rewrite not_true_iff_false. tauto.
Qed.

Lemma rng_zero_unit : unit_draws rng_zero.
Proof. intros i. simpl. lra. Qed.

Lemma rng_cycle_unit : unit_draws rng_cycle.
Proof.
  intros i. change (0 <= inject_Z (Z.of_nat (i mod 36)) / 36 < 1).
  assert (0 <= Z.of_nat (i mod 36) < 36)%Z as [H0 H1].
  { pose proof (Nat.mod_upper_bound i 36). lia. }
  rewrite Zle_Qle in H0. rewrite Zlt_Qlt in H1.
  change (inject_Z 0) with 0 in H0. change (inject_Z 36) with 36 in H1.
  split.
  - apply Qle_shift_div_l; lra.
  - apply Qlt_shift_div_r; lra.
Qed.

(** ** The score of a served recommendation *)

Lemma logged_as_scores (uid : string) (now : Z)
    (recs : list Recommendation.t) (new : list RecommendationLogs.row)
    (P : Q → Prop) :
  logged_as uid now recs new →
  Forall (λ r, P (Recommendation.score r)) recs →
  Forall (λ l, P (RecommendationLogs.score l)) new.
Proof.
  induction 1 as [|r l recs new (log_id & ->) Hrest IH]; [constructor|].
  intros Hrecs. apply Forall_cons in Hrecs as [Hr Hrecs].
  constructor; [exact Hr|by apply IH].
Qed.

(** C1. Every recommendation that a request returns, and every row that it
    writes to [recommendation_logs], carries a score in the closed interval
    [[0, 1]], provided that no content item has a negative popularity and
    that [random.random()] keeps its contract. *)
Theorem C1_score_in_unit_interval (db : Store) (g : Py.Rng) (now latency : Z)
    (uid : string) (k : Z) (strategy : Strategy)
    (resp : RecommendationResponse.t) (db' : Store) (g' : Py.Rng) :
  Forall (λ c, 0 <= Content.popularity_score c) (content db) →
  unit_draws g →
  get_recommendations db g now latency uid k strategy = (inr resp, db', g') →
  Forall (λ r, 0 <= Recommendation.score r <= 1)
         (RecommendationResponse.recommendations resp)
  ∧ ∃ new,
      recommendation_logs db' = recommendation_logs db ++ new
      ∧ logged_as uid now (RecommendationResponse.recommendations resp) new
      ∧ Forall (λ l, 0 <= RecommendationLogs.score l <= 1) new.
Proof.
  intros Hpop Hg Hrun.
  apply get_recommendations_inr in Hrun
    as (_ & user & new & _ & -> & -> & Hnew).
  simpl in *.
  assert (Forall (λ r, 0 <= Recommendation.score r <= 1)
                 (top_recs db g now user uid k strategy).1) as Hrecs.
  { apply Forall_forall. intros r Hr.
    apply served_from_candidate in Hr as (c & Hc & g1 & Hg1 & ->).
    apply score_content_range.
    - intros i. rewrite Hg1. apply Hg.
    - apply eligible_spec in Hc as [Hc _].
      by apply (proj1 (Forall_forall _ _) Hpop). }
  split; [exact Hrecs|].
  exists new. split; [done|]. split; [done|].
  by apply (logged_as_scores uid now _ _ (λ q, 0 <= q <= 1) Hnew).
Qed.

(** ** The ranked output *)

Lemma scored_from_content_id (db : Store) (uid : string) (user : Users.row)
    (strategy : Strategy) (now : Z) (g : Py.Rng) (c : Content.row)
    (r : Recommendation.t) :
  scored_from db uid user strategy now g c r →
  Recommendation.content_id r = Content.content_id c.
Proof. by intros (g' & _ & ->). Qed.


(** ** Reason tags *)

Lemma collaborative_filtering_tags (db : Store) (uid : string)
    (strategy : Strategy) (cid : string) (st : Scored) :
  (collaborative_filtering db uid strategy cid st).2
  = st.2 ++ match strategy with
            | content_based => []
            | collaborative | hybrid =>
                if any_peer_liked db cid (engine db uid)
                then ["popular_with_similar_users"] else []
            end.
Proof.
  unfold collaborative_filtering, peer_affinity.
  destruct strategy; try destruct (any_peer_liked _ _ _);
    cbn [fst snd]; by rewrite ?app_nil_r.
Qed.

Lemma raw_scoring_tags (db : Store) (uid : string) (ui : list string)
    (us : string) (strategy : Strategy) (c : Content.row) :
  (raw_scoring db uid ui us strategy c).2
  = discovered_tags db uid ui strategy c.
Proof.
  unfold raw_scoring, discovered_tags.
  rewrite collaborative_filtering_tags.
  unfold popularity_boost, difficulty_matching. cbn [fst snd].
  by rewrite content_based_scoring_tags.
Qed.

(** At most two overlap tags, each of them common to the user and the
    content and no tag twice, then at most the peer tag. *)
Lemma discovered_tags_shape (db : Store) (uid : string) (ui : list string)
    (strategy : Strategy) (c : Content.row) :
  ∃ overlap_tags peer_tags,
    discovered_tags db uid ui strategy c = overlap_tags ++ peer_tags
    ∧ length overlap_tags
      = (2 `min` tag_overlap ui (parse_tags (Content.tags c)))%nat
    ∧ NoDup overlap_tags
    ∧ (∀ t, t ∈ overlap_tags → t ∈ ui ∧ t ∈ parse_tags (Content.tags c))
    ∧ (peer_tags = [] ∨ peer_tags = ["popular_with_similar_users"])
    ∧ (peer_tags = ["popular_with_similar_users"]
       ↔ strategy ≠ content_based
         ∧ any_peer_liked db (Content.content_id c) (engine db uid)
           = true).
Proof.
  unfold discovered_tags. eexists _, _. split; [reflexivity|].
  split; [by rewrite length_take|].
  split; [|split; [|split]].
  - apply (sublist_NoDup _ (elements (common_tags
                                       ui (parse_tags (Content.tags c)))));
      [apply NoDup_elements|apply sublist_take].
  - intros t Ht.
    assert (t ∈ elements (common_tags ui (parse_tags (Content.tags c))))
      as Hin by (eapply elem_of_sublist; [exact Ht|apply sublist_take]).
    apply elem_of_elements in Hin. unfold common_tags in Hin.
    apply elem_of_intersection in Hin as [H1 H2].
    by rewrite !elem_of_list_to_set in H1, H2.
  - destruct strategy; [|by left|];
      destruct (any_peer_liked _ _ _); [by right|by left|by right|by left].
  - destruct strategy; [|split; [done|by intros [? _]]|];
      destruct (any_peer_liked _ _ _); split; try done; by intros [_ ?].
Qed.

Lemma discovered_tags_length (db : Store) (uid : string) (ui : list string)
    (strategy : Strategy) (c : Content.row) :
  (length (discovered_tags db uid ui strategy c) ≤ 3)%nat.
Proof.
  destruct (discovered_tags_shape db uid ui strategy c)
    as (ot & pt & -> & Hot & _ & _ & Hpt & _).
  rewrite length_app, Hot. destruct Hpt as [->| ->]; cbn [length]; lia.
Qed.

Lemma score_content_tags (db : Store) (uid : string) (ui : list string)
    (us : string) (strategy : Strategy) (now : Z) (g : Py.Rng)
    (c : Content.row) :
  Recommendation.reason_tags (score_content db uid ui us strategy now g c).1
  = fallback_tags (discovered_tags db uid ui strategy c).
Proof.
  unfold score_content, exploration, recency_penalty. simpl.
  rewrite raw_scoring_tags. apply take_ge.
  pose proof (discovered_tags_length db uid ui strategy c).
  destruct (discovered_tags db uid ui strategy c);
    cbn [fallback_tags length] in *; lia.
Qed.

Lemma logged_as_tags (uid : string) (now : Z)
    (recs : list Recommendation.t) (new : list RecommendationLogs.row) :
  logged_as uid now recs new →
  Forall2 (λ r l, RecommendationLogs.reason_tags l
                  = Py.join "," (Recommendation.reason_tags r)) recs new.
Proof.
  intros H. eapply Forall2_impl; [exact H|]. by intros r l (log_id & ->).
Qed.

(** C8. Every recommendation that a request returns carries between one and
    three reason tags: the tags that the signals of its content item
    produced, in the order of discovery (at most two overlap tags, then the
    peer tag), or the single tag [recommended_for_you] when the signals
    produced none; the row logged for it stores these tags joined by
    commas. *)
Theorem C8_reason_tags (db : Store) (g : Py.Rng) (now latency : Z)
    (uid : string) (k : Z) (strategy : Strategy)
    (resp : RecommendationResponse.t) (db' : Store) (g' : Py.Rng) :
  get_recommendations db g now latency uid k strategy = (inr resp, db', g') →
  ∃ user new,
    select_user db uid = Some user
    ∧ recommendation_logs db' = recommendation_logs db ++ new
    ∧ Forall2 (λ r l, RecommendationLogs.reason_tags l
                      = Py.join "," (Recommendation.reason_tags r))
              (RecommendationResponse.recommendations resp) new
    ∧ Forall
        (λ r,
           (1 ≤ length (Recommendation.reason_tags r) ≤ 3)%nat
           ∧ ∃ c, c ∈ eligible db uid
                  ∧ Recommendation.content_id r = Content.content_id c
                  ∧ let found :=
                      discovered_tags db uid
                        (parse_tags (Users.interests user)) strategy c in
                    (found = []
                     → Recommendation.reason_tags r = ["recommended_for_you"])
                    ∧ (found ≠ [] → Recommendation.reason_tags r = found))
        (RecommendationResponse.recommendations resp).
Proof.
  intros Hrun.
  apply get_recommendations_inr in Hrun
    as (_ & user & new & Huser & -> & -> & Hnew).
  simpl in *. exists user, new.
  split; [done|]. split; [done|].
  split; [by apply (logged_as_tags uid now)|].
  apply Forall_forall. intros r Hr.
  apply served_from_candidate in Hr as (c & Hc & g1 & Hg1 & ->).
  rewrite score_content_tags.
  pose proof (discovered_tags_length db uid
                (parse_tags (Users.interests user)) strategy c) as Hlen.
  split.
  - destruct (discovered_tags _ _ _ _ _); simpl in *; lia.
  - exists c. split; [done|]. split; [done|].
    destruct (discovered_tags _ _ _ _ _); simpl; by split.
Qed.

(** ** Strategies *)

Lemma min_Qeq (a a' b : Q) : a == a' → Py.min a b == Py.min a' b.
Proof.
  intros Ha. unfold Py.min.
  destruct (Py.Qltb b a) eqn:E, (Py.Qltb b a') eqn:E'; try lra.
  - apply Qltb_lt in E. apply Qltb_ge in E'. lra.
  - apply Qltb_ge in E. apply Qltb_lt in E'. lra.
Qed.

Lemma filter_none {A : Type} (P : A → Prop) `{!∀ x, Decision (P x)}
    (l : list A) :
  (∀ x, x ∈ l → ¬ P x) → filter P l = [].
Proof.
  intros Hall. apply elem_of_nil_inv. intros x Hx.
  apply list_elem_of_filter in Hx as [HP Hx]. by apply (Hall x).
Qed.

Lemma peer_join_no_events (db : Store) (uid : string) :
  has_no_events db uid → peer_join db uid = [].
Proof.
  intros Hno. unfold peer_join. by rewrite (filter_none _ _ Hno).
Qed.

Lemma similar_users_rows_no_events (db : Store) (uid : string)
    (rows : list (string * nat)) :
  has_no_events db uid → similar_users_rows db uid rows → rows = [].
Proof.
  intros Hno (ordered & Hperm & _ & ->).
  unfold common_items in Hperm. rewrite peer_join_no_events in Hperm by done.
  simpl in Hperm. rewrite map_to_list_empty in Hperm.
  apply Permutation_nil_r in Hperm as ->. apply take_nil.
Qed.

Lemma engine_no_events (db : Store) (uid : string) :
  has_no_events db uid → engine db uid = [].
Proof.
  intros Hno. by apply (similar_users_rows_no_events db uid), engine_allowed.
Qed.

Lemma score_content_no_events (db : Store) (uid : string) (ui : list string)
    (us : string) (now : Z) (g : Py.Rng) (c : Content.row) :
  has_no_events db uid →
  score_content db uid ui us hybrid now g c
  = score_content db uid ui us content_based now g c.
Proof.
  intros Hno. unfold score_content, raw_scoring, collaborative_filtering.
  by rewrite engine_no_events.
Qed.

Lemma score_all_no_events (db : Store) (uid : string) (ui : list string)
    (us : string) (h : gmap string (gmap string nat)) (now : Z) (g : Py.Rng)
    (cs : list Content.row) :
  has_no_events db uid →
  score_all db uid ui us h hybrid now g cs
  = score_all db uid ui us h content_based now g cs.
Proof.
  intros Hno. revert g. induction cs as [|c cs IH]; intros g; [done|].
  cbn [score_all]. destruct (already_completed _ _); [apply IH|].
  rewrite score_content_no_events by done.
  destruct (score_content _ _ _ _ _ _ _ _) as [rec g1]. by rewrite IH.
Qed.

Lemma top_recs_no_events (db : Store) (g : Py.Rng) (now : Z)
    (user : Users.row) (uid : string) (k : Z) :
  has_no_events db uid →
  top_recs db g now user uid k hybrid
  = top_recs db g now user uid k content_based.
Proof.
  intros Hno. unfold top_recs. by rewrite score_all_no_events.
Qed.

(** C6. For every strategy the score is the clamped sum of the decayed
    contributions and the jitter, and the peer-affinity contribution is
    present only under [collaborative] and [hybrid]. For a user without
    events the peer set is empty, and every candidate, hence every request,
    gets under [hybrid] what it gets under [content_based] from the same
    generator. *)
Theorem C6_strategy_gating (db : Store) (uid : string) :
  (∀ ui us strategy now g c,
     Recommendation.score (score_content db uid ui us strategy now g c).1
     == Py.min
          ((inject_Z (Z.of_nat (tag_overlap ui (parse_tags (Content.tags c))))
            * 0.3
            + difficulty_factor us (Content.difficulty c) * 0.2
            + Content.popularity_score c * 0.15
            + match strategy with
              | content_based => 0
              | collaborative | hybrid =>
                  if any_peer_liked db (Content.content_id c)
                                    (engine db uid)
                  then 0.2 else 0
              end)
           * recency_factor (days_old now (Content.created_at c))
           + (0 + (0.1 - 0) * Py.draws g (Py.pos g)))
          1.0)
  ∧ (has_no_events db uid →
     engine db uid = []
     ∧ (∀ rows, similar_users_rows db uid rows → rows = [])
     ∧ (∀ ui us now g c,
          score_content db uid ui us hybrid now g c
          = score_content db uid ui us content_based now g c)
     ∧ (∀ g now latency k resp db' g',
          get_recommendations db g now latency uid k content_based
          = (inr resp, db', g') →
          get_recommendations db g now latency uid k hybrid
          = (inr (with_strategy hybrid resp), db', g'))).
Proof.
  split.
  - intros ui us strategy now g c. rewrite score_content_score.
    apply min_Qeq. rewrite raw_scoring_sum. unfold peer_bonus.
    reflexivity.
  - intros Hno. split; [by apply engine_no_events|].
    split; [intros rows; by apply similar_users_rows_no_events|].
    split; [intros; by apply score_content_no_events|].
    intros g now latency k resp db' g'. unfold get_recommendations.
    destruct (negb _); [done|].
    destruct (select_user db uid) as [user|]; [|done].
    rewrite top_recs_no_events by done.
    destruct (top_recs _ _ _ _ _ _ _) as [recs g1].
    destruct (log_recommendations _ _ _ _ _) as [[logs|] g2]; [|done].
    by intros [= <- <- <-].
Qed.

(** ** Recency decay *)

Lemma max_Qmax (a b : Q) : Py.max a b == Qmax a b.
Proof.
  unfold Py.max. destruct (Py.Qltb a b) eqn:E.
  - apply Qltb_lt in E. symmetry. apply Q.max_r. lra.
  - apply Qltb_ge in E. symmetry. by apply Q.max_l.
Qed.

(** C4. The running total before the decay is the sum of the four
    contributions; the decay multiplies it by
    [max(0.5, 1.0 - days_old / 365)], which is at least one half whatever the
    age; the jitter is added to the decayed total, and the clamp comes last.
    The decayed total therefore keeps at least half of the magnitude of the
    total before the decay, and with a non-negative popularity it is at least
    half of that total. *)
Theorem C4_recency_decay (db : Store) (uid : string) (ui : list string)
    (us : string) (strategy : Strategy) (now : Z) (g : Py.Rng)
    (c : Content.row) :
  let raw := raw_scoring db uid ui us strategy c in
  let d := days_old now (Content.created_at c) in
  let pre_jitter := (recency_penalty now (Content.created_at c) raw).1 in
  raw.1 == inject_Z (Z.of_nat (tag_overlap ui (parse_tags (Content.tags c))))
           * 0.3
           + difficulty_factor us (Content.difficulty c) * 0.2
           + Content.popularity_score c * 0.15
           + peer_bonus db uid strategy (Content.content_id c)
  ∧ recency_factor d == Qmax 0.5 (1.0 - inject_Z d / 365)
  ∧ 0.5 <= recency_factor d
  ∧ pre_jitter == raw.1 * recency_factor d
  ∧ Recommendation.score (score_content db uid ui us strategy now g c).1
    == Py.min (pre_jitter + (Py.uniform 0 0.1 g).1) 1.0
  ∧ Qabs raw.1 * 0.5 <= Qabs pre_jitter
  ∧ (0 <= Content.popularity_score c → raw.1 * 0.5 <= pre_jitter).
Proof.
  intros raw d pre_jitter.
  pose proof (recency_factor_floor d) as Hfloor.
  split; [apply raw_scoring_sum|].
  split; [apply max_Qmax|].
  split; [exact Hfloor|].
  split; [reflexivity|].
  split; [reflexivity|].
  subst pre_jitter. unfold recency_penalty. cbn [fst]. fold d. split.
  - rewrite Qabs_Qmult, (Qabs_pos (recency_factor d)) by lra.
    pose proof (Qabs_nonneg raw.1). nra.
  - intros Hp.
    pose proof (raw_scoring_nonneg db uid ui us strategy c Hp) as Hraw.
    fold raw in Hraw. nra.
Qed.

(** ** The scenario of the specification *)

(** C2, as amended. With interests [{python, cloud}], tags [{python, ai}],
    skill level novice, difficulty beginner, popularity 0.4, an item created
    on the day of the request and strategy [content_based], the total before
    the jitter is 0.3 + 0.2 + 0.06 = 0.56 and the final score lies in
    [[0.56, 0.66]]. *)
Theorem C2_scenario_score (db : Store) (uid : string) (ui : list string)
    (us : string) (now : Z) (g : Py.Rng) (c : Content.row) :
  unit_draws g →
  list_to_set ui = ({[ "python"; "cloud" ]} : gset string) →
  list_to_set (parse_tags (Content.tags c))
  = ({[ "python"; "ai" ]} : gset string) →
  us = "novice" →
  Content.difficulty c = "beginner" →
  Content.popularity_score c == 0.4 →
  days_old now (Content.created_at c) = 0%Z →
  (recency_penalty now (Content.created_at c)
     (raw_scoring db uid ui us content_based c)).1 == 0.56
  ∧ 0.56 <= Recommendation.score
              (score_content db uid ui us content_based now g c).1
  ∧ Recommendation.score (score_content db uid ui us content_based now g c).1
    <= 0.66.
Proof.
  intros Hg Hui Hct -> Hdiff Hpop Hdays.
  assert ((recency_penalty now (Content.created_at c)
             (raw_scoring db uid ui "novice" content_based c)).1 == 0.56)
    as Hpre.
  { unfold recency_penalty. cbn [fst]. rewrite raw_scoring_sum, Hdays.
    unfold tag_overlap, common_tags. rewrite Hui, Hct, Hdiff, Hpop.
    vm_compute. reflexivity. }
  split; [exact Hpre|].
  rewrite score_content_score.
  unfold recency_penalty in Hpre. cbn [fst] in Hpre.
  destruct (uniform_range 0 0.1 g Hg) as [Hj0 Hj1]; [lra|].
  split.
  - apply min_lower; lra.
  - eapply Qle_trans; [apply min_upper_l|]. lra.
Qed.

(** ** Splitting and joining tag columns *)

Lemma split_no_sep (sep : ascii) (s : string) :
  no_sep sep s → Py.split sep s = [s].
Proof.
  induction s as [|c s IH]; [done|]. intros [Hc Hs]. simpl.
  apply Ascii.eqb_neq in Hc. rewrite Hc. by rewrite IH.
Qed.

Lemma split_app_sep (sep : ascii) (x s : string) :
  no_sep sep x →
  Py.split sep (x +:+ String sep s) = x :: Py.split sep s.
Proof.
  induction x as [|c x IH]; simpl.
  - intros _. by rewrite Ascii.eqb_refl.
  - intros [Hc Hx]. apply Ascii.eqb_neq in Hc. rewrite Hc. by rewrite IH.
Qed.

Lemma split_join (sep : ascii) (l : list string) :
  l ≠ [] → Forall (no_sep sep) l →
  Py.split sep (Py.join (String sep EmptyString) l) = l.
Proof.
  induction l as [|x l IH]; [done|]. intros _ Hl.
  apply Forall_cons in Hl as [Hx Hl]. destruct l as [|y l].
  - by apply split_no_sep.
  - change (Py.join (String sep EmptyString) (x :: y :: l))
      with (x +:+ String sep (Py.join (String sep EmptyString) (y :: l))).
    rewrite split_app_sep by done. by rewrite IH.
Qed.

Lemma parse_tags_join (l : list string) :
  Forall (no_sep ",") l → Forall (λ s, s ≠ EmptyString) l →
  parse_tags (Py.join "," l) = l.
Proof.
  intros Hsep Hne. unfold parse_tags. destruct l as [|x l]; [done|].
  apply Forall_cons in Hne as [Hx _].
  rewrite decide_False; [by apply split_join|].
  destruct x as [|c x]; [done|]. by destruct l.
Qed.

Lemma tag_of_length (i : nat) : String.length (tag_of i) = S i.
Proof. induction i as [|i IH]; simpl; by rewrite ?IH. Qed.

Lemma tag_of_inj : Inj (=) (=) tag_of.
Proof.
  intros i j Hij. apply (f_equal String.length) in Hij.
  rewrite !tag_of_length in Hij. lia.
Qed.

Lemma tag_of_no_sep (i : nat) : no_sep "," (tag_of i).
Proof. induction i as [|i IH]; simpl; by repeat split. Qed.

Lemma parse_numbered_tags (n : nat) :
  parse_tags (Py.join "," (numbered_tags n)) = numbered_tags n.
Proof.
  apply parse_tags_join; unfold numbered_tags; apply Forall_fmap, Forall_forall;
    intros i _; simpl; [apply tag_of_no_sep|by destruct i].
Qed.

(** Every number is the overlap count of some user and content item. *)
Lemma overlap_count_any (n : nat) :
  overlap_count (user_with_tags n) (content_with_tags n) = n.
Proof.
  unfold overlap_count, user_with_tags, content_with_tags. simpl.
  rewrite parse_numbered_tags. unfold tag_overlap, common_tags.
  rewrite (idemp_L (∩)), size_list_to_set.
  - unfold numbered_tags. by rewrite length_fmap, length_seq.
  - apply (@NoDup_fmap_2 _ _ tag_of tag_of_inj), NoDup_seq.
Qed.

Lemma tag_contribution_overlap (u : Users.row) (c : Content.row) :
  tag_contribution u c == inject_Z (Z.of_nat (overlap_count u c)) * 0.3.
Proof.
  unfold tag_contribution, overlap_count.
  rewrite content_based_scoring_score. simpl. lra.
Qed.

Lemma size_list_to_set_le (l : list string) :
  (size (list_to_set l : gset string) ≤ length l)%nat.
Proof.
  unfold size, set_size. simpl. apply submseteq_length, NoDup_submseteq.
  - apply NoDup_elements.
  - intros x Hx. apply elem_of_elements in Hx.
    by apply elem_of_list_to_set in Hx.
Qed.

Lemma tag_overlap_le (ui ct : list string) :
  (tag_overlap ui ct ≤ length ui `min` length ct)%nat.
Proof.
  unfold tag_overlap, common_tags.
  pose proof (size_list_to_set_le ui). pose proof (size_list_to_set_le ct).
  assert (size (list_to_set ui ∩ list_to_set ct : gset string)
          ≤ size (list_to_set ui : gset string))%nat
    by apply subseteq_size, intersection_subseteq_l.
  assert (size (list_to_set ui ∩ list_to_set ct : gset string)
          ≤ size (list_to_set ct : gset string))%nat
    by apply subseteq_size, intersection_subseteq_r.
  lia.
Qed.

(** No bound holds for the tag-overlap contribution of every user and
    content item. *)
Lemma tag_contribution_unbounded (B : Q) :
  ∃ u c, B < tag_contribution u c.
Proof.
  set (n := (Z.to_nat (Qfloor (B * 4)) + 1)%nat).
  exists (user_with_tags n), (content_with_tags n).
  rewrite tag_contribution_overlap, overlap_count_any.
  pose proof (Qlt_floor (B * 4)) as Hfl.
  assert (inject_Z (Qfloor (B * 4) + 1) <= inject_Z (Z.of_nat n)) as Hn.
  { rewrite <- Zle_Qle. lia. }
  assert (1 <= inject_Z (Z.of_nat n)) as H1.
  { change 1 with (inject_Z 1). rewrite <- Zle_Qle. lia. }
  lra.
Qed.

(** C3, as amended. The tag-overlap contribution is the overlap count times
    0.3, where the overlap count is the number of tags common to the user's
    interests and the content's tags. There is no cap: the count is bounded
    by the two tag counts only, every number is the overlap count of some
    user and content item, and the contribution exceeds every bound for some
    user and content item. *)
Theorem C3_tag_overlap_contribution :
  (∀ u c,
     tag_contribution u c == inject_Z (Z.of_nat (overlap_count u c)) * 0.3
     ∧ overlap_count u c
       = size (list_to_set (parse_tags (Users.interests u))
               ∩ list_to_set (parse_tags (Content.tags c)) : gset string)
     ∧ (overlap_count u c
        ≤ length (parse_tags (Users.interests u))
          `min` length (parse_tags (Content.tags c)))%nat
     ∧ ∀ db uid strategy,
         (raw_scoring db uid (parse_tags (Users.interests u))
                      (Users.skill_level u) strategy c).1
         == tag_contribution u c
            + difficulty_factor (Users.skill_level u) (Content.difficulty c)
              * 0.2
            + Content.popularity_score c * 0.15
            + peer_bonus db uid strategy (Content.content_id c))
  ∧ (∀ n, ∃ u c, overlap_count u c = n)
  ∧ (∀ B, ∃ u c, B < tag_contribution u c).
Proof.
  split; [|split].
  - intros u c. split; [apply tag_contribution_overlap|].
    split; [reflexivity|]. split; [apply tag_overlap_le|].
    intros db uid strategy.
    rewrite raw_scoring_sum, tag_contribution_overlap. reflexivity.
  - intros n. exists (user_with_tags n), (content_with_tags n).
    apply overlap_count_any.
  - apply tag_contribution_unbounded.
Qed.

(** C3, as stated, fails: no cap [N] makes the contribution equal to
    [min(overlap_count, N) * 0.3] for every user and content item, and no
    bound holds for the contribution of every user and content item. *)
Lemma C3_counterexample :
  ¬ (∃ N : nat, ∀ u c,
       tag_contribution u c
       == inject_Z (Z.of_nat (overlap_count u c `min` N)) * 0.3)
  ∧ ¬ (∃ B : Q, ∀ u c, tag_contribution u c <= B).
Proof.
  split.
  - intros [N H].
    specialize (H (user_with_tags (S N)) (content_with_tags (S N))).
    rewrite tag_contribution_overlap, overlap_count_any in H.
    rewrite Nat.min_r in H by lia.
    rewrite Nat2Z.inj_succ, <- Z.add_1_r, inject_Z_plus in H.
    change (inject_Z 1) with 1 in H. lra.
  - intros [B H].
    destruct (tag_contribution_unbounded B) as (u & c & Hlt).
    specialize (H u c). lra.
Qed.

(** ** Event ingestion *)

Lemma head_filter_None {A : Type} (P : A → Prop) `{!∀ x, Decision (P x)}
    (l : list A) :
  head (filter P l) = None ↔ ∀ x, x ∈ l → ¬ P x.
Proof.
  rewrite head_None. split.
  - intros Hnil x Hx HP.
    assert (x ∈ filter P l) as Hin by (by apply list_elem_of_filter).
    rewrite Hnil in Hin. by apply elem_of_nil in Hin.
  - apply filter_none; apply _.
Qed.

Lemma select_user_None (db : Store) (uid : string) :
  select_user db uid = None ↔ uid ∉ Users.user_id <$> users db.
Proof.
  unfold select_user. rewrite head_filter_None, list_elem_of_fmap. split.
  - intros H (u & -> & Hu). by apply (H u).
  - intros H u Hu Heq. apply H. by exists u.
Qed.

Lemma select_content_None (db : Store) (cid : string) :
  select_content db cid = None ↔ cid ∉ Content.content_id <$> content db.
Proof.
  unfold select_content. rewrite head_filter_None, list_elem_of_fmap. split.
  - intros H (c & -> & Hc). by apply (H c).
  - intros H c Hc Heq. apply H. by exists c.
Qed.

(** The outcomes of [log_event], case by case. *)
Lemma log_event_cases (db : Store) (g : Py.Rng) (now : Z)
    (event : EventCreate.t) :
  let event_id := (Py.random_id g).1 in
  let events' := events db ++ [event_row event_id now event] in
  (select_user db (EventCreate.user_id event) = None
   ∧ (log_event db g now event).1
     = (inl (NotFound "User not found"), db))
  ∨ (is_Some (select_user db (EventCreate.user_id event))
     ∧ select_content db (EventCreate.content_id event) = None
     ∧ (log_event db g now event).1
       = (inl (NotFound "Content not found"), db))
  ∨ (is_Some (select_user db (EventCreate.user_id event))
     ∧ is_Some (select_content db (EventCreate.content_id event))
     ∧ event_id ∈ Events.event_id <$> events db
     ∧ (log_event db g now event).1 = (inl IntegrityError, db))
  ∨ (is_Some (select_user db (EventCreate.user_id event))
     ∧ is_Some (select_content db (EventCreate.content_id event))
     ∧ (event_id ∉ Events.event_id <$> events db)
     ∧ (log_event db g now event).1
       = (inr (EventResponse.mk event_id "success" now),
          {| users := update_last_active now (EventCreate.user_id event)
                                         (users db);
             content := update_popularity events'
                                          (EventCreate.content_id event)
                                          (content db);
             events := events';
             recommendation_logs := recommendation_logs db |})).
Proof.
  intros event_id events'. subst event_id events'. unfold log_event.
  destruct (Py.random_id g) as [event_id g1]. cbn [fst].
  destruct (select_user db _) as [u|]; [|by left].
  right. destruct (select_content db _) as [c|]; [|by left].
  right. destruct (decide _) as [Hin|Hfresh]; [by left|by right].
Qed.

(** C7. Event ingestion answers NotFound exactly when the user id or the
    content id of the event is absent from the store; a failed ingestion
    leaves the store as it was (no event row, no [last_active], no
    popularity); a successful one appends exactly one row to [events], the
    row of the event, and leaves the recommendation log alone. *)
Theorem C7_event_ingestion (db : Store) (g : Py.Rng) (now : Z)
    (event : EventCreate.t) :
  let res := (log_event db g now event).1.1 in
  let db' := (log_event db g now event).1.2 in
  ((∃ detail, res = inl (NotFound detail))
   ↔ (EventCreate.user_id event ∉ Users.user_id <$> users db)
     ∨ (EventCreate.content_id event ∉ Content.content_id <$> content db))
  ∧ (∀ failure, res = inl failure → db' = db)
  ∧ (∀ resp, res = inr resp →
       events db'
       = events db ++ [event_row (EventResponse.event_id resp) now event]
       ∧ length (events db') = S (length (events db))
       ∧ recommendation_logs db' = recommendation_logs db).
Proof.
  intros res db'. subst res db'.
  rewrite <- select_user_None, <- select_content_None.
  destruct (log_event_cases db g now event)
    as [[Hu ->]|[(Hu & Hc & ->)|[(Hu & Hc & Hid & ->)|(Hu & Hc & Hid & ->)]]];
    cbn [fst snd].
  - split; [|by split]. split; [by left|]. intros _. by eexists.
  - split; [|by split]. split; [by right|]. intros _. by eexists.
  - split; [|by split]. split; [by intros [? ?]|].
    intros [H|H]; rewrite H in *; by destruct Hu || by destruct Hc.
  - split; [|split; [done|]].
    + split; [by intros [? ?]|].
      intros [H|H]; rewrite H in *; by destruct Hu || by destruct Hc.
    + intros resp [= <-]. cbn [events EventResponse.event_id].
      split; [done|]. split; [|done].
      rewrite length_app. simpl. lia.
Qed.

(** An event on a content id that the catalog does not hold: NotFound, and
    the store is what it was. *)
Lemma C7_witness :
  (∃ detail,
     (log_event db_sample rng_zero 0
                (EventCreate.mk "U" "missing" "view" None None)).1.1
     = inl (NotFound detail))
  ∧ (log_event db_sample rng_zero 0
               (EventCreate.mk "U" "missing" "view" None None)).1.2
    = db_sample.
Proof.
  destruct (C7_event_ingestion db_sample rng_zero 0
              (EventCreate.mk "U" "missing" "view" None None))
    as (Hnf & Hfail & _).
  assert (∃ detail,
            (log_event db_sample rng_zero 0
                       (EventCreate.mk "U" "missing" "view" None None)).1.1
            = inl (NotFound detail)) as Hex.
  { apply Hnf. right. by apply select_content_None. }
  split; [exact Hex|]. destruct Hex as [detail Hd]. exact (Hfail _ Hd).
Defined.

(** ** Popularity *)

Lemma head_filter_fmap {A : Type} (P : A → Prop) `{!∀ x, Decision (P x)}
    (f : A → A) (l : list A) :
  (∀ x, P (f x) ↔ P x) →
  head (filter P (f <$> l)) = f <$> head (filter P l).
Proof.
  intros Hf. induction l as [|x l IH]; [done|].
  rewrite fmap_cons, !filter_cons.
  destruct (decide (P x)) as [Hx|Hx].
  - by rewrite decide_True by by apply Hf.
  - rewrite decide_False; [done|]. by rewrite Hf.
Qed.

Lemma event_count_app (evs : list Events.row) (e : Events.row)
    (cid : string) :
  event_count (evs ++ [e]) cid
  = (event_count evs cid
     + if decide (Events.content_id e = cid) then 1 else 0)%nat.
Proof.
  unfold event_count. rewrite filter_app, length_app, filter_cons, filter_nil.
  by destruct (decide _).
Qed.

(** What one successful ingestion does to the events and the popularity. *)
Lemma ingest_step_effect (db db' : Store) :
  ingest_step db db' →
  ∃ e, events db' = events db ++ [e]
       ∧ is_Some (select_content db (Events.content_id e))
       ∧ ∀ cid, popularity_of db' cid
                = if decide (cid = Events.content_id e)
                  then Some (popularity_from_events db' cid)
                  else popularity_of db cid.
Proof.
  intros (g & now & event & resp & g' & Hrun).
  destruct (log_event_cases db g now event)
    as [[_ H]|[(_ & _ & H)|[(_ & _ & _ & H)|(_ & Hc & _ & H)]]];
    rewrite Hrun in H; cbn [fst] in H; try discriminate H.
  injection H as -> ->.
  exists (event_row (Py.random_id g).1 now event).
  split; [done|]. split; [exact Hc|].
  intros cid. unfold popularity_of, select_content. cbn [content].
  unfold update_popularity.
  rewrite head_filter_fmap by (intros c; by destruct (decide _)).
  cbn [event_row Events.content_id].
  destruct (decide (cid = EventCreate.content_id event)) as [->|Hne].
  - destruct Hc as [c Hsel]. unfold select_content in Hsel. rewrite Hsel.
    apply head_Some_elem_of, list_elem_of_filter in Hsel as [Hid _].
    simpl. by rewrite decide_True.
  - destruct (head _) as [c|] eqn:Hsel; [|done].
    apply head_Some_elem_of, list_elem_of_filter in Hsel as [Hid _].
    simpl. rewrite decide_False by congruence. done.
Qed.

Lemma ingest_step_count (db db' : Store) (cid : string) :
  ingest_step db db' →
  (event_count (events db) cid ≤ event_count (events db') cid)%nat.
Proof.
  intros (e & -> & _)%ingest_step_effect. rewrite event_count_app. lia.
Qed.

Lemma ingest_step_in_sync (db db' : Store) (cid : string) :
  ingest_step db db' → in_sync db cid → in_sync db' cid.
Proof.
  intros Hstep Hsync. unfold in_sync.
  destruct (ingest_step_effect _ _ Hstep) as (e & He & _ & Hpop).
  rewrite Hpop. destruct (decide _) as [|Hne]; [done|].
  rewrite Hsync. unfold popularity_from_events.
  rewrite He, event_count_app, decide_False by done.
  by rewrite Nat.add_0_r.
Qed.

Lemma ingested_count (db db' : Store) (cid : string) :
  rtc ingest_step db db' →
  (event_count (events db) cid ≤ event_count (events db') cid)%nat.
Proof.
  induction 1 as [|db1 db2 db3 Hstep _ IH]; [done|].
  pose proof (ingest_step_count _ _ cid Hstep). lia.
Qed.

Lemma ingested_in_sync (db db' : Store) (cid : string) :
  rtc ingest_step db db' → in_sync db cid → in_sync db' cid.
Proof.
  induction 1 as [|db1 db2 db3 Hstep _ IH]; [done|].
  intros Hsync. by apply IH, (ingest_step_in_sync db1).
Qed.

Lemma popularity_from_events_mono (db db' : Store) (cid : string) :
  (event_count (events db) cid ≤ event_count (events db') cid)%nat →
  popularity_from_events db cid <= popularity_from_events db' cid.
Proof.
  intros Hle. unfold popularity_from_events.
  assert (inject_Z (Z.of_nat (event_count (events db) cid))
          <= inject_Z (Z.of_nat (event_count (events db') cid))) as H.
  { rewrite <- Zle_Qle. lia. }
  lra.
Qed.

(** C10. After a successful ingestion for content [c] the stored popularity
    of [c] is 0.01 times the number of event rows that reference [c]; that
    number has grown by one; from then on, through any further successful
    ingestions, the popularity stays the recomputed one and does not
    decrease; and it is not bounded by 1: with more than 100 events on [c]
    it exceeds 1 and the popularity contribution exceeds 0.15. *)
Theorem C10_popularity (db : Store) (g : Py.Rng) (now : Z)
    (event : EventCreate.t) (resp : EventResponse.t) (db1 : Store)
    (g1 : Py.Rng) :
  log_event db g now event = (inr resp, db1, g1) →
  let c := EventCreate.content_id event in
  popularity_of db1 c
  = Some (inject_Z (Z.of_nat (event_count (events db1) c)) * 0.01)
  ∧ event_count (events db1) c = S (event_count (events db) c)
  ∧ (∀ db2, rtc ingest_step db1 db2 →
       (event_count (events db1) c ≤ event_count (events db2) c)%nat
       ∧ popularity_of db2 c
         = Some (inject_Z (Z.of_nat (event_count (events db2) c)) * 0.01)
       ∧ inject_Z (Z.of_nat (event_count (events db1) c)) * 0.01
         <= inject_Z (Z.of_nat (event_count (events db2) c)) * 0.01)
  ∧ ((100 < event_count (events db1) c)%nat →
     1 < inject_Z (Z.of_nat (event_count (events db1) c)) * 0.01
     ∧ 0.15 < inject_Z (Z.of_nat (event_count (events db1) c)) * 0.01 * 0.15).
Proof.
  intros Hrun c.
  assert (ingest_step db db1) as Hstep by by exists g, now, event, resp, g1.
  assert (in_sync db1 c ∧ event_count (events db1) c
                          = S (event_count (events db) c)) as [Hsync Hcount].
  { destruct (log_event_cases db g now event)
      as [[_ H]|[(_ & _ & H)|[(_ & _ & _ & H)|(_ & _ & _ & H)]]];
      rewrite Hrun in H; cbn [fst] in H; try discriminate H.
    destruct (ingest_step_effect _ _ Hstep) as (e & He & _ & Hpop).
    injection H as _ Hdb1. rewrite Hdb1 in He. cbn [events] in He.
    apply app_inj_tail in He as [_ <-].
    split.
    - unfold in_sync. rewrite Hpop. by rewrite decide_True.
    - rewrite Hdb1. cbn [events]. rewrite event_count_app.
      rewrite decide_True by done. lia. }
  split; [exact Hsync|]. split; [exact Hcount|]. split.
  - intros db2 Hreach.
    pose proof (ingested_count _ _ c Hreach) as Hle.
    split; [exact Hle|].
    split; [by apply (ingested_in_sync db1)|].
    by apply popularity_from_events_mono.
  - intros Hmany.
    assert (inject_Z 101 <= inject_Z (Z.of_nat (event_count (events db1) c)))
      as H by (rewrite <- Zle_Qle; lia).
    change (inject_Z 101) with 101 in H. split; lra.
Qed.

(** The 101st event on [C] lifts its popularity above 1. *)
Lemma C10_witness :
  ∃ resp db1 g1,
    log_event (db_busy 100) rng_zero 0 event_view_C = (inr resp, db1, g1)
    ∧ popularity_of db1 "C"
      = Some (inject_Z (Z.of_nat (event_count (events db1) "C")) * 0.01)
    ∧ event_count (events db1) "C" = 101%nat
    ∧ 1 < inject_Z (Z.of_nat (event_count (events db1) "C")) * 0.01
    ∧ 0.15 < inject_Z (Z.of_nat (event_count (events db1) "C")) * 0.01 * 0.15.
Proof.
  eexists _, _, _. split; [vm_compute; reflexivity|].
  edestruct (C10_popularity (db_busy 100) rng_zero 0 event_view_C)
    as (Hpop & Hcount & _ & Hmany); [vm_compute; reflexivity|].
  split; [exact Hpop|]. split; [exact Hcount|].
  apply Hmany. rewrite Hcount. vm_compute. lia.
Defined.

(** ** The peer finder *)

Lemma group_count_lookup (l : list string) (m : gmap string nat)
    (q : string) :
  foldl (λ m p, <[p := S (default 0%nat (m !! p))]> m) m l !! q
  = match m !! q, length (filter (λ p, p = q) l) with
    | None, O => None
    | None, S n => Some (S n)
    | Some k, n => Some (k + n)%nat
    end.
Proof.
  revert m. induction l as [|p l IH]; intros m; simpl.
  - destruct (m !! q); [f_equal; lia|done].
  - rewrite IH, filter_cons. destruct (decide (p = q)) as [->|Hne].
    + rewrite lookup_insert_eq. simpl.
      destruct (m !! q); simpl; f_equal; lia.
    + by rewrite lookup_insert_ne.
Qed.



(** The rows of the modelled engine are among the allowed ones. *)
Lemma similar_users_allowed (db : Store) (uid : string) :
  similar_users_rows db uid (similar_users db uid).
Proof.
  exists (Py.sort_reverse (λ a b, (a.2 <? b.2)%nat)
                          (map_to_list (common_items db uid))).
  split; [apply sort_reverse_perm|]. split; [|done].
  eapply StronglySorted_weaken; [|apply sort_reverse_sorted].
  - intros a b Hab. by apply Nat.ltb_ge in Hab.
  - intros x y Hxy. apply Nat.ltb_lt in Hxy. apply Nat.ltb_ge. lia.
  - intros x y z Hxy Hyz. apply Nat.ltb_ge in Hxy, Hyz. apply Nat.ltb_ge. lia.
Qed.


(** *** The order of sqlite3 *)














Example peer_finder_tie :
  peer_finder db_tie "U" = [("W", 1%nat); ("V", 1%nat)]
  ∧ peer_finder db_sample "U" = [("V", 1%nat)].
Proof. split; vm_compute; reflexivity. Qed.

(** * Further properties of [app_full.py] *)

(** ** Tag columns *)

Lemma split_pieces_no_sep (sep : ascii) (s : string) :
  Forall (no_sep sep) (Py.split sep s).
Proof.
  induction s as [|c s IH]; simpl; [by repeat constructor|].
  destruct (Ascii.eqb c sep) eqn:E; [by constructor|].
  apply Ascii.eqb_neq in E.
  destruct (Py.split sep s) as [|w ws]; [by repeat constructor|].
  apply Forall_cons in IH as [Hw Hws]. by constructor.
Qed.

Lemma split_not_nil (sep : ascii) (s : string) : Py.split sep s ≠ [].
Proof.
  destruct s as [|c s]; simpl; [done|].
  destruct (Ascii.eqb c sep); [done|]. by destruct (Py.split sep s).
Qed.

Lemma join_split (sep : ascii) (s : string) :
  Py.join (String sep EmptyString) (Py.split sep s) = s.
Proof.
  induction s as [|c s IH]; [done|]. simpl.
  pose proof (split_not_nil sep s) as Hne.
  destruct (Ascii.eqb c sep) eqn:E.
  - apply Ascii.eqb_eq in E as ->.
    destruct (Py.split sep s) as [|w ws]; [done|].
    change (Py.join (String sep EmptyString) (EmptyString :: w :: ws))
      with (String sep (Py.join (String sep EmptyString) (w :: ws))).
    by rewrite IH.
  - destruct (Py.split sep s) as [|w ws]; [done|].
    destruct ws as [|w' ws].
    + simpl in *. by rewrite IH.
    + change (Py.join (String sep EmptyString) (String c w :: w' :: ws))
        with (String c (Py.join (String sep EmptyString) (w :: w' :: ws))).
      by rewrite IH.
Qed.

Lemma parse_tags_join_any (l : list string) :
  Forall (no_sep ",") l → l ≠ [EmptyString] →
  parse_tags (Py.join "," l) = l.
Proof.
  intros Hsep Hne. unfold parse_tags. destruct l as [|x l]; [done|].
  rewrite decide_False; [by apply split_join|].
  destruct l as [|y l]; [simpl; congruence|]. by destruct x.
Qed.

Lemma parse_tags_no_sep (col : string) : Forall (no_sep ",") (parse_tags col).
Proof.
  unfold parse_tags. destruct (decide _); [constructor|].
  apply split_pieces_no_sep.
Qed.

(** X1. Splitting a tags column and joining the tags with commas gives the
    column back; no tag of a column holds a comma; and only the empty column
    has no tags. *)
Theorem X1_parse_tags_round_trip (col : string) :
  Py.join "," (parse_tags col) = col
  ∧ Forall (no_sep ",") (parse_tags col)
  ∧ (parse_tags col = [] ↔ col = EmptyString).
Proof.
  unfold parse_tags. destruct (decide (col = EmptyString)) as [->|Hne].
  - by repeat split.
  - split; [apply join_split|]. split; [apply split_pieces_no_sep|].
    split; [|done]. intros H. by apply split_not_nil in H.
Qed.

Lemma discovered_tags_no_sep (db : Store) (uid : string) (ui : list string)
    (strategy : Strategy) (c : Content.row) :
  Forall (no_sep ",") (discovered_tags db uid ui strategy c).
Proof.
  destruct (discovered_tags_shape db uid ui strategy c)
    as (ot & pt & -> & _ & _ & Hot & Hpt & _).
  apply Forall_app. split.
  - apply Forall_forall. intros t Ht. apply Hot in Ht as [_ Ht].
    by apply (proj1 (Forall_forall _ _) (parse_tags_no_sep (Content.tags c))).
  - destruct Hpt as [->| ->]; repeat constructor; simpl; by repeat split.
Qed.

Lemma fallback_tags_no_sep (tags : list string) :
  Forall (no_sep ",") tags → Forall (no_sep ",") (fallback_tags tags).
Proof.
  destruct tags; [|done]. intros _. repeat constructor; simpl; by repeat split.
Qed.

(** X2. The [reason_tags] text of a log row, split at its commas, gives the
    reason tags of the recommendation that it logs, unless these are the
    single empty tag, which is logged as the empty text. *)
Theorem X2_logged_tags_round_trip (db : Store) (g : Py.Rng) (now latency : Z)
    (uid : string) (k : Z) (strategy : Strategy)
    (resp : RecommendationResponse.t) (db' : Store) (g' : Py.Rng) :
  get_recommendations db g now latency uid k strategy = (inr resp, db', g') →
  ∃ new,
    recommendation_logs db' = recommendation_logs db ++ new
    ∧ Forall2
        (λ r l,
           (Recommendation.reason_tags r ≠ [EmptyString]
            → parse_tags (RecommendationLogs.reason_tags l)
              = Recommendation.reason_tags r)
           ∧ (Recommendation.reason_tags r = [EmptyString]
              → RecommendationLogs.reason_tags l = EmptyString))
        (RecommendationResponse.recommendations resp) new.
Proof.
  intros Hrun.
  apply get_recommendations_inr in Hrun
    as (_ & user & new & _ & -> & -> & Hnew).
  cbn [RecommendationResponse.recommendations recommendation_logs] in *.
  exists new. split; [done|].
  assert (Forall (λ r, Forall (no_sep ",") (Recommendation.reason_tags r))
                 (top_recs db g now user uid k strategy).1) as Hsep.
  { apply Forall_forall. intros r Hr.
    apply served_from_candidate in Hr as (c & _ & g1 & _ & ->).
    rewrite score_content_tags.
    apply fallback_tags_no_sep, discovered_tags_no_sep. }
  revert Hsep. unfold logged_as in Hnew.
  induction Hnew as [|r l recs new' (log_id & ->) _ IH]; [constructor|].
  intros [Hr Hrest]%Forall_cons. constructor; [|by apply IH].
  cbn [log_row RecommendationLogs.reason_tags]. split.
  - intros Hne. by apply parse_tags_join_any.
  - by intros ->.
Qed.

(** ** The peer check *)

Lemma liked_count_pos (db : Store) (peer cid : string) :
  (0 < liked_count db peer cid)%nat
  ↔ ∃ e, e ∈ events db ∧ Events.user_id e = peer ∧ Events.content_id e = cid
         ∧ (Events.event_type e = "like" ∨ Events.event_type e = "complete").
Proof.
  unfold liked_count. split.
  - intros Hpos. destruct (filter _ _) as [|e l] eqn:Hf; [simpl in Hpos; lia|].
    assert (e ∈ e :: l) as He by left. rewrite <- Hf in He.
    apply list_elem_of_filter in He as [(? & ? & ?) He]. by exists e.
  - intros (e & He & Hu & Hc & Ht).
    assert (e ∈ filter (λ e, Events.user_id e = peer
                             ∧ Events.content_id e = cid
                             ∧ (Events.event_type e = "like"
                                ∨ Events.event_type e = "complete"))
                       (events db)) as Hin
      by (by apply list_elem_of_filter).
    destruct (filter _ _); [by apply elem_of_nil in Hin|simpl; lia].
Qed.

Lemma any_peer_liked_true (db : Store) (cid : string)
    (similar : list (string * nat)) :
  any_peer_liked db cid similar = true
  ↔ ∃ su, su ∈ similar ∧ (0 < liked_count db su.1 cid)%nat.
Proof.
  induction similar as [|su rest IH]; simpl.
  - split; [done|]. intros (su & Hsu & _). by apply elem_of_nil in Hsu.
  - destruct (0 <? liked_count db su.1 cid)%nat eqn:E.
    + apply Nat.ltb_lt in E. split; [|done]. intros _. exists su.
      split; [left|done].
    + apply Nat.ltb_ge in E. rewrite IH. split.
      * intros (su' & Hin & Hpos). exists su'. split; [by right|done].
      * intros (su' & Hin & Hpos).
        apply elem_of_cons in Hin as [->|Hin]; [lia|]. by exists su'.
Qed.

(** X3. The loop over the similar users finds a match exactly when some
    user of the list has a ['like'] or ['complete'] event on the content;
    the [break] at the first match makes no difference to the outcome, which
    is the same for every order of the list. *)
Theorem X3_peer_check (db : Store) (cid : string)
    (similar : list (string * nat)) :
  (any_peer_liked db cid similar = true
   ↔ ∃ su e, su ∈ similar ∧ e ∈ events db
             ∧ Events.user_id e = su.1 ∧ Events.content_id e = cid
             ∧ (Events.event_type e = "like"
                ∨ Events.event_type e = "complete"))
  ∧ (∀ similar', similar ≡ₚ similar' →
       any_peer_liked db cid similar' = any_peer_liked db cid similar).
Proof.
  split.
  - rewrite any_peer_liked_true. split.
    + intros (su & Hsu & (e & He)%liked_count_pos). by exists su, e.
    + intros (su & e & Hsu & He). exists su. split; [done|].
      apply liked_count_pos. by exists e.
  - intros similar' Hperm. apply eq_true_iff_eq.
    rewrite !any_peer_liked_true.
    split; intros (su & Hsu & Hpos); exists su; split; try done.
    + by rewrite Hperm.
    + by rewrite <- Hperm.
Qed.

(** ** The outcomes of a recommendation request *)

Lemma get_recommendations_cases (db : Store) (g : Py.Rng) (now latency : Z)
    (uid : string) (k : Z) (strategy : Strategy) :
  let res := get_recommendations db g now latency uid k strategy in
  (¬ (1 ≤ k ≤ 50)%Z ∧ res.1 = (inl Unprocessable, db))
  ∨ ((1 ≤ k ≤ 50)%Z ∧ select_user db uid = None
     ∧ res.1 = (inl (NotFound "User not found"), db))
  ∨ ((1 ≤ k ≤ 50)%Z ∧ is_Some (select_user db uid)
     ∧ res.1 = (inl IntegrityError, db))
  ∨ ((1 ≤ k ≤ 50)%Z
     ∧ ∃ user new,
         select_user db uid = Some user
         ∧ logged_as uid now (top_recs db g now user uid k strategy).1 new
         ∧ res.1
           = (inr (RecommendationResponse.mk
                     uid (top_recs db g now user uid k strategy).1 "v2.0.0"
                     latency strategy),
              {| users := users db; content := content db;
                 events := events db;
                 recommendation_logs := recommendation_logs db ++ new |})).
Proof.
  intros res. subst res. unfold get_recommendations.
  destruct ((1 <=? k)%Z && (k <=? 50)%Z) eqn:Hk; simpl.
  - apply andb_true_iff in Hk as [Hk1%Z.leb_le Hk2%Z.leb_le].
    right. destruct (select_user db uid) as [user|]; [|by left].
    right. destruct (top_recs db g now user uid k strategy) as [recs g1] eqn:Ht.
    destruct (log_recommendations _ _ _ _ _) as [[logs|] g2] eqn:Hlog.
    + right. split; [done|].
      apply log_recommendations_spec in Hlog as (new & -> & Hnew).
      exists user, new. by rewrite Ht.
    + left. by split.
  - left. split; [|done]. intros [Hk1%Z.leb_le Hk2%Z.leb_le].
    by rewrite Hk1, Hk2 in Hk.
Qed.

Lemma logged_as_rows (uid : string) (now : Z)
    (recs : list Recommendation.t) (new : list RecommendationLogs.row) :
  logged_as uid now recs new →
  RecommendationLogs.content_id <$> new = Recommendation.content_id <$> recs
  ∧ RecommendationLogs.score <$> new = Recommendation.score <$> recs
  ∧ Forall (λ l, RecommendationLogs.user_id l = uid
                 ∧ RecommendationLogs.model_version l = "v2.0.0"
                 ∧ RecommendationLogs.timestamp l = now
                 ∧ RecommendationLogs.clicked l = false) new.
Proof.
  induction 1 as [|r l recs new (log_id & ->) _ (IH1 & IH2 & IH3)];
    [by repeat split|].
  rewrite !fmap_cons, IH1, IH2. split; [done|]. split; [done|].
  by constructor.
Qed.

(** X4. A recommendation request is refused as unprocessable exactly when
    [k] is outside 1..50, and answers NotFound exactly when [k] is inside and
    the user id is not in the store; a failed request leaves the store as it
    was; a served one leaves users, content and events as they were and
    appends one log row per returned recommendation, in the order of the
    response, with its content id and score, the user id, the model version
    [v2.0.0], the clock of the request and [clicked] unset. *)
Theorem X4_request_outcomes (db : Store) (g : Py.Rng) (now latency : Z)
    (uid : string) (k : Z) (strategy : Strategy) :
  let res := (get_recommendations db g now latency uid k strategy).1 in
  (res.1 = inl Unprocessable ↔ ¬ (1 ≤ k ≤ 50)%Z)
  ∧ ((∃ detail, res.1 = inl (NotFound detail))
     ↔ (1 ≤ k ≤ 50)%Z ∧ (uid ∉ Users.user_id <$> users db))
  ∧ (∀ failure, res.1 = inl failure → res.2 = db)
  ∧ (∀ resp, res.1 = inr resp →
       users res.2 = users db ∧ content res.2 = content db
       ∧ events res.2 = events db
       ∧ RecommendationResponse.user_id resp = uid
       ∧ RecommendationResponse.model_version resp = "v2.0.0"
       ∧ RecommendationResponse.strategy resp = strategy
       ∧ ∃ new,
           recommendation_logs res.2 = recommendation_logs db ++ new
           ∧ RecommendationLogs.content_id <$> new
             = Recommendation.content_id
               <$> RecommendationResponse.recommendations resp
           ∧ RecommendationLogs.score <$> new
             = Recommendation.score
               <$> RecommendationResponse.recommendations resp
           ∧ Forall (λ l, RecommendationLogs.user_id l = uid
                          ∧ RecommendationLogs.model_version l = "v2.0.0"
                          ∧ RecommendationLogs.timestamp l = now
                          ∧ RecommendationLogs.clicked l = false) new).
Proof.
  intros res. subst res. rewrite <- select_user_None.
  destruct (get_recommendations_cases db g now latency uid k strategy)
    as [[Hk ->]|[(Hk & Hu & ->)|[(Hk & Hu & ->)
        |(Hk & user & new & Hu & Hnew & ->)]]];
    cbn [fst snd].
  - split; [done|]. split; [|by split].
    split; [by intros [? ?]|]. by intros [? _].
  - split; [by split|]. split; [|by split].
    split; [done|]. intros _. by eexists.
  - split; [by split|]. split; [|by split].
    split; [by intros [? ?]|]. intros [_ H]. rewrite H in Hu. by destruct Hu.
  - split; [by split|]. split; [|split; [done|]].
    + split; [by intros [? ?]|]. intros [_ H]. by rewrite H in Hu.
    + intros resp [= <-]. cbn.
      split; [done|]. split; [done|]. split; [done|].
      split; [done|]. split; [done|]. split; [done|].
      exists new. split; [done|]. by apply (logged_as_rows uid now).
Qed.

(** ** Invariants of the store *)

Lemma update_last_active_ids (timestamp : Z) (uid : string)
    (us : list Users.row) :
  Users.user_id <$> update_last_active timestamp uid us = Users.user_id <$> us.
Proof.
  unfold update_last_active. rewrite <- list_fmap_compose.
  apply list_fmap_ext. intros i u _. simpl. by destruct (decide _).
Qed.

Lemma update_popularity_ids (evs : list Events.row) (cid : string)
    (cs : list Content.row) :
  Content.content_id <$> update_popularity evs cid cs
  = Content.content_id <$> cs.
Proof.
  unfold update_popularity. rewrite <- list_fmap_compose.
  apply list_fmap_ext. intros i c _. simpl. by destruct (decide _).
Qed.

(** A successful ingestion, spelled out. *)
Lemma ingest_step_shape (db db' : Store) :
  ingest_step db db' →
  ∃ event_id now event,
    (event_id ∉ Events.event_id <$> events db)
    ∧ is_Some (select_user db (EventCreate.user_id event))
    ∧ is_Some (select_content db (EventCreate.content_id event))
    ∧ db' = {| users := update_last_active now (EventCreate.user_id event)
                                           (users db);
               content := update_popularity
                            (events db ++ [event_row event_id now event])
                            (EventCreate.content_id event) (content db);
               events := events db ++ [event_row event_id now event];
               recommendation_logs := recommendation_logs db |}.
Proof.
  intros (g & now & event & resp & g' & Hrun).
  destruct (log_event_cases db g now event)
    as [[_ H]|[(_ & _ & H)|[(_ & _ & _ & H)|(Hu & Hc & Hid & H)]]];
    rewrite Hrun in H; cbn [fst] in H; try discriminate H.
  injection H as _ ->. by exists (Py.random_id g).1, now, event.
Qed.

Lemma log_recommendations_keys (logs : list RecommendationLogs.row)
    (uid : string) (now : Z) (g : Py.Rng) (recs : list Recommendation.t)
    (logs' : list RecommendationLogs.row) (g' : Py.Rng) :
  NoDup (RecommendationLogs.log_id <$> logs) →
  log_recommendations logs uid now g recs = (Some logs', g') →
  NoDup (RecommendationLogs.log_id <$> logs').
Proof.
  revert logs g. induction recs as [|r recs IH]; intros logs g Hnd;
    cbn [log_recommendations].
  - by intros [= <- <-].
  - destruct (Py.random_id g) as [log_id g1].
    destruct (decide _) as [|Hfresh]; [done|].
    apply IH. rewrite fmap_app. apply NoDup_app. split; [done|].
    split; [|apply NoDup_singleton].
    intros x Hx Hx'. apply list_elem_of_singleton in Hx'. by subst x.
Qed.

(** A served request, spelled out. *)
Lemma serve_step_shape (db db' : Store) :
  serve_step db db' →
  ∃ logs',
    db' = {| users := users db; content := content db; events := events db;
             recommendation_logs := logs' |}
    ∧ (NoDup (RecommendationLogs.log_id <$> recommendation_logs db)
       → NoDup (RecommendationLogs.log_id <$> logs')).
Proof.
  intros (g & now & latency & uid & k & strategy & resp & g' & Hrun).
  unfold get_recommendations in Hrun.
  destruct (negb _); [done|].
  destruct (select_user db uid) as [user|]; [|done].
  destruct (top_recs _ _ _ _ _ _ _) as [recs g1].
  destruct (log_recommendations _ _ _ _ _) as [[logs|] g2] eqn:Hlog; [|done].
  injection Hrun as _ <- _. exists logs. split; [done|].
  intros Hnd. by eapply log_recommendations_keys.
Qed.

Lemma request_step_unique_keys (db db' : Store) :
  request_step db db' → unique_keys db → unique_keys db'.
Proof.
  intros [Hstep|Hstep] (Hu & Hc & He & Hl).
  - apply ingest_step_shape in Hstep
      as (event_id & now & event & Hfresh & _ & _ & ->).
    unfold unique_keys. cbn.
    rewrite update_last_active_ids, update_popularity_ids, fmap_app.
    split; [done|]. split; [done|]. split; [|done].
    apply NoDup_app. split; [done|]. split; [|apply NoDup_singleton].
    intros x Hx Hx'. apply list_elem_of_singleton in Hx'. by subst x.
  - apply serve_step_shape in Hstep as (logs' & -> & Hlogs).
    unfold unique_keys. cbn. by auto.
Qed.

Lemma select_user_ids (db : Store) (uid : string) :
  is_Some (select_user db uid) ↔ uid ∈ Users.user_id <$> users db.
Proof.
  rewrite <- not_eq_None_Some, select_user_None.
  split; [|by auto]. intros H.
  by destruct (decide (uid ∈ Users.user_id <$> users db)).
Qed.

Lemma select_content_ids (db : Store) (cid : string) :
  is_Some (select_content db cid) ↔ cid ∈ Content.content_id <$> content db.
Proof.
  rewrite <- not_eq_None_Some, select_content_None.
  split; [|by auto]. intros H.
  by destruct (decide (cid ∈ Content.content_id <$> content db)).
Qed.

Lemma request_step_references (db db' : Store) :
  request_step db db' → references_exist db → references_exist db'.
Proof.
  intros [Hstep|Hstep] Href.
  - apply ingest_step_shape in Hstep
      as (event_id & now & event & _ & Hu & Hc & ->).
    intros e He. cbn in *.
    rewrite update_last_active_ids, update_popularity_ids.
    apply elem_of_app in He as [He|He]; [by apply Href|].
    apply list_elem_of_singleton in He as ->. cbn.
    split; [by apply select_user_ids|by apply select_content_ids].
  - apply serve_step_shape in Hstep as (logs' & -> & _). exact Href.
Qed.

Lemma request_step_popularity (db db' : Store) :
  request_step db db' → popularity_nonneg db → popularity_nonneg db'.
Proof.
  intros [Hstep|Hstep] Hpop.
  - apply ingest_step_shape in Hstep
      as (event_id & now & event & _ & _ & _ & ->).
    unfold popularity_nonneg, update_popularity in *. cbn.
    apply Forall_fmap. eapply Forall_impl; [exact Hpop|].
    intros c Hc. simpl. destruct (decide _); [|done]. simpl.
    pose proof (inject_nat_nonneg
                  (event_count (events db ++ [event_row event_id now event])
                               (EventCreate.content_id event))).
    lra.
  - apply serve_step_shape in Hstep as (logs' & -> & _). exact Hpop.
Qed.

(** X5. The primary keys stay unique: if no table of the store holds a key
    twice, then no table does after any number of successful event
    ingestions and served recommendation requests. *)
Theorem X5_unique_keys_kept (db db' : Store) :
  unique_keys db → rtc request_step db db' → unique_keys db'.
Proof.
  intros Hkeys Hreach. induction Hreach as [|db1 db2 db3 Hstep _ IH]; [done|].
  by apply IH, (request_step_unique_keys db1).
Qed.

(** X6. The foreign keys stay valid: if every event of the store refers to
    a user and a content item of the store, the same holds after any number
    of successful event ingestions and served recommendation requests. *)
Theorem X6_references_kept (db db' : Store) :
  references_exist db → rtc request_step db db' → references_exist db'.
Proof.
  intros Href Hreach. induction Hreach as [|db1 db2 db3 Hstep _ IH]; [done|].
  by apply IH, (request_step_references db1).
Qed.

(** X7. No request makes a popularity negative: if every content item has a
    non-negative popularity, the same holds after any number of successful
    event ingestions and served recommendation requests. *)
Theorem X7_popularity_nonneg_kept (db db' : Store) :
  popularity_nonneg db → rtc request_step db db' → popularity_nonneg db'.
Proof.
  intros Hpop Hreach. induction Hreach as [|db1 db2 db3 Hstep _ IH]; [done|].
  by apply IH, (request_step_popularity db1).
Qed.

(** ** What an ingestion touches *)

(** X8. A successful event ingestion stamps [last_active] of the user of the
    event with the clock of the request and leaves every other user row, and
    every other column of that row, as it was; of the content rows it changes
    nothing but the popularity of the content of the event. *)
Theorem X8_ingestion_touches (db : Store) (g : Py.Rng) (now : Z)
    (event : EventCreate.t) (resp : EventResponse.t) (db' : Store)
    (g' : Py.Rng) :
  log_event db g now event = (inr resp, db', g') →
  EventResponse.timestamp resp = now
  ∧ EventResponse.status resp = "success"
  ∧ (∀ uid,
       select_user db' uid
       = (λ u, if decide (uid = EventCreate.user_id event)
               then Users.mk (Users.user_id u) (Users.name u) (Users.email u)
                             (Users.cohort_tag u) (Users.skill_level u)
                             (Users.interests u) (Users.created_at u)
                             (Some now)
               else u) <$> select_user db uid)
  ∧ (∀ cid,
       select_content db' cid
       = (λ c, if decide (cid = EventCreate.content_id event)
               then Content.mk (Content.content_id c) (Content.title c)
                               (Content.description c)
                               (Content.content_type c)
                               (Content.difficulty c) (Content.tags c)
                               (Content.duration_minutes c)
                               (popularity_from_events db' cid)
                               (Content.created_at c)
               else c) <$> select_content db cid)
  ∧ length (users db') = length (users db)
  ∧ length (content db') = length (content db).
Proof.
  intros Hrun.
  destruct (log_event_cases db g now event)
    as [[_ H]|[(_ & _ & H)|[(_ & _ & _ & H)|(_ & _ & _ & H)]]];
    rewrite Hrun in H; cbn [fst] in H; try discriminate H.
  injection H as -> ->. cbn.
  split; [done|]. split; [done|]. split; [|split; [|split]].
  - intros uid. unfold select_user, update_last_active. cbn.
    rewrite head_filter_fmap by (intros u; by destruct (decide _)).
    destruct (head _) as [u|] eqn:Hu; [|done]. simpl.
    apply head_Some_elem_of, list_elem_of_filter in Hu as [Hid _].
    destruct (decide (uid = EventCreate.user_id event)) as [->|Hne].
    + by rewrite decide_True.
    + rewrite decide_False by congruence. done.
  - intros cid. unfold select_content, update_popularity. cbn.
    rewrite head_filter_fmap by (intros c; by destruct (decide _)).
    destruct (head _) as [c|] eqn:Hc; [|done]. simpl.
    apply head_Some_elem_of, list_elem_of_filter in Hc as [Hid _].
    destruct (decide (cid = EventCreate.content_id event)) as [->|Hne].
    + by rewrite decide_True.
    + rewrite decide_False by congruence. done.
  - unfold update_last_active. by rewrite length_fmap.
  - unfold update_popularity. by rewrite length_fmap.
Qed.

(** ** More on the ranked list *)

Lemma top_recs_take (db : Store) (g : Py.Rng) (now : Z) (user : Users.row)
    (uid : string) (k : Z) (strategy : Strategy) :
  (top_recs db g now user uid k strategy).1
  = take (Z.to_nat k)
         (sort_by_score
            (score_all db uid (parse_tags (Users.interests user))
                       (Users.skill_level user) (user_history db uid)
                       strategy now g (content db)).1).
Proof. unfold top_recs. by destruct (score_all _ _ _ _ _ _ _ _ _). Qed.

(** X9. Asking for fewer recommendations gives a prefix: when the requests
    for [k1] and for [k2 >= k1] recommendations are both served from the same
    store, clock and generator, the first list is the first [k1] entries of
    the second. *)
Theorem X9_smaller_k_is_prefix (db : Store) (g : Py.Rng) (now latency : Z)
    (uid : string) (k1 k2 : Z) (strategy : Strategy)
    (resp1 resp2 : RecommendationResponse.t) (db1 db2 : Store)
    (g1 g2 : Py.Rng) :
  (k1 ≤ k2)%Z →
  get_recommendations db g now latency uid k1 strategy = (inr resp1, db1, g1) →
  get_recommendations db g now latency uid k2 strategy = (inr resp2, db2, g2) →
  RecommendationResponse.recommendations resp1
  = take (Z.to_nat k1) (RecommendationResponse.recommendations resp2).
Proof.
  intros Hk H1 H2.
  apply get_recommendations_inr in H1 as (Hk1 & user1 & new1 & Hu1 & -> & _).
  apply get_recommendations_inr in H2 as (Hk2 & user2 & new2 & Hu2 & -> & _).
  rewrite Hu1 in Hu2. injection Hu2 as <-. cbn.
  rewrite !top_recs_take, take_take. f_equal. lia.
Qed.

Lemma Forall2_fmap_eq {A B C : Type} (f : A → C) (h : B → C) (l : list A)
    (k : list B) :
  Forall2 (λ x y, h y = f x) l k → h <$> k = f <$> l.
Proof. induction 1; [done|]. rewrite !fmap_cons. by f_equal. Qed.

(** X10. No content item is recommended twice, and a recommendation carries
    the title, difficulty and content type of its catalog row: when the
    content ids of the catalog are distinct, so are those of a returned
    list. *)
Theorem X10_recommendations_distinct (db : Store) (g : Py.Rng)
    (now latency : Z) (uid : string) (k : Z) (strategy : Strategy)
    (resp : RecommendationResponse.t) (db' : Store) (g' : Py.Rng) :
  NoDup (Content.content_id <$> content db) →
  get_recommendations db g now latency uid k strategy = (inr resp, db', g') →
  NoDup (Recommendation.content_id
         <$> RecommendationResponse.recommendations resp)
  ∧ Forall (λ r, ∃ c, c ∈ content db
                      ∧ Recommendation.content_id r = Content.content_id c
                      ∧ Recommendation.title r = Content.title c
                      ∧ Recommendation.difficulty r = Content.difficulty c
                      ∧ Recommendation.content_type r
                        = Content.content_type c)
           (RecommendationResponse.recommendations resp).
Proof.
  intros Hnd Hrun.
  apply get_recommendations_inr in Hrun as (_ & user & new & _ & -> & _).
  cbn. split.
  - destruct (top_recs_spec db g now user uid k strategy)
      as (scored & Hscored & ->).
    assert (NoDup (Recommendation.content_id <$> scored)) as Hs.
    { rewrite (Forall2_fmap_eq Content.content_id Recommendation.content_id
                               (eligible db uid) scored).
      - apply (sublist_NoDup _ (Content.content_id <$> content db));
          [done|]. apply fmap_sublist, sublist_filter.
      - eapply Forall2_impl; [exact Hscored|].
        intros c r. apply scored_from_content_id. }
    apply (sublist_NoDup _ (Recommendation.content_id
                            <$> sort_by_score scored)).
    + by rewrite sort_by_score_perm.
    + apply fmap_sublist, sublist_take.
  - apply Forall_forall. intros r Hr.
    apply served_from_candidate in Hr as (c & Hc & g1 & _ & ->).
    apply eligible_spec in Hc as [Hc _]. by exists c.
Qed.

(** ** The recency factor over the ages *)

Lemma inject_Z_div_365 (d : Z) : inject_Z d / 365 == inject_Z d * (1 # 365).
Proof. reflexivity. Qed.

(** X11. The recency factor is 1 for content of the day, falls by 1/365 per
    day of age down to one half, which it reaches at 183 days and keeps for
    every larger age; it never grows with the age; and it is not capped at
    1: content dated after the request gets a factor above 1. *)
Theorem X11_recency_factor_over_ages (d : Z) :
  ((183 ≤ d)%Z → recency_factor d == 0.5)
  ∧ ((d ≤ 182)%Z → recency_factor d == 1 - inject_Z d / 365
                   ∧ 0.5 < recency_factor d)
  ∧ ((d < 0)%Z → 1 < recency_factor d)
  ∧ recency_factor 0 == 1
  ∧ (∀ d', (d ≤ d')%Z → recency_factor d' <= recency_factor d).
Proof.
  assert (∀ z, recency_factor z == Qmax 0.5 (1 - inject_Z z * (1 # 365)))
    as Hrf.
  { intros z. unfold recency_factor. rewrite max_Qmax.
    apply Q.max_compat; [reflexivity|]. rewrite inject_Z_div_365. lra. }
  assert (∀ z z', (z ≤ z')%Z → inject_Z z <= inject_Z z') as Hinj
    by (intros z z' H; by rewrite <- Zle_Qle).
  split; [|split; [|split; [|split]]].
  - intros Hd. rewrite Hrf. apply Q.max_l.
    apply Hinj in Hd. change (inject_Z 183) with 183 in Hd. lra.
  - intros Hd. apply Hinj in Hd. change (inject_Z 182) with 182 in Hd.
    rewrite Hrf, inject_Z_div_365.
    assert (0.5 <= 1 - inject_Z d * (1 # 365)) as Hle by lra.
    rewrite (Q.max_r _ _ Hle). split; [reflexivity|lra].
  - intros Hd. assert (d ≤ -1)%Z as Hd' by lia.
    apply Hinj in Hd'. change (inject_Z (-1)) with (-1 # 1) in Hd'.
    rewrite Hrf.
    assert (0.5 <= 1 - inject_Z d * (1 # 365)) as Hle by lra.
    rewrite (Q.max_r _ _ Hle). lra.
  - reflexivity.
  - intros d' Hd. apply Hinj in Hd. rewrite !Hrf.
    apply Q.max_le_compat_l. lra.
Qed.

(** ** [calculate_user_similarity] *)

Lemma similarity_join_elem (db : Store) (u t c : string) :
  c ∈ similarity_join db u t
  ↔ ∃ e1 e2, e1 ∈ events db ∧ e2 ∈ events db
             ∧ Events.user_id e1 = u ∧ Events.user_id e2 = t
             ∧ Events.content_id e1 = c ∧ Events.content_id e2 = c.
Proof.
  unfold similarity_join. rewrite list_elem_of_bind. split.
  - intros (e1 & Hc & [Hu1 He1]%list_elem_of_filter).
    apply list_elem_of_bind in Hc as (e2 & Hc & [[Hc2 Hu2] He2]%list_elem_of_filter).
    apply list_elem_of_singleton in Hc as ->.
    exists e1, e2. by repeat split.
  - intros (e1 & e2 & He1 & He2 & Hu1 & Hu2 & Hc1 & Hc2).
    exists e1. split; [|by apply list_elem_of_filter].
    apply list_elem_of_bind. exists e2.
    split; [by apply list_elem_of_singleton|].
    apply list_elem_of_filter. split; [|done]. split; congruence.
Qed.

Lemma common_content_sym (db : Store) (u t : string) :
  common_content db u t = common_content db t u.
Proof.
  unfold common_content. f_equal. apply set_eq. intros c.
  rewrite !elem_of_list_to_set, !similarity_join_elem. split.
  - intros (e1 & e2 & ? & ? & ? & ? & ? & ?). by exists e2, e1.
  - intros (e1 & e2 & ? & ? & ? & ? & ? & ?). by exists e2, e1.
Qed.

Lemma common_content_pos (db : Store) (u t : string) :
  (0 < common_content db u t)%nat
  ↔ ∃ e1 e2, e1 ∈ events db ∧ e2 ∈ events db
             ∧ Events.user_id e1 = u ∧ Events.user_id e2 = t
             ∧ Events.content_id e1 = Events.content_id e2.
Proof.
  unfold common_content. split.
  - intros Hpos.
    destruct (set_choose_L (list_to_set (similarity_join db u t)
                            : gset string)) as [c Hc].
    { intros Hempty. rewrite Hempty, size_empty in Hpos. lia. }
    apply elem_of_list_to_set, similarity_join_elem in Hc
      as (e1 & e2 & ? & ? & ? & ? & ? & ?).
    exists e1, e2. repeat split; try done. congruence.
  - intros (e1 & e2 & He1 & He2 & Hu1 & Hu2 & Hc).
    assert (Events.content_id e1
            ∈ (list_to_set (similarity_join db u t) : gset string)) as Hin.
    { apply elem_of_list_to_set, similarity_join_elem.
      exists e1, e2. by repeat split. }
    destruct (decide (size (list_to_set (similarity_join db u t)
                            : gset string) = 0%nat)) as [H0|]; [|lia].
    apply size_empty_inv, leibniz_equiv in H0. rewrite H0 in Hin.
    by apply not_elem_of_empty in Hin.
Qed.

Lemma common_items_is_Some (db : Store) (uid peer : string) :
  is_Some (common_items db uid !! peer) ↔ peer ∈ peer_join db uid.
Proof.
  unfold common_items. rewrite group_count_lookup, lookup_empty. split.
  - destruct (filter _ _) as [|p l] eqn:Hf; [by intros [? ?]|]. intros _.
    assert (p ∈ filter (λ p, p = peer) (peer_join db uid)) as Hp
      by (rewrite Hf; left).
    by apply list_elem_of_filter in Hp as [-> Hp].
  - intros Hin.
    assert (peer ∈ filter (λ p, p = peer) (peer_join db uid)) as Hp
      by (by apply list_elem_of_filter).
    destruct (filter _ _); [by apply elem_of_nil in Hp|done].
Qed.

Lemma peer_join_elem (db : Store) (uid peer : string) :
  peer ∈ peer_join db uid
  ↔ peer ≠ uid
    ∧ ∃ e1 e2, e1 ∈ events db ∧ e2 ∈ events db
               ∧ Events.user_id e1 = uid ∧ Events.user_id e2 = peer
               ∧ Events.content_id e1 = Events.content_id e2.
Proof.
  unfold peer_join. rewrite list_elem_of_bind. split.
  - intros (e1 & Hp & [Hu1 He1]%list_elem_of_filter).
    apply list_elem_of_bind in Hp
      as (e2 & Hp & [[Hc2 Hu2] He2]%list_elem_of_filter).
    apply list_elem_of_singleton in Hp as ->.
    split; [done|]. by exists e1, e2.
  - intros (Hne & e1 & e2 & He1 & He2 & Hu1 & Hu2 & Hc).
    exists e1. split; [|by apply list_elem_of_filter].
    apply list_elem_of_bind. exists e2.
    split; [by apply list_elem_of_singleton|].
    apply list_elem_of_filter. split; [|done]. split; congruence.
Qed.

Lemma Qdiv_10 (a : Q) : a / 10.0 == a * (1 # 10).
Proof. unfold Qdiv. change (/ 10.0) with (10 # 100). lra. Qed.

(** X12. The similarity of two users lies in [[0, 1]] and is the same in
    both directions; it is positive exactly when the two have events on a
    common content item, and 1 exactly when they have ten or more such
    items; and another user has positive similarity to a user exactly when
    the peer query of the recommender has a group for that user. *)
Theorem X12_user_similarity (db : Store) (u t : string) :
  0 <= calculate_user_similarity db u t <= 1
  ∧ calculate_user_similarity db u t = calculate_user_similarity db t u
  ∧ (0 < calculate_user_similarity db u t
     ↔ ∃ e1 e2, e1 ∈ events db ∧ e2 ∈ events db
                ∧ Events.user_id e1 = u ∧ Events.user_id e2 = t
                ∧ Events.content_id e1 = Events.content_id e2)
  ∧ (calculate_user_similarity db u t == 1
     ↔ (10 ≤ common_content db u t)%nat)
  ∧ (t ≠ u →
     (0 < calculate_user_similarity db u t
      ↔ is_Some (common_items db u !! t))).
Proof.
  assert (∀ n : nat,
            0 <= Py.min (inject_Z (Z.of_nat n) / 10.0) 1.0 <= 1
            ∧ (0 < Py.min (inject_Z (Z.of_nat n) / 10.0) 1.0 ↔ (0 < n)%nat)
            ∧ (Py.min (inject_Z (Z.of_nat n) / 10.0) 1.0 == 1
               ↔ (10 ≤ n)%nat)) as Hmin.
  { intros n. pose proof (inject_nat_nonneg n) as Hn.
    pose proof (Qdiv_10 (inject_Z (Z.of_nat n))) as Hdiv.
    unfold Py.min. destruct (Py.Qltb _ _) eqn:E.
    - apply Qltb_lt in E. rewrite Hdiv in E.
      assert (inject_Z 10 < inject_Z (Z.of_nat n)) as H10
        by (change (inject_Z 10) with 10; lra).
      rewrite <- Zlt_Qlt in H10.
      split; [lra|]. split; (split; [intros _; lia|intros _; lra]).
    - apply Qltb_ge in E. rewrite Hdiv in E. rewrite Hdiv.
      split; [lra|]. split.
      + split.
        * intros Hpos. destruct n; [|lia].
          change (inject_Z (Z.of_nat 0)) with 0 in Hpos. lra.
        * intros Hpos.
          assert (inject_Z 1 <= inject_Z (Z.of_nat n)) as H1
            by (rewrite <- Zle_Qle; lia).
          change (inject_Z 1) with 1 in H1. lra.
      + split.
        * intros Heq.
          assert (inject_Z 10 <= inject_Z (Z.of_nat n)) as H10
            by (change (inject_Z 10) with 10; lra).
          rewrite <- Zle_Qle in H10. lia.
        * intros H10.
          assert (inject_Z 10 <= inject_Z (Z.of_nat n)) as H10'
            by (rewrite <- Zle_Qle; lia).
          change (inject_Z 10) with 10 in H10'. lra. }
  unfold calculate_user_similarity.
  destruct (Hmin (common_content db u t)) as (Hrange & Hpos & Hone).
  split; [exact Hrange|]. split; [by rewrite common_content_sym|].
  split; [by rewrite Hpos, common_content_pos|]. split; [exact Hone|].
  intros Hne. rewrite Hpos, common_content_pos, common_items_is_Some,
    peer_join_elem. split; [by intros H|by intros [_ H]].
Qed.

(** ** [get_analytics] *)

Lemma or_default_zero (v : Q) : or_default (Some v) 0.0 == v.
Proof.
  unfold or_default. destruct (Qeq_bool v 0) eqn:E; [|reflexivity].
  apply Qeq_bool_iff in E. rewrite E. reflexivity.
Qed.

Lemma completing_users_active (db : Store) :
  completing_users db ⊆ active_users db.
Proof.
  intros u. unfold completing_users, active_users.
  rewrite !elem_of_list_to_set, !list_elem_of_fmap.
  intros (e & -> & [_ He]%list_elem_of_filter). by exists e.
Qed.

Lemma completing_users_pos (db : Store) :
  (0 < size (completing_users db))%nat
  ↔ ∃ e, e ∈ events db ∧ Events.event_type e = "complete".
Proof.
  split.
  - intros Hpos. destruct (set_choose_L (completing_users db)) as [u Hu].
    { intros Hempty. rewrite Hempty, size_empty in Hpos. lia. }
    unfold completing_users in Hu.
    apply elem_of_list_to_set, list_elem_of_fmap in Hu
      as (e & _ & [Ht He]%list_elem_of_filter).
    by exists e.
  - intros (e & He & Ht).
    assert (Events.user_id e ∈ completing_users db) as Hin.
    { apply elem_of_list_to_set, list_elem_of_fmap. exists e.
      split; [done|]. by apply list_elem_of_filter. }
    destruct (decide (size (completing_users db) = 0%nat)) as [H0|]; [|lia].
    apply size_empty_inv, leibniz_equiv in H0. rewrite H0 in Hin.
    by apply not_elem_of_empty in Hin.
Qed.

Lemma active_users_none (db : Store) :
  size (active_users db) = 0%nat ↔ events db = [].
Proof.
  unfold active_users. split.
  - intros H0. apply size_empty_inv, leibniz_equiv in H0.
    destruct (events db) as [|e es]; [done|].
    assert (Events.user_id e ∈ (∅ : gset string)) as Hin
      by (rewrite <- H0; apply elem_of_list_to_set; left).
    by apply not_elem_of_empty in Hin.
  - intros ->. done.
Qed.

(** X13. The engagement rate of the analytics lies in [[0, 1]]; it is the
    number of users with a [complete] event divided by the number of users
    with any event, and [0.0] for a store without events (the division by
    zero of the statement gives [NULL], which [or 0.0] replaces); it is
    positive exactly when some event is of type [complete]. *)
Theorem X13_engagement_rate (db : Store) :
  0 <= engagement_rate db <= 1
  ∧ (events db = [] → engagement_rate db = 0.0)
  ∧ (events db ≠ [] →
     engagement_rate db * inject_Z (Z.of_nat (size (active_users db)))
     == inject_Z (Z.of_nat (size (completing_users db))))
  ∧ (0 < engagement_rate db
     ↔ ∃ e, e ∈ events db ∧ Events.event_type e = "complete").
Proof.
  unfold engagement_rate, engagement_rate_row.
  destruct (decide (size (active_users db) = 0%nat)) as [H0|Hpos].
  - apply active_users_none in H0 as Hnil. cbn [or_default].
    split; [lra|]. split; [done|]. split; [done|]. split; [lra|].
    intros (e & He & _). rewrite Hnil in He. by apply elem_of_nil in He.
  - pose proof (subseteq_size _ _ (completing_users_active db)) as Hle.
    set (c := size (completing_users db)) in *.
    set (a := size (active_users db)) in *.
    assert (0 < inject_Z (Z.of_nat a)) as Ha.
    { change 0 with (inject_Z 0). rewrite <- Zlt_Qlt. lia. }
    assert (inject_Z (Z.of_nat c) <= inject_Z (Z.of_nat a)) as Hca
      by (rewrite <- Zle_Qle; lia).
    pose proof (inject_nat_nonneg c) as Hc.
    set (v := inject_Z (Z.of_nat c) * 1.0 / inject_Z (Z.of_nat a)).
    pose proof (or_default_zero v) as Hv.
    assert (v * inject_Z (Z.of_nat a) == inject_Z (Z.of_nat c)) as Hmul.
    { unfold v. rewrite Qmult_comm, Qmult_div_r by lra. lra. }
    assert (0 <= v <= 1) as Hb.
    { split.
      - apply Qle_shift_div_l; [done|lra].
      - apply Qle_shift_div_r; [done|lra]. }
    split; [rewrite Hv; exact Hb|].
    split.
    { intros Hnil. by apply active_users_none in Hnil. }
    split; [intros _; rewrite Hv; exact Hmul|].
    rewrite Hv, <- completing_users_pos. fold c. split.
    + intros Hpos'. destruct c; [|lia].
      change (inject_Z (Z.of_nat 0)) with 0 in Hmul. nra.
    + intros Hc0.
      assert (inject_Z 1 <= inject_Z (Z.of_nat c)) as H1
        by (rewrite <- Zle_Qle; lia).
      change (inject_Z 1) with 1 in H1.
      apply Qlt_shift_div_l; [done|lra].
Qed.

Lemma sum_counts_insert_fresh (m : gmap string nat) (p : string) (n : nat) :
  m !! p = None → sum_counts (<[p := n]> m) = (n + sum_counts m)%nat.
Proof.
  intros Hp. unfold sum_counts.
  rewrite map_fold_insert_L; [done| |done]. intros. lia.
Qed.

Lemma sum_counts_step (m : gmap string nat) (p : string) :
  sum_counts (<[p := S (default 0%nat (m !! p))]> m) = S (sum_counts m).
Proof.
  destruct (m !! p) as [k|] eqn:Hp; cbn [default].
  - rewrite <- (insert_delete_eq m p (S k)).
    rewrite <- (insert_id m p k Hp) at 2.
    rewrite <- (insert_delete_eq m p k).
    rewrite !sum_counts_insert_fresh by apply lookup_delete_eq. lia.
  - by rewrite sum_counts_insert_fresh.
Qed.

Lemma sum_counts_group (l : list string) (m : gmap string nat) :
  sum_counts (foldl (λ m p, <[p := S (default 0%nat (m !! p))]> m) m l)
  = (sum_counts m + length l)%nat.
Proof.
  revert m. induction l as [|p l IH]; intros m; simpl; [lia|].
  rewrite IH, sum_counts_step. lia.
Qed.

Lemma filter_fmap_length {A B : Type} (f : A → B) (P : B → Prop)
    `{!∀ b, Decision (P b)} (l : list A) :
  length (filter P (f <$> l)) = length (filter (λ a, P (f a)) l).
Proof.
  induction l as [|a l IH]; [done|]. rewrite fmap_cons, !filter_cons.
  destruct (decide (P (f a))); simpl; by rewrite IH.
Qed.

Lemma event_distribution_lookup (db : Store) (t : string) :
  event_distribution db !! t
  = match length (filter (λ e, Events.event_type e = t) (events db)) with
    | O => None
    | S n => Some (S n)
    end.
Proof.
  unfold event_distribution.
  by rewrite group_count_lookup, lookup_empty, filter_fmap_length.
Qed.

(** X14. The event distribution of the analytics has one key per event type
    that occurs in [events] and no other key, the count of a key is the
    number of event rows of that type, and the counts add up to
    [total_events]. *)
Theorem X14_event_distribution (db : Store) :
  (∀ t, default 0%nat (event_distribution db !! t)
        = length (filter (λ e, Events.event_type e = t) (events db)))
  ∧ (∀ t, is_Some (event_distribution db !! t)
          ↔ ∃ e, e ∈ events db ∧ Events.event_type e = t)
  ∧ sum_counts (event_distribution db) = total_events db.
Proof.
  pose proof (event_distribution_lookup db) as Hlookup.
  split; [|split].
  - intros t. rewrite Hlookup. by destruct (length _).
  - intros t. rewrite Hlookup. split.
    + destruct (filter _ _) as [|e l] eqn:Hf; [by intros [? ?]|]. intros _.
      assert (e ∈ filter (λ e, Events.event_type e = t) (events db)) as He
        by (rewrite Hf; left).
      apply list_elem_of_filter in He as [Ht He]. by exists e.
    + intros (e & He & Ht).
      assert (e ∈ filter (λ e, Events.event_type e = t) (events db)) as Hin
        by (by apply list_elem_of_filter).
      destruct (filter _ _); [by apply elem_of_nil in Hin|done].
  - unfold event_distribution, total_events.
    rewrite sum_counts_group, length_fmap. unfold sum_counts.
    by rewrite map_fold_empty.
Qed.

(** ** [get_user_analytics] *)

Lemma filter_length_split {A : Type} (f : A → bool) (l : list A) :
  (length (filter (λ a, f a = true) l) + length (filter (λ a, f a = false) l)
   = length l)%nat.
Proof.
  induction l as [|a l IH]; [done|]. rewrite !filter_cons.
  destruct (f a) eqn:E; simpl.
  - destruct (decide (true = true)); [|done].
    destruct (decide (true = false)); [done|]. simpl. lia.
  - destruct (decide (false = true)); [done|].
    destruct (decide (false = false)); [|done]. simpl. lia.
Qed.

Lemma distinct_content_complete (db : Store) (uid cid : string) :
  cid ∈ distinct_content db uid "complete" ↔ has_completed db uid cid.
Proof.
  unfold distinct_content, has_completed.
  rewrite elem_of_list_to_set, list_elem_of_fmap. split.
  - intros (e & -> & [[Hu Ht] He]%list_elem_of_filter). by exists e.
  - intros (e & He & Hu & Hc & Ht). exists e. split; [done|].
    by apply list_elem_of_filter.
Qed.

(** X15. With distinct content ids and events that refer to catalog rows,
    the [content_completed] of the user analytics and the number of
    candidates that the recommender scores for the same user add up to the
    size of the catalog: a candidate is skipped exactly when the analytics
    count it as completed. *)
Theorem X15_completed_and_candidates (db : Store) (uid : string) :
  NoDup (Content.content_id <$> content db) →
  references_exist db →
  (content_completed db uid + length (eligible db uid)
   = length (content db))%nat.
Proof.
  intros Hnodup Href. unfold content_completed, eligible.
  rewrite <- (filter_length_split
                (λ c, already_completed (user_history db uid)
                                        (Content.content_id c)) (content db)).
  f_equal.
  set (done_rows := filter (λ c, already_completed (user_history db uid)
                                   (Content.content_id c) = true)
                           (content db)).
  assert (NoDup (Content.content_id <$> done_rows)) as Hnd.
  { eapply sublist_NoDup; [exact Hnodup|].
    apply fmap_sublist, sublist_filter. }
  rewrite <- (length_fmap Content.content_id done_rows).
  rewrite <- (size_list_to_set (C := gset string) _ Hnd). f_equal.
  apply set_eq. intros cid.
  rewrite distinct_content_complete, elem_of_list_to_set, list_elem_of_fmap.
  split.
  - intros Hdone. destruct Hdone as (e & He & Hu & Hc & Ht) eqn:Hsave.
    destruct (Href e He) as [_ Hin]. rewrite Hc in Hin.
    apply list_elem_of_fmap in Hin as (c & -> & Hin).
    exists c. split; [done|]. apply list_elem_of_filter. split; [|done].
    apply already_completed_spec. by exists e.
  - intros (c & -> & [Hdone _]%list_elem_of_filter).
    by apply already_completed_spec.
Qed.

Lemma Qsum_bounds (lo hi : Q) (vs : list Q) :
  Forall (λ v, lo <= v <= hi) vs →
  lo * inject_Z (Z.of_nat (length vs)) <= Qsum vs
  ∧ Qsum vs <= hi * inject_Z (Z.of_nat (length vs)).
Proof.
  induction 1 as [|v vs [Hlo Hhi] _ [IHlo IHhi]].
  - change (inject_Z (Z.of_nat (length []))) with 0. cbn. lra.
  - cbn [length Qsum foldr]. fold (Qsum vs).
    rewrite Nat2Z.inj_succ. unfold Z.succ. rewrite inject_Z_plus.
    change (inject_Z 1) with 1. lra.
Qed.

Lemma avg_quiz_score_mean (db : Store) (uid : string) :
  quiz_values db uid ≠ [] →
  avg_quiz_score db uid
  == Qsum (quiz_values db uid)
     / inject_Z (Z.of_nat (length (quiz_values db uid))).
Proof.
  intros Hne. unfold avg_quiz_score, avg_score_row.
  destruct (quiz_values db uid) as [|v vs]; [done|]. apply or_default_zero.
Qed.

Lemma avg_quiz_score_between (db : Store) (uid : string) (lo hi : Q) :
  quiz_values db uid ≠ [] →
  Forall (λ v, lo <= v <= hi) (quiz_values db uid) →
  lo <= avg_quiz_score db uid <= hi.
Proof.
  intros Hne Hall. rewrite (avg_quiz_score_mean db uid Hne).
  apply Qsum_bounds in Hall as [Hlo Hhi].
  set (n := inject_Z (Z.of_nat (length (quiz_values db uid)))) in *.
  assert (0 < n) as Hn.
  { unfold n. change 0 with (inject_Z 0). rewrite <- Zlt_Qlt.
    destruct (quiz_values db uid); [done|cbn [length]; lia]. }
  split.
  - apply Qle_shift_div_l; [done|lra].
  - apply Qle_shift_div_r; [done|lra].
Qed.

Lemma quiz_values_snoc (db db' : Store) (uid : string) (e : Events.row) :
  events db' = events db ++ [e] →
  quiz_values db' uid
  = quiz_values db uid
    ++ (if decide (Events.user_id e = uid
                   ∧ Events.event_type e = "quiz_score")
        then option_list (Events.value e) else []).
Proof.
  intros Hev. unfold quiz_values.
  rewrite Hev, filter_app, omap_app. f_equal.
  rewrite filter_cons, filter_nil. cbn beta.
  destruct (decide (Events.user_id e = uid
                    ∧ Events.event_type e = "quiz_score")); [|done].
  cbn. by destruct (Events.value e).
Qed.

(** X16. The average quiz score of the user analytics is [0.0] when the user
    has no quiz event with a value; otherwise it is the sum of the values
    divided by their number, and a quiz event without a value is left out of
    both: one more event in the table changes the average of a user only if
    it is a quiz event of that user with a value. *)
Theorem X16_avg_quiz_score (db : Store) (uid : string) :
  (quiz_values db uid = [] → avg_quiz_score db uid = 0.0)
  ∧ avg_quiz_score db uid
      * inject_Z (Z.of_nat (length (quiz_values db uid)))
    == Qsum (quiz_values db uid)
  ∧ (∀ db' e,
       events db' = events db ++ [e] →
       ¬ (Events.user_id e = uid ∧ Events.event_type e = "quiz_score"
          ∧ is_Some (Events.value e)) →
       avg_quiz_score db' uid = avg_quiz_score db uid).
Proof.
  split; [|split].
  - intros Hnil. unfold avg_quiz_score, avg_score_row. by rewrite Hnil.
  - destruct (decide (quiz_values db uid = [])) as [Hnil|Hne].
    + unfold avg_quiz_score, avg_score_row. rewrite Hnil. cbn. lra.
    + rewrite (avg_quiz_score_mean db uid Hne).
      set (n := inject_Z (Z.of_nat (length (quiz_values db uid)))).
      assert (0 < n) as Hn.
      { unfold n. change 0 with (inject_Z 0). rewrite <- Zlt_Qlt.
        destruct (quiz_values db uid); [done|cbn [length]; lia]. }
      rewrite Qmult_comm, Qmult_div_r by lra. reflexivity.
  - intros db' e Hev Hnot.
    assert (quiz_values db' uid = quiz_values db uid) as Hsame.
    { rewrite (quiz_values_snoc db db' uid e Hev).
      destruct (decide (Events.user_id e = uid
                        ∧ Events.event_type e = "quiz_score"))
        as [[Hu Ht]|_]; [|by rewrite app_nil_r].
      assert (Events.value e = None) as Hval.
      { destruct (is_Some_dec (Events.value e)) as [Hs|Hn];
          [destruct Hnot; by repeat split|].
        by apply eq_None_not_Some. }
      rewrite Hval. cbn. by rewrite app_nil_r. }
    unfold avg_quiz_score, avg_score_row. by rewrite Hsame.
Qed.

(** ** [ConnectionManager] *)

Lemma list_remove_None (x : nat) (l : list nat) :
  ConnectionManager.list_remove x l = None ↔ x ∉ l.
Proof.
  induction l as [|y l IH]; simpl.
  - split; [intros _; apply not_elem_of_nil|done].
  - rewrite not_elem_of_cons. destruct (decide (y = x)) as [->|Hne].
    + split; [done|]. by intros [? _].
    + rewrite fmap_None, IH. split; [by intros ?; split|by intros [_ ?]].
Qed.

Lemma list_remove_Some (x : nat) (l l' : list nat) :
  ConnectionManager.list_remove x l = Some l' →
  ∃ l1 l2, l = l1 ++ x :: l2 ∧ l' = l1 ++ l2 ∧ x ∉ l1.
Proof.
  revert l'. induction l as [|y l IH]; intros l'; simpl; [done|].
  destruct (decide (y = x)) as [->|Hne].
  - intros [= <-]. exists [], l. split; [done|]. split; [done|].
    apply not_elem_of_nil.
  - destruct (ConnectionManager.list_remove x l) as [l0|]; [|done].
    intros [= <-]. destruct (IH l0 eq_refl) as (l1 & l2 & -> & -> & Hx).
    exists (y :: l1), l2. split; [done|]. split; [done|].
    apply not_elem_of_cons. by split.
Qed.

Lemma list_remove_app_fresh (x : nat) (l : list nat) :
  x ∉ l → ConnectionManager.list_remove x (l ++ [x]) = Some l.
Proof.
  induction l as [|y l IH]; simpl.
  - intros _. by destruct (decide (x = x)).
  - intros [Hne Hx]%not_elem_of_cons.
    destruct (decide (y = x)); [congruence|]. by rewrite IH.
Qed.

(** X17. [disconnect] raises (the [ValueError] of [list.remove]) exactly for
    a socket that is not connected; otherwise it takes out the first
    occurrence of the socket and keeps every other connection in its place,
    so a socket that was connected twice stays connected once; and
    disconnecting a socket right after connecting it gives back the manager
    as it was, when the socket was not connected before. *)
Theorem X17_connection_manager (self : ConnectionManager.t) (ws : nat) :
  (ConnectionManager.disconnect self ws = None
   ↔ ws ∉ ConnectionManager.active_connections self)
  ∧ (∀ self', ConnectionManager.disconnect self ws = Some self' →
       ∃ before after,
         ConnectionManager.active_connections self = before ++ ws :: after
         ∧ ConnectionManager.active_connections self' = before ++ after
         ∧ ws ∉ before)
  ∧ (ws ∉ ConnectionManager.active_connections self →
     ConnectionManager.disconnect (ConnectionManager.connect self ws) ws
     = Some self)
  ∧ ws ∈ ConnectionManager.active_connections
           (ConnectionManager.connect self ws).
Proof.
  destruct self as [l]. unfold ConnectionManager.disconnect,
    ConnectionManager.connect. cbn [ConnectionManager.active_connections].
  split; [by rewrite fmap_None, list_remove_None|]. split.
  - intros self' Hd.
    destruct (ConnectionManager.list_remove ws l) as [l'|] eqn:Hr; [|done].
    injection Hd as <-. cbn [ConnectionManager.active_connections].
    by apply list_remove_Some.
  - split.
    + intros Hws. by rewrite list_remove_app_fresh.
    + apply elem_of_app. right. left.
Qed.

(** ** [seed_database] *)

Lemma Seeding_bind_eq {A B : Type} (m : Seeding A) (f : A → Seeding B)
    (s : Py.Rng * Clock) :
  (m ≫= f) s = f (m s).1 (m s).2.
Proof. unfold mbind, Seeding_bind. by destruct (m s). Qed.

Lemma draw_eq {A : Type} (f : Py.Rng → A * Py.Rng) (s : Py.Rng * Clock) :
  draw f s = ((f s.1).1, ((f s.1).2, s.2)).
Proof. unfold draw. by destruct (f s.1). Qed.

Lemma mapM_Seeding_cons {A B : Type} (f : A → Seeding B) (a : A)
    (l : list A) (s : Py.Rng * Clock) :
  mapM f (a :: l) s
  = ((f a s).1 :: (mapM f l (f a s).2).1, (mapM f l (f a s).2).2).
Proof. cbn [mapM]. by rewrite !Seeding_bind_eq. Qed.

(** A loop of the seeding gives one row per index, each as its body makes
    it, and keeps what every run of the body keeps. *)
Lemma mapM_Seeding_spec {A B : Type} (Inv : Py.Rng * Clock → Prop)
    (P : A → B → Prop) (f : A → Seeding B) :
  (∀ a s, Inv s → P a (f a s).1 ∧ Inv (f a s).2) →
  ∀ l s, Inv s → Forall2 P l (mapM f l s).1 ∧ Inv (mapM f l s).2.
Proof.
  intros Hf. induction l as [|a l IH]; intros s Hs.
  - split; [constructor|done].
  - rewrite mapM_Seeding_cons. cbn [fst snd].
    destruct (Hf a s Hs) as [Ha Hs1]. destruct (IH _ Hs1) as [Hl Hs2].
    split; [by constructor|done].
Qed.

Lemma mapM_Seeding_rows {A B : Type} (P : A → B → Prop) (f : A → Seeding B) :
  (∀ a s, P a (f a s).1) → ∀ l s, Forall2 P l (mapM f l s).1.
Proof.
  intros Hf l s.
  by apply (mapM_Seeding_spec (λ _, True) P f); [intros; split; auto|].
Qed.

Lemma executemany_Some {A : Type} (key : A → string) (table rows t : list A) :
  executemany key table rows = Some t →
  t = table ++ rows
  ∧ NoDup (key <$> rows)
  ∧ ∀ r, r ∈ rows → key r ∉ key <$> table.
Proof.
  revert table. induction rows as [|r rows IH]; intros table; simpl.
  - intros [= <-]. split; [by rewrite app_nil_r|].
    split; [constructor|]. by intros r ?%elem_of_nil.
  - destruct (decide (key r ∈ key <$> table)) as [|Hfresh]; [done|].
    intros (-> & Hnd & Hrows)%IH. split; [by rewrite <- (assoc_L (++))|].
    split.
    + apply NoDup_cons. split; [|done].
      intros (r' & Heq & Hr')%list_elem_of_fmap.
      apply (Hrows r' Hr'). rewrite fmap_app, <- Heq. apply elem_of_app.
      right. left.
    + intros r' [->|Hr']%elem_of_cons; [done|].
      intros Hin. apply (Hrows r' Hr'). rewrite fmap_app. apply elem_of_app.
      by left.
Qed.

Lemma executemany_fresh {A : Type} (key : A → string) (table rows : list A) :
  NoDup (key <$> rows) →
  (∀ r, r ∈ rows → key r ∉ key <$> table) →
  executemany key table rows = Some (table ++ rows).
Proof.
  revert table. induction rows as [|r rows IH]; intros table Hnd Hfresh;
    simpl.
  - by rewrite app_nil_r.
  - rewrite fmap_cons in Hnd. apply NoDup_cons in Hnd as [Hr Hnd].
    rewrite decide_False by (apply Hfresh; left).
    rewrite IH; [by rewrite <- (assoc_L (++))|done|].
    intros r' Hr'. rewrite fmap_app. intros [Hin|Hin]%elem_of_app.
    + apply (Hfresh r'); [by right|done].
    + apply list_elem_of_singleton in Hin. apply Hr. rewrite <- Hin.
      apply list_elem_of_fmap. by exists r'.
Qed.

Lemma numbered_keys {A : Type} (key : A → string) (prefix : string)
    (l : list nat) (rows : list A) :
  Forall2 (λ i r, key r = prefix +:+ pretty i) l rows →
  key <$> rows = (λ i : nat, prefix +:+ pretty i) <$> l.
Proof. induction 1 as [|i r l rows Hr _ IH]; [done|]. cbn. by rewrite Hr, IH. Qed.

Lemma numbered_NoDup (prefix : string) (l : list nat) :
  NoDup l → NoDup ((λ i : nat, prefix +:+ pretty i) <$> l).
Proof.
  apply NoDup_fmap_2. intros i j Heq.
  by apply (String.app_inj prefix), (inj pretty) in Heq.
Qed.

Lemma pretty_Z_of_nat (n : nat) : pretty (Z.of_nat n) = pretty n.
Proof. by destruct n. Qed.

Lemma seed_user_id (R : RandomModule) (i : nat) (s : Py.Rng * Clock) :
  Users.user_id (seed_user R i s).1 = "user_" +:+ pretty i.
Proof. unfold seed_user. by rewrite !Seeding_bind_eq. Qed.

Lemma seed_content_id (R : RandomModule) (i : nat) (s : Py.Rng * Clock)
    (now : Z) :
  Content.content_id ((seed_content R i s).1 now) = "content_" +:+ pretty i.
Proof. unfold seed_content. by rewrite !Seeding_bind_eq. Qed.

Lemma seed_event_id (R : RandomModule) (i : nat) (s : Py.Rng * Clock) :
  Events.event_id (seed_event R i s).1 = "event_" +:+ pretty i.
Proof. unfold seed_event. by rewrite !Seeding_bind_eq. Qed.

Lemma stamp_content_rows (tuples : list (Z → Content.row))
    (s : Py.Rng * Clock) :
  Forall2 (λ t c, ∃ now, c = t now) tuples (mapM stamp_content tuples s).1
  ∧ (mapM stamp_content tuples s).2.1 = s.1.
Proof.
  apply (mapM_Seeding_spec (λ s', s'.1 = s.1)); [|done].
  intros t s' Hs'. unfold stamp_content. rewrite Seeding_bind_eq.
  split; [by eexists|done].
Qed.

(** The two ways in which a call of [seed_database] returns. *)
Lemma seed_database_cases (R : RandomModule) (db db' : Store)
    (s s' : Py.Rng * Clock) :
  seed_database R db s = (Some db', s') →
  (users db ≠ [] ∧ db' = db ∧ s' = s)
  ∨ (users db = []
     ∧ ∃ s1 s2 s3 new_users tuples new_content new_events,
         mapM (seed_user R) (seq 1 100) s = (new_users, s1)
         ∧ mapM (seed_content R) (seq 1 200) s1 = (tuples, s2)
         ∧ mapM stamp_content tuples s2 = (new_content, s3)
         ∧ mapM (seed_event R) (seq 1 5000) s3 = (new_events, s')
         ∧ executemany Users.user_id (users db) new_users
           = Some (users db')
         ∧ executemany Content.content_id (content db) new_content
           = Some (content db')
         ∧ executemany Events.event_id (events db) new_events
           = Some (events db')
         ∧ recommendation_logs db' = recommendation_logs db).
Proof.
  unfold seed_database.
  destruct (decide (0 < length (users db))%nat) as [Hpos|Hzero].
  - intros [= <- <-]. left. split; [|done]. intros Hnil.
    rewrite Hnil in Hpos. simpl in Hpos. lia.
  - intros Hrun. right.
    split; [destruct (users db); [done|simpl in Hzero; lia]|].
    rewrite Seeding_bind_eq in Hrun.
    destruct (mapM (seed_user R) (seq 1 100) s) as [new_users s1] eqn:Mu.
    cbn [fst snd] in Hrun.
    destruct (executemany Users.user_id (users db) new_users)
      as [users'|] eqn:Eu; [|done].
    rewrite !Seeding_bind_eq in Hrun.
    destruct (mapM (seed_content R) (seq 1 200) s1) as [tuples s2] eqn:Mc.
    cbn [fst snd] in Hrun.
    destruct (mapM stamp_content tuples s2) as [new_content s3] eqn:Ms.
    cbn [fst snd] in Hrun.
    destruct (executemany Content.content_id (content db) new_content)
      as [content'|] eqn:Ec; [|done].
    rewrite !Seeding_bind_eq in Hrun.
    destruct (mapM (seed_event R) (seq 1 5000) s3) as [new_events s4] eqn:Me.
    cbn [fst snd] in Hrun.
    destruct (executemany Events.event_id (events db) new_events)
      as [events'|] eqn:Ee; [|done].
    injection Hrun as <- <-.
    exists s1, s2, s3, new_users, tuples, new_content, new_events.
    by repeat split.
Qed.

Lemma sample_size (R : RandomModule) (a b : Z) (g g' : Py.Rng) :
  random_contract R → (0 ≤ a)%Z → (a ≤ b ≤ 8)%Z →
  let l := (sample R interests_pool (Z.to_nat (randint R a b g).1) g').1 in
  l ⊆+ interests_pool ∧ (Z.to_nat a ≤ length l ≤ Z.to_nat b)%nat.
Proof.
  intros (Hint & _ & Hsa & _) Ha Hab. cbn zeta.
  pose proof (Hint a b g ltac:(lia)) as Hn.
  destruct (Hsa interests_pool (Z.to_nat (randint R a b g).1) g')
    as [Hsub Hlen].
  { change (length interests_pool) with 8%nat. lia. }
  split; [done|]. rewrite Hlen. lia.
Qed.

Lemma seed_user_spec (R : RandomModule) (i : nat) (s : Py.Rng * Clock) :
  random_contract R → unit_draws s.1 →
  seeded_user i (seed_user R i s).1 ∧ unit_draws (seed_user R i s).2.1.
Proof.
  intros HR Hs. pose proof HR as (Hint & Hch & Hsa & Uint & Uch & Usa).
  unfold seed_user, seeded_user. rewrite !Seeding_bind_eq, !draw_eq. cbn.
  split; [|by auto 10].
  split; [done|]. split; [by apply Hch|]. split; [by apply Hch|].
  split; [|done]. eexists. split; [done|].
  by apply (sample_size R 2 4).
Qed.

Lemma seed_title_spec (R : RandomModule) (i : nat) (s : Py.Rng * Clock) :
  random_contract R → unit_draws s.1 →
  (seed_title R i s).1 ∈ content_titles
  ∧ ((1 ≤ i ≤ 20)%nat →
     content_titles !! (i - 1)%nat = Some (seed_title R i s).1)
  ∧ unit_draws (seed_title R i s).2.1.
Proof.
  intros (Hint & Hch & Hsa & Uint & Uch & Usa) Hs. unfold seed_title.
  destruct (decide (20 < i)%nat) as [Hi|Hi].
  - rewrite draw_eq. cbn. split; [by apply Hch|]. split; [lia|by auto].
  - change (length content_titles) with 20%nat.
    rewrite decide_True by lia. cbn [mret Seeding_ret fst snd].
    destruct (content_titles !! (i - 1)%nat) as [t|] eqn:Ht.
    + split; [by eapply list_elem_of_lookup_2|done].
    + apply lookup_ge_None in Ht.
      change (length content_titles) with 20%nat in Ht. lia.
Qed.

Lemma uniform_unit (g : Py.Rng) :
  unit_draws g →
  0 <= (Py.uniform 0.0 1.0 g).1 < 1 ∧ unit_draws (Py.uniform 0.0 1.0 g).2.
Proof.
  intros Hg. unfold Py.uniform, Py.random. cbn [fst snd].
  pose proof (Hg (Py.pos g)) as [H0 H1]. split; [split; lra|].
  intros i. apply Hg.
Qed.

Lemma seed_content_spec (R : RandomModule) (i : nat) (s : Py.Rng * Clock)
    (now : Z) :
  random_contract R → unit_draws s.1 →
  (seeded_content i ((seed_content R i s).1 now)
   ∧ ((1 ≤ i ≤ 20)%nat →
      content_titles !! (i - 1)%nat
      = Some (Content.title ((seed_content R i s).1 now))))
  ∧ unit_draws (seed_content R i s).2.1.
Proof.
  intros HR Hs. pose proof HR as (Hint & Hch & Hsa & Uint & Uch & Usa).
  destruct (seed_title_spec R i s HR Hs) as (Ht & Ht20 & Hs1).
  unfold seed_content, seeded_content.
  rewrite !Seeding_bind_eq, !draw_eq.
  cbn [fst snd mret Seeding_ret Content.content_id Content.title
       Content.description Content.content_type Content.difficulty
       Content.tags Content.duration_minutes Content.popularity_score].
  set (s1 := (seed_title R i s).2) in *.
  set (g2 := (choice R content_types s1.1).2).
  set (g3 := (choice R difficulties g2).2).
  set (g4 := (randint R 1 3 g3).2).
  set (g5 := (sample R interests_pool (Z.to_nat (randint R 1 3 g3).1) g4).2).
  set (g6 := (randint R 10 240 g5).2).
  assert (unit_draws g6) as Hg6 by (unfold g6, g5, g4, g3, g2; auto 10).
  destruct (uniform_unit g6 Hg6) as [Hpop Hg7].
  split; [|done]. split; [|done].
  split; [done|]. split; [done|]. split; [done|].
  split; [by apply Hch|]. split; [by apply Hch|].
  split; [eexists; split; [done|]; by apply (sample_size R 1 3)|].
  split; [by apply Hint|done].
Qed.

Lemma randint_numbered (R : RandomModule) (prefix : string) (b : Z)
    (g : Py.Rng) :
  random_contract R → (1 ≤ b)%Z →
  ∃ n : nat, (1 ≤ n ≤ Z.to_nat b)%nat
             ∧ prefix +:+ pretty (randint R 1 b g).1 = prefix +:+ pretty n.
Proof.
  intros (Hint & _) Hb. pose proof (Hint 1%Z b g Hb) as Hn.
  exists (Z.to_nat (randint R 1 b g).1). split; [lia|].
  by rewrite <- pretty_Z_of_nat, Z2Nat.id by lia.
Qed.

Lemma seed_event_spec (R : RandomModule) (i : nat) (s : Py.Rng * Clock) :
  random_contract R → unit_draws s.1 →
  seeded_event i (seed_event R i s).1 ∧ unit_draws (seed_event R i s).2.1.
Proof.
  intros HR Hs. pose proof HR as (Hint & Hch & Hsa & Uint & Uch & Usa).
  unfold seed_event, seeded_event.
  rewrite !Seeding_bind_eq, !draw_eq.
  cbn [fst snd mret Seeding_ret Events.event_id Events.user_id
       Events.content_id Events.event_type Events.value Events.session_id].
  set (g1 := (randint R 1 100 s.1).2).
  set (g2 := (randint R 1 200 g1).2).
  set (t := (choice R event_types g2).1).
  set (g3 := (choice R event_types g2).2).
  assert (unit_draws g3) as Hg3 by (unfold g3, g2, g1; auto 10).
  destruct (decide (t = "quiz_score")) as [Hq|Hq].
  - rewrite Seeding_bind_eq, draw_eq.
    cbn [fst snd mret Seeding_ret Events.event_id Events.user_id
         Events.content_id Events.event_type Events.value Events.session_id
         datetime_now].
    split; [|by auto 10].
    split; [done|].
    split; [by apply (randint_numbered R "user_" 100)|].
    split; [by apply (randint_numbered R "content_" 200)|].
    split; [by apply Hch|].
    split; [eexists; split; [|done]; by apply Hint|].
    destruct (randint_numbered R "session_" 1000
                (randint R 60 100 g3).2 HR ltac:(lia)) as (n & Hn & Heq).
    exists n. split; [done|]. by rewrite Heq.
  - cbn [fst snd mret Seeding_ret Events.event_id Events.user_id
         Events.content_id Events.event_type Events.value Events.session_id
         datetime_now].
    split; [|by auto 10].
    split; [done|].
    split; [by apply (randint_numbered R "user_" 100)|].
    split; [by apply (randint_numbered R "content_" 200)|].
    split; [by apply Hch|]. split; [done|].
    destruct (randint_numbered R "session_" 1000 g3 HR ltac:(lia))
      as (n & Hn & Heq).
    exists n. split; [done|]. by rewrite Heq.
Qed.

Lemma Forall2_compose {A B C : Type} (P : A → B → Prop) (Q : B → C → Prop)
    (l : list A) (k : list B) (m : list C) :
  Forall2 P l k → Forall2 Q k m →
  Forall2 (λ a c, ∃ b, P a b ∧ Q b c) l m.
Proof.
  intros Hlk. revert m. induction Hlk as [|a b l k Hab _ IH]; intros m Hkm.
  - apply Forall2_nil_inv_l in Hkm as ->. constructor.
  - apply Forall2_cons_inv_l in Hkm as (c & m' & Hbc & Hkm & ->).
    constructor; [by exists b|by apply IH].
Qed.

Lemma mapM_Seeding_length {A B : Type} (f : A → Seeding B) (l : list A)
    (s : Py.Rng * Clock) :
  length (mapM f l s).1 = length l.
Proof.
  symmetry. eapply Forall2_length.
  by apply (mapM_Seeding_rows (λ _ _, True)).
Qed.

Lemma seed_users_ids (R : RandomModule) (l : list nat) (s : Py.Rng * Clock) :
  Users.user_id <$> (mapM (seed_user R) l s).1
  = (λ i : nat, "user_" +:+ pretty i) <$> l.
Proof.
  apply numbered_keys, mapM_Seeding_rows. intros. apply seed_user_id.
Qed.

Lemma seed_content_ids (R : RandomModule) (l : list nat)
    (s s' : Py.Rng * Clock) :
  Content.content_id
    <$> (mapM stamp_content (mapM (seed_content R) l s).1 s').1
  = (λ i : nat, "content_" +:+ pretty i) <$> l.
Proof.
  apply numbered_keys.
  eapply Forall2_impl;
    [eapply Forall2_compose;
      [apply (mapM_Seeding_rows
                (λ (i : nat) (t : Z → Content.row),
                   ∀ now, Content.content_id (t now)
                          = "content_" +:+ pretty i));
       intros; apply seed_content_id
      |apply stamp_content_rows]|].
  intros i c (t & Ht & now & ->). apply Ht.
Qed.

Lemma seed_events_ids (R : RandomModule) (l : list nat)
    (s : Py.Rng * Clock) :
  Events.event_id <$> (mapM (seed_event R) l s).1
  = (λ i : nat, "event_" +:+ pretty i) <$> l.
Proof.
  apply numbered_keys, mapM_Seeding_rows. intros. apply seed_event_id.
Qed.

Lemma executemany_empty {A : Type} (key : A → string) (prefix : string)
    (l : list nat) (rows : list A) :
  key <$> rows = (λ i : nat, prefix +:+ pretty i) <$> l → NoDup l →
  executemany key [] rows = Some rows.
Proof.
  intros Hkeys Hl.
  rewrite executemany_fresh; [done| |intros r _; apply not_elem_of_nil].
  rewrite Hkeys. by apply numbered_NoDup.
Qed.

(** On a store with empty tables the seeding returns. *)
Lemma seed_database_returns (R : RandomModule) (db : Store)
    (s : Py.Rng * Clock) :
  users db = [] → content db = [] → events db = [] →
  ∃ db' s', seed_database R db s = (Some db', s').
Proof.
  intros Hu Hc He. unfold seed_database. rewrite Hu, Hc, He.
  rewrite decide_False by (simpl; lia).
  rewrite Seeding_bind_eq.
  rewrite (executemany_empty _ "user_" (seq 1 100));
    [|apply seed_users_ids|apply NoDup_seq].
  rewrite !Seeding_bind_eq.
  rewrite (executemany_empty _ "content_" (seq 1 200));
    [|apply seed_content_ids|apply NoDup_seq].
  rewrite !Seeding_bind_eq.
  rewrite (executemany_empty _ "event_" (seq 1 5000));
    [|apply seed_events_ids|apply NoDup_seq].
  by eexists _, _.
Qed.

Lemma seed_title_fixed (R : RandomModule) (i : nat) (s : Py.Rng * Clock) :
  (1 ≤ i ≤ 20)%nat →
  content_titles !! (i - 1)%nat = Some (seed_title R i s).1.
Proof.
  intros Hi. unfold seed_title. rewrite decide_False by lia.
  change (length content_titles) with 20%nat.
  rewrite decide_True by lia. cbn [mret Seeding_ret fst].
  destruct (content_titles !! (i - 1)%nat) as [t|] eqn:Ht; [done|].
  apply lookup_ge_None in Ht.
  change (length content_titles) with 20%nat in Ht. lia.
Qed.

Lemma seed_content_titles (R : RandomModule) (l : list nat)
    (s s' : Py.Rng * Clock) :
  Forall2 (λ (j : nat) (c : Content.row),
             (1 ≤ j ≤ 20)%nat →
             content_titles !! (j - 1)%nat = Some (Content.title c))
          l (mapM stamp_content (mapM (seed_content R) l s).1 s').1.
Proof.
  pose proof (mapM_Seeding_rows
                (λ (j : nat) (t : Z → Content.row),
                   (1 ≤ j ≤ 20)%nat →
                   ∀ now, content_titles !! (j - 1)%nat
                          = Some (Content.title (t now)))
                (seed_content R)) as Hts.
  eapply Forall2_impl;
    [eapply Forall2_compose; [apply Hts|apply stamp_content_rows]|].
  - intros j s0 Hj now. unfold seed_content. rewrite !Seeding_bind_eq.
    cbn [Content.title mret Seeding_ret fst]. by apply seed_title_fixed.
  - intros j c' (t & Ht & now & ->) Hj. by apply Ht.
Qed.

(** X18. A call of [seed_database] that returns on a store with a user
    returns that store without a draw and without reading the clock; on a
    store without users it adds 100 users. So a second call, with whatever
    generator, changes nothing. Rows that were in the tables stay in their
    places, and the recommendation log is not touched. *)
Theorem X18_seed_database_once (R : RandomModule) (db db' : Store)
    (s s' : Py.Rng * Clock) :
  seed_database R db s = (Some db', s') →
  (users db ≠ [] → db' = db ∧ s' = s)
  ∧ (users db = [] → length (users db') = 100%nat)
  ∧ (∀ R2 s2, seed_database R2 db' s2 = (Some db', s2))
  ∧ users db `prefix_of` users db'
  ∧ content db `prefix_of` content db'
  ∧ events db `prefix_of` events db'
  ∧ recommendation_logs db' = recommendation_logs db.
Proof.
  intros Hrun.
  assert (∀ db0 R2 s2, users db0 ≠ [] →
                       seed_database R2 db0 s2 = (Some db0, s2)) as Hguard.
  { intros db0 R2 s2 Hne. unfold seed_database. rewrite decide_True; [done|].
    destruct (users db0); [done|simpl; lia]. }
  apply seed_database_cases in Hrun
    as [(Hne & -> & ->)
       |(Hnil & s1 & s2 & s3 & us & ts & cs & es & Mu & Mc & Ms & Me
         & [Eu _]%executemany_Some & [Ec _]%executemany_Some
         & [Ee _]%executemany_Some & Hlogs)].
  - split; [done|]. split; [done|]. split; [by intros; apply Hguard|].
    by repeat split.
  - assert (length us = 100%nat) as Hlen.
    { pose proof (mapM_Seeding_length (seed_user R) (seq 1 100) s) as Hl.
      rewrite Mu in Hl. cbn [fst] in Hl. by rewrite Hl, length_seq. }
    split; [done|].
    split; [intros _; by rewrite Eu, Hnil|].
    split.
    { intros R2 s2'. apply Hguard. rewrite Eu, Hnil. by destruct us. }
    split; [by exists us|]. split; [by exists cs|]. split; [by exists es|].
    done.
Qed.

(** X19. On a store with empty tables (as [init_database] leaves them)
    [seed_database] returns, whatever the functions of [random] give: the
    store then holds the users [user_1] to [user_100], the content items
    [content_1] to [content_200] and the events [event_1] to [event_5000],
    in this order, and the first twenty content items carry the twenty
    titles of [content_titles] in their order. *)
Theorem X19_seed_database_fresh (R : RandomModule) (db : Store)
    (s : Py.Rng * Clock) :
  users db = [] → content db = [] → events db = [] →
  ∃ db' s',
    seed_database R db s = (Some db', s')
    ∧ Users.user_id <$> users db'
      = (λ i : nat, "user_" +:+ pretty i) <$> seq 1 100
    ∧ Content.content_id <$> content db'
      = (λ i : nat, "content_" +:+ pretty i) <$> seq 1 200
    ∧ Events.event_id <$> events db'
      = (λ i : nat, "event_" +:+ pretty i) <$> seq 1 5000
    ∧ (∀ i c, (i < 20)%nat → content db' !! i = Some c →
              content_titles !! i = Some (Content.title c)).
Proof.
  intros Hu Hc He.
  destruct (seed_database_returns R db s Hu Hc He) as (db' & s' & Hrun).
  exists db', s'. split; [done|].
  apply seed_database_cases in Hrun
    as [(Hne & _)
       |(_ & s1 & s2 & s3 & us & ts & cs & es & Mu & Mc & Ms & Me
         & [Eu _]%executemany_Some & [Ec _]%executemany_Some
         & [Ee _]%executemany_Some & Hlogs)]; [done|].
  rewrite Hu in Eu. rewrite Hc in Ec. rewrite He in Ee.
  cbn [app] in Eu, Ec, Ee. rewrite Eu, Ec, Ee.
  pose proof (seed_users_ids R (seq 1 100) s) as Hus. rewrite Mu in Hus.
  pose proof (seed_content_ids R (seq 1 200) s1 s2) as Hcs.
  rewrite Mc in Hcs. cbn [fst] in Hcs. rewrite Ms in Hcs.
  pose proof (seed_events_ids R (seq 1 5000) s3) as Hes. rewrite Me in Hes.
  cbn [fst] in Hus, Hcs, Hes.
  split; [done|]. split; [done|]. split; [done|].
  intros i c Hi Hlook.
  pose proof (seed_content_titles R (seq 1 200) s1 s2) as Htitles.
  rewrite Mc in Htitles. cbn [fst] in Htitles. rewrite Ms in Htitles.
  cbn [fst] in Htitles.
  assert (seq 1 200 !! i = Some (S i)) as Hseq
    by (rewrite lookup_seq_lt; [done|lia]).
  pose proof (Forall2_lookup_lr _ _ _ _ _ _ Htitles Hseq Hlook) as Ht.
  cbn in Ht. rewrite Nat.sub_0_r in Ht. apply Ht. lia.
Qed.

Lemma executemany_NoDup {A : Type} (key : A → string) (table rows t : list A) :
  executemany key table rows = Some t →
  NoDup (key <$> table) → NoDup (key <$> t).
Proof.
  intros (-> & Hnd & Hfresh)%executemany_Some Htable.
  rewrite fmap_app. apply NoDup_app. split; [done|]. split; [|done].
  intros k Hk (r & -> & Hr)%list_elem_of_fmap. by apply (Hfresh r).
Qed.

(** The rows of a call of [seed_database] that seeds. *)
Lemma seed_database_rows (R : RandomModule) (db db' : Store)
    (s s' : Py.Rng * Clock) :
  random_contract R → unit_draws s.1 → users db = [] →
  seed_database R db s = (Some db', s') →
  ∃ cs es,
    Forall2 seeded_user (seq 1 100) (users db')
    ∧ content db' = content db ++ cs
    ∧ Forall2 seeded_content (seq 1 200) cs
    ∧ events db' = events db ++ es
    ∧ Forall2 seeded_event (seq 1 5000) es
    ∧ unit_draws s'.1.
Proof.
  intros HR Hs Hu Hrun.
  apply seed_database_cases in Hrun
    as [(Hne & _)
       |(_ & s1 & s2 & s3 & us & ts & cs & es & Mu & Mc & Ms & Me
         & [Eu _]%executemany_Some & [Ec _]%executemany_Some
         & [Ee _]%executemany_Some & Hlogs)]; [done|].
  rewrite Hu in Eu. cbn [app] in Eu.
  destruct (mapM_Seeding_spec (λ s, unit_draws s.1) seeded_user
              (seed_user R) (λ i s0, seed_user_spec R i s0 HR)
              (seq 1 100) s Hs) as [Hus Hs1].
  rewrite Mu in Hus, Hs1. cbn [fst snd] in Hus, Hs1.
  destruct (mapM_Seeding_spec (λ s, unit_draws s.1)
              (λ (i : nat) (t : Z → Content.row),
                 ∀ now, seeded_content i (t now))
              (seed_content R)) with (l := seq 1 200) (s := s1)
    as [Hts Hs2]; [|done|].
  { intros i s0 Hs0. split.
    - intros now. by apply seed_content_spec.
    - by apply (seed_content_spec R i s0 0%Z). }
  rewrite Mc in Hts, Hs2. cbn [fst snd] in Hts, Hs2.
  destruct (stamp_content_rows ts s2) as [Hcs Hs3].
  rewrite Ms in Hcs, Hs3. cbn [fst snd] in Hcs, Hs3.
  destruct (mapM_Seeding_spec (λ s, unit_draws s.1) seeded_event
              (seed_event R) (λ i s0, seed_event_spec R i s0 HR)
              (seq 1 5000) s3) as [Hes Hs4]; [by rewrite Hs3|].
  rewrite Me in Hes, Hs4. cbn [fst snd] in Hes, Hs4.
  exists cs, es. rewrite Eu. split; [done|]. split; [done|].
  split; [|done].
  eapply Forall2_impl; [eapply Forall2_compose; [exact Hts|exact Hcs]|].
  intros i c (t & Ht & now & ->). apply Ht.
Qed.

Lemma numbered_elem (prefix : string) (n u : nat) :
  (1 ≤ u ≤ n)%nat →
  prefix +:+ pretty u ∈ (λ i : nat, prefix +:+ pretty i) <$> seq 1 n.
Proof.
  intros Hu. apply list_elem_of_fmap. exists u. split; [done|].
  apply elem_of_seq. lia.
Qed.

Lemma Forall2_Forall_r {A B : Type} (P : A → B → Prop) (Q : B → Prop)
    (l : list A) (k : list B) :
  Forall2 P l k → (∀ a b, P a b → Q b) → Forall Q k.
Proof. induction 1; intros HPQ; constructor; eauto. Qed.

(** X20. A call of [seed_database] that returns keeps the three invariants
    of the store and the range of the generator's draws: the primary keys
    stay distinct, every event refers to a user and a content item of the
    store, and no popularity is negative. This holds for every behaviour of
    [randint], [choice] and [sample] that their documentation allows. *)
Theorem X20_seed_database_invariants (R : RandomModule) (db db' : Store)
    (s s' : Py.Rng * Clock) :
  random_contract R → unit_draws s.1 →
  seed_database R db s = (Some db', s') →
  unique_keys db → references_exist db → popularity_nonneg db →
  unique_keys db' ∧ references_exist db' ∧ popularity_nonneg db'
  ∧ unit_draws s'.1.
Proof.
  intros HR Hs Hrun (Ku & Kc & Ke & Kl) Href Hpop.
  destruct (decide (users db = [])) as [Hu|Hu].
  - destruct (seed_database_rows R db db' s s' HR Hs Hu Hrun)
      as (cs & es & Hus & Ec & Hcs & Ee & Hes & Hs').
    apply seed_database_cases in Hrun
      as [(Hne & _)
         |(_ & s1 & s2 & s3 & us & ts & cs' & es' & Mu & Mc & Ms & Me
           & Xu & Xc & Xe & Hlogs)]; [done|].
    assert (Users.user_id <$> users db'
            = (λ i : nat, "user_" +:+ pretty i) <$> seq 1 100) as Hids.
    { apply numbered_keys. eapply Forall2_impl; [exact Hus|].
      by intros i u (Hid & _). }
    assert (Content.content_id <$> cs
            = (λ i : nat, "content_" +:+ pretty i) <$> seq 1 200) as Hcids.
    { apply numbered_keys. eapply Forall2_impl; [exact Hcs|].
      by intros i c (Hid & _). }
    split; [|split; [|split; [|done]]].
    + split; [by eapply executemany_NoDup|].
      split; [by eapply executemany_NoDup|].
      split; [by eapply executemany_NoDup|]. by rewrite Hlogs.
    + intros e. rewrite Ee. intros [He|He]%elem_of_app.
      * destruct (Href e He) as [Hin _]. rewrite Hu in Hin.
        by apply elem_of_nil in Hin.
      * assert (Forall (λ e, ∃ i, seeded_event i e) es) as Hall
          by (eapply Forall2_Forall_r; [exact Hes|by eauto]).
        rewrite Forall_forall in Hall.
        destruct (Hall e He)
          as (i & _ & (u & Hu1 & ->) & (c & Hc1 & ->) & _).
        split; [rewrite Hids; by apply numbered_elem|].
        rewrite Ec, fmap_app, Hcids. apply elem_of_app. right.
        by apply numbered_elem.
    + unfold popularity_nonneg. rewrite Ec. apply Forall_app.
      split; [done|].
      eapply Forall2_Forall_r; [exact Hcs|].
      intros i c (_ & _ & _ & _ & _ & _ & _ & Hp & _). exact Hp.
  - apply seed_database_cases in Hrun as [(_ & -> & ->)|(Hnil & _)]; done.
Qed.

Lemma submseteq_NoDup {A : Type} (l k : list A) :
  l ⊆+ k → NoDup k → NoDup l.
Proof.
  intros (k' & Hsub & Hperm)%submseteq_sublist_l Hk.
  eapply sublist_NoDup; [|exact Hsub]. by rewrite Hperm.
Qed.

Lemma interests_pool_NoDup : NoDup interests_pool.
Proof. apply (bool_decide_unpack _). by vm_compute. Qed.

Lemma interests_pool_no_sep : Forall (no_sep ",") interests_pool.
Proof. unfold interests_pool. repeat constructor; done. Qed.

(** A sample of the pool, joined for the column and split again. *)
Lemma pool_sample_parsed (l : list string) (lo hi : nat) :
  l ⊆+ interests_pool → (lo ≤ length l ≤ hi)%nat →
  NoDup (parse_tags (Py.join "," l))
  ∧ parse_tags (Py.join "," l) ⊆ interests_pool
  ∧ (lo ≤ length (parse_tags (Py.join "," l)) ≤ hi)%nat.
Proof.
  intros Hsub Hlen.
  assert (∀ x, x ∈ l → x ∈ interests_pool) as Hin
    by (intros x Hx; by eapply elem_of_submseteq).
  rewrite parse_tags_join_any.
  - split; [by eapply submseteq_NoDup, interests_pool_NoDup|]. by split.
  - apply Forall_forall. intros x Hx.
    pose proof interests_pool_no_sep as Hpool. rewrite Forall_forall in Hpool.
    by apply Hpool, Hin.
  - intros ->. specialize (Hin "" ltac:(left)).
    revert Hin. apply (bool_decide_unpack _). by vm_compute.
Qed.

Lemma seeded_difficulty (user_skill difficulty : string) :
  user_skill ∈ skill_levels → difficulty ∈ difficulties →
  is_Some (difficulty_match !! user_skill ≫= (.!! difficulty))
  ∧ 0.2 <= difficulty_factor user_skill difficulty.
Proof.
  unfold skill_levels, difficulties, difficulty_factor.
  rewrite !elem_of_cons, !elem_of_nil.
  intros [->|[->|[->|[]]]] [->|[->|[->|[]]]]; vm_compute; split;
    by (eexists || discriminate).
Qed.

(** X21. After a seeding of a store without users and content, every user
    has two to four interests and every content item one to three tags,
    distinct and from the pool of eight, which the handler's [split] of the
    stored column gives back; the skill level and the difficulty are keys of
    the difficulty table, so that the table's default is never used. Hence
    the tag overlap of a seeded user and a seeded content item is at most 3
    and its contribution to the score at most 0.9, and a seeded popularity
    lies in [[0, 1)]. *)
Theorem X21_seeded_profiles (R : RandomModule) (db db' : Store)
    (s s' : Py.Rng * Clock) (u : Users.row) (c : Content.row) :
  random_contract R → unit_draws s.1 →
  users db = [] → content db = [] →
  seed_database R db s = (Some db', s') →
  u ∈ users db' → c ∈ content db' →
  (NoDup (parse_tags (Users.interests u))
   ∧ parse_tags (Users.interests u) ⊆ interests_pool
   ∧ (2 ≤ length (parse_tags (Users.interests u)) ≤ 4)%nat)
  ∧ (NoDup (parse_tags (Content.tags c))
     ∧ parse_tags (Content.tags c) ⊆ interests_pool
     ∧ (1 ≤ length (parse_tags (Content.tags c)) ≤ 3)%nat)
  ∧ is_Some (difficulty_match !! Users.skill_level u
             ≫= (.!! Content.difficulty c))
  ∧ 0.2 <= difficulty_factor (Users.skill_level u) (Content.difficulty c)
  ∧ (overlap_count u c ≤ 3)%nat
  ∧ tag_contribution u c <= 0.9
  ∧ 0 <= Content.popularity_score c < 1.
Proof.
  intros HR Hs Hu Hc Hrun Hin_u Hin_c.
  destruct (seed_database_rows R db db' s s' HR Hs Hu Hrun)
    as (cs & es & Hus & Ec & Hcs & _).
  rewrite Hc in Ec. cbn [app] in Ec. rewrite <- Ec in Hcs.
  assert (Forall (λ u, ∃ i, seeded_user i u) (users db')) as Hall_u
    by (eapply Forall2_Forall_r; [exact Hus|by eauto]).
  assert (Forall (λ c, ∃ i, seeded_content i c) (content db')) as Hall_c
    by (eapply Forall2_Forall_r; [exact Hcs|by eauto]).
  rewrite Forall_forall in Hall_u. rewrite Forall_forall in Hall_c.
  destruct (Hall_u u Hin_u)
    as (i & _ & _ & Hskill & (lu & Hlu & Hsub_u & Hlen_u) & _).
  destruct (Hall_c c Hin_c)
    as (j & _ & _ & _ & _ & Hdiff & (lc & Hlc & Hsub_c & Hlen_c) & _ & Hpop).
  pose proof (pool_sample_parsed lu 2 4 Hsub_u Hlen_u) as Hpu.
  pose proof (pool_sample_parsed lc 1 3 Hsub_c Hlen_c) as Hpc.
  rewrite <- Hlu in Hpu. rewrite <- Hlc in Hpc.
  destruct (seeded_difficulty _ _ Hskill Hdiff) as [Htable Hfactor].
  assert (overlap_count u c ≤ 3)%nat as Hover.
  { unfold overlap_count.
    pose proof (tag_overlap_le (parse_tags (Users.interests u))
                               (parse_tags (Content.tags c))). lia. }
  split; [done|]. split; [done|]. split; [done|]. split; [done|].
  split; [done|]. split; [|done].
  unfold tag_contribution. rewrite content_based_scoring_score.
  fold (overlap_count u c). cbn [fst].
  assert (inject_Z (Z.of_nat (overlap_count u c)) <= inject_Z 3) as H3
    by (rewrite <- Zle_Qle; lia).
  change (inject_Z 3) with 3 in H3. lra.
Qed.

Lemma quiz_values_seeded (db : Store) (uid : string) :
  Forall (λ e, if decide (Events.event_type e = "quiz_score")
               then ∃ v : Z, (60 ≤ v ≤ 100)%Z
                             ∧ Events.value e = Some (inject_Z v)
               else Events.value e = None) (events db) →
  Forall (λ v, 60 <= v <= 100) (quiz_values db uid)
  ∧ length (quiz_values db uid)
    = length (filter (λ e, Events.user_id e = uid
                           ∧ Events.event_type e = "quiz_score") (events db)).
Proof.
  unfold quiz_values. induction 1 as [|e es He _ [IH1 IH2]]; [by split|].
  rewrite filter_cons.
  destruct (decide (Events.user_id e = uid
                    ∧ Events.event_type e = "quiz_score")) as [[_ Hq]|_];
    [|by split].
  rewrite decide_True in He by done. destruct He as (v & Hv & Hval).
  cbn. rewrite Hval. cbn. split; [|by rewrite IH2].
  constructor; [|done].
  assert (inject_Z 60 <= inject_Z v <= inject_Z 100) as Hq'
    by (rewrite <- !Zle_Qle; lia).
  exact Hq'.
Qed.

(** X22. After a seeding of a store without users and events, an event has
    a value exactly when it is a quiz event, and the value is then an
    integer from 60 to 100; so the average quiz score of the user analytics
    is [0.0] for a user without quiz events and lies in [[60, 100]] for
    every other user. *)
Theorem X22_seeded_quiz_scores (R : RandomModule) (db db' : Store)
    (s s' : Py.Rng * Clock) (uid : string) :
  random_contract R → unit_draws s.1 →
  users db = [] → events db = [] →
  seed_database R db s = (Some db', s') →
  (∀ e, e ∈ events db' →
        Events.event_type e ∈ event_types
        ∧ (Events.event_type e = "quiz_score" →
           ∃ v : Z, (60 ≤ v ≤ 100)%Z ∧ Events.value e = Some (inject_Z v))
        ∧ (Events.event_type e ≠ "quiz_score" → Events.value e = None))
  ∧ (filter (λ e, Events.user_id e = uid
                  ∧ Events.event_type e = "quiz_score") (events db') = [] →
     avg_quiz_score db' uid = 0.0)
  ∧ (filter (λ e, Events.user_id e = uid
                  ∧ Events.event_type e = "quiz_score") (events db') ≠ [] →
     60 <= avg_quiz_score db' uid <= 100).
Proof.
  intros HR Hs Hu He Hrun.
  destruct (seed_database_rows R db db' s s' HR Hs Hu Hrun)
    as (cs & es & _ & _ & _ & Ee & Hes & _).
  rewrite He in Ee. cbn [app] in Ee. rewrite <- Ee in Hes.
  assert (Forall (λ e, ∃ i, seeded_event i e) (events db')) as Hall
    by (eapply Forall2_Forall_r; [exact Hes|by eauto]).
  assert (Forall (λ e, if decide (Events.event_type e = "quiz_score")
                       then ∃ v : Z, (60 ≤ v ≤ 100)%Z
                                     ∧ Events.value e = Some (inject_Z v)
                       else Events.value e = None) (events db')) as Hval.
  { eapply Forall_impl; [exact Hall|].
    by intros e (i & _ & _ & _ & _ & Hv & _). }
  destruct (quiz_values_seeded db' uid Hval) as [Hrange Hlen].
  split; [|split].
  - intros e Hin. rewrite Forall_forall in Hall. rewrite Forall_forall in Hval.
    destruct (Hall e Hin) as (i & _ & _ & _ & Ht & _).
    specialize (Hval e Hin). split; [done|].
    destruct (decide (Events.event_type e = "quiz_score")); by split.
  - intros Hnone. rewrite Hnone in Hlen.
    apply nil_length_inv in Hlen.
    unfold avg_quiz_score, avg_score_row. by rewrite Hlen.
  - intros Hsome. apply avg_quiz_score_between; [|done].
    intros Hnil. rewrite Hnil in Hlen. symmetry in Hlen.
    by apply nil_length_inv in Hlen.
Qed.

Lemma random_first_contract : random_contract random_first.
Proof.
  unfold random_contract, random_first. cbn.
  split; [intros; lia|]. split.
  { intros [|x l] g Hne; [done|]. left. }
  split.
  { intros population k g Hk. split.
    - apply sublist_submseteq, sublist_take.
    - by rewrite length_take_le. }
  split; [by intros|]. split; by intros.
Qed.

(** ** Completed content and the candidates of later requests *)

Lemma has_completed_app (db : Store) (evs : list Events.row)
    (users' : list Users.row) (content' : list Content.row)
    (logs' : list RecommendationLogs.row) (uid cid : string) :
  has_completed {| users := users'; content := content';
                   events := events db ++ evs;
                   recommendation_logs := logs' |} uid cid
  ↔ has_completed db uid cid
    ∨ ∃ e, e ∈ evs ∧ Events.user_id e = uid ∧ Events.content_id e = cid
           ∧ Events.event_type e = "complete".
Proof.
  unfold has_completed. cbn [events]. split.
  - intros (e & [He|He]%elem_of_app & Hrest); [left|right]; by exists e.
  - intros [(e & He & Hrest)|(e & He & Hrest)]; exists e;
      (split; [apply elem_of_app; by auto|done]).
Qed.

Lemma request_step_has_completed (db db' : Store) (uid cid : string) :
  request_step db db' → has_completed db uid cid → has_completed db' uid cid.
Proof.
  intros [Hstep|Hstep] Hdone.
  - apply ingest_step_shape in Hstep as (event_id & now & event & _ & _ & _ & ->).
    apply has_completed_app. by left.
  - apply serve_step_shape in Hstep as (logs' & -> & _). exact Hdone.
Qed.

Lemma recommended_is_eligible (db : Store) (g : Py.Rng) (now latency : Z)
    (uid : string) (k : Z) (strategy : Strategy)
    (resp : RecommendationResponse.t) (db' : Store) (g' : Py.Rng)
    (r : Recommendation.t) :
  get_recommendations db g now latency uid k strategy = (inr resp, db', g') →
  r ∈ RecommendationResponse.recommendations resp →
  ∃ c, c ∈ eligible db uid
       ∧ Recommendation.content_id r = Content.content_id c.
Proof.
  intros (_ & user & new & _ & -> & _)%get_recommendations_inr Hr.
  cbn [RecommendationResponse.recommendations] in Hr.
  destruct (top_recs_spec db g now user uid k strategy)
    as (scored & Hscored & Htop).
  rewrite Htop in Hr.
  assert (r ∈ scored) as Hr'.
  { rewrite <- (sort_by_score_perm scored).
    eapply elem_of_sublist; [exact Hr|apply sublist_take]. }
  apply list_elem_of_lookup in Hr' as [i Hi].
  destruct (Forall2_lookup_r _ _ _ _ _ Hscored Hi) as (c & Hc & Hfrom).
  exists c. split; [by eapply list_elem_of_lookup_2|].
  by eapply scored_from_content_id.
Qed.

Lemma eligible_ids_filter (db : Store) (uid : string) :
  Content.content_id <$> eligible db uid
  = filter (λ cid, already_completed (user_history db uid) cid = false)
           (Content.content_id <$> content db).
Proof.
  unfold eligible. induction (content db) as [|c cs IH]; [done|].
  rewrite fmap_cons, !filter_cons.
  destruct (decide (already_completed (user_history db uid)
                                      (Content.content_id c) = false));
    by rewrite ?fmap_cons, IH.
Qed.

(** X23. What an ingested event does to the candidates of the recommender:
    after a successful [log_event] the candidates of a user are those from
    before, in the same order, without the content of the event when the
    event is a [complete] of that very user. An event of another type, or of
    another user, takes no candidate away, and no event adds one. *)
Theorem X23_event_and_candidates (db : Store) (g : Py.Rng) (now : Z)
    (event : EventCreate.t) (resp : EventResponse.t) (db' : Store)
    (g' : Py.Rng) (uid : string) :
  log_event db g now event = (inr resp, db', g') →
  Content.content_id <$> eligible db' uid
  = filter (λ cid, ¬ (uid = EventCreate.user_id event
                      ∧ cid = EventCreate.content_id event
                      ∧ EventCreate.event_type event = "complete"))
           (Content.content_id <$> eligible db uid).
Proof.
  intros Hrun.
  destruct (log_event_cases db g now event)
    as [[_ H]|[(_ & _ & H)|[(_ & _ & _ & H)|(_ & _ & _ & H)]]];
    rewrite Hrun in H; cbn [fst] in H; try discriminate H.
  injection H as _ ->.
  rewrite !eligible_ids_filter. cbn [content].
  rewrite update_popularity_ids, list_filter_filter.
  apply list_filter_iff. intros cid.
  rewrite <- !not_true_iff_false, !already_completed_spec, has_completed_app.
  split.
  - intros Hnot. split.
    + intros (Hu & Hc & Ht). apply Hnot. right.
      eexists. split; [left|]. by cbn.
    + intros Hdone. apply Hnot. by left.
  - intros [Hnew Hold] [Hdone|(e & He & Hu & Hc & Ht)]; [done|].
    apply list_elem_of_singleton in He as ->. cbn in Hu, Hc, Ht.
    by apply Hnew.
Qed.

(** X24. Once a user's [complete] event for a content item is ingested, no
    later request of that user is answered with this item, whatever events
    are ingested and whatever requests are served in between. *)
Theorem X24_completed_never_again (db db1 db2 db3 : Store) (g g1 g2 g3 : Py.Rng)
    (now now2 latency k : Z) (event : EventCreate.t) (strategy : Strategy)
    (resp1 : EventResponse.t) (resp : RecommendationResponse.t) :
  log_event db g now event = (inr resp1, db1, g1) →
  EventCreate.event_type event = "complete" →
  rtc request_step db1 db2 →
  get_recommendations db2 g2 now2 latency (EventCreate.user_id event) k
                      strategy = (inr resp, db3, g3) →
  EventCreate.content_id event
  ∉ Recommendation.content_id <$> RecommendationResponse.recommendations resp.
Proof.
  intros Hrun Htype Hsteps Hserve.
  assert (has_completed db1 (EventCreate.user_id event)
                        (EventCreate.content_id event)) as Hdone.
  { destruct (log_event_cases db g now event)
      as [[_ H]|[(_ & _ & H)|[(_ & _ & _ & H)|(_ & _ & _ & H)]]];
      rewrite Hrun in H; cbn [fst] in H; try discriminate H.
    injection H as _ ->. apply has_completed_app. right.
    eexists. split; [left|]. by cbn. }
  assert (has_completed db2 (EventCreate.user_id event)
                        (EventCreate.content_id event)) as Hdone2.
  { clear Hserve Hrun. induction Hsteps as [|x y z Hstep _ IH]; [done|].
    apply IH. by eapply request_step_has_completed. }
  intros (r & Hid & Hr)%list_elem_of_fmap.
  destruct (recommended_is_eligible _ _ _ _ _ _ _ _ _ _ r Hserve Hr)
    as (c & [_ Hc]%eligible_spec & Hrc).
  apply Hc. by rewrite <- Hrc, <- Hid.
Qed.

(** ** The peer signal and the score *)

Lemma min_le_compat (a b c : Q) : a <= b → Py.min a c <= Py.min b c.
Proof.
  intros Hab. unfold Py.min.
  destruct (Py.Qltb c a) eqn:Ea, (Py.Qltb c b) eqn:Eb;
    rewrite ?Qltb_lt, ?Qltb_ge in *; lra.
Qed.

(** X25. Turning the peer signal on never lowers a score: from the same
    generator a candidate gets under [hybrid] exactly what it gets under
    [collaborative], and at least what it gets under [content_based]; the
    two are the same when no peer of the answer to the peer query has liked
    or completed the item. The generator is advanced alike under the three
    strategies. *)
Theorem X25_peer_signal_raises (db : Store) (uid : string)
    (user_interests : list string) (user_skill : string) (now : Z)
    (g : Py.Rng) (c : Content.row) :
  let based := score_content db uid user_interests user_skill content_based
                             now g c in
  let hyb := score_content db uid user_interests user_skill hybrid now g c in
  score_content db uid user_interests user_skill collaborative now g c = hyb
  ∧ hyb.2 = based.2
  ∧ Recommendation.score based.1 <= Recommendation.score hyb.1
  ∧ (any_peer_liked db (Content.content_id c) (engine db uid) = false →
     hyb = based).
Proof.
  cbn zeta. split; [done|].
  unfold score_content, raw_scoring, collaborative_filtering, peer_affinity,
    exploration, recency_penalty, Py.uniform, Py.random.
  pose proof (recency_factor_floor (days_old now (Content.created_at c)))
    as Hf.
  destruct (any_peer_liked db (Content.content_id c) (engine db uid));
    cbn [fst snd Recommendation.score].
  - split; [done|]. split; [|done]. apply min_le_compat. nra.
  - split; [done|]. split; [lra|done].
Qed.

(** ** The analytics and the two handlers *)

Lemma log_event_events (db : Store) (g : Py.Rng) (now : Z)
    (event : EventCreate.t) (resp : EventResponse.t) (db' : Store)
    (g' : Py.Rng) :
  log_event db g now event = (inr resp, db', g') →
  events db'
  = events db ++ [event_row (EventResponse.event_id resp) now event].
Proof.
  intros Hrun.
  destruct (log_event_cases db g now event)
    as [[_ H]|[(_ & _ & H)|[(_ & _ & _ & H)|(_ & _ & _ & H)]]];
    rewrite Hrun in H; cbn [fst] in H; try discriminate H.
  by injection H as -> ->.
Qed.

Lemma filter_snoc_length {A : Type} (P : A → Prop) `{!∀ a, Decision (P a)}
    (l : list A) (x : A) :
  length (filter P (l ++ [x]))
  = (length (filter P l) + if decide (P x) then 1 else 0)%nat.
Proof.
  rewrite filter_app, length_app, filter_cons, filter_nil.
  by destruct (decide (P x)).
Qed.

(** X26. What the analytics show of an ingested event: after a successful
    [log_event] the total number of events is one higher; in the event
    distribution the count of the event's type is one higher and every
    other count is as before; the number of events of the event's user is
    one higher and that of every other user as before. *)
Theorem X26_event_in_analytics (db : Store) (g : Py.Rng) (now : Z)
    (event : EventCreate.t) (resp : EventResponse.t) (db' : Store)
    (g' : Py.Rng) :
  log_event db g now event = (inr resp, db', g') →
  total_events db' = S (total_events db)
  ∧ (∀ t, default 0%nat (event_distribution db' !! t)
          = (default 0%nat (event_distribution db !! t)
             + if decide (t = EventCreate.event_type event) then 1 else 0)%nat)
  ∧ (∀ uid, user_total_events db' uid
            = (user_total_events db uid
               + if decide (uid = EventCreate.user_id event) then 1 else 0)%nat).
Proof.
  intros Hev%log_event_events.
  assert (∀ t, default 0%nat (event_distribution db !! t)
               = length (filter (λ e, Events.event_type e = t) (events db)))
    as Hcount.
  { intros t. rewrite event_distribution_lookup. by destruct (length _). }
  assert (∀ t, default 0%nat (event_distribution db' !! t)
               = length (filter (λ e, Events.event_type e = t) (events db')))
    as Hcount'.
  { intros t. rewrite event_distribution_lookup. by destruct (length _). }
  split; [|split].
  - unfold total_events. rewrite Hev, length_app. simpl. lia.
  - intros t. rewrite Hcount, Hcount', Hev, filter_snoc_length.
    cbn [event_row Events.event_type].
    destruct (decide (EventCreate.event_type event = t)) as [<-|Hne].
    + by rewrite decide_True.
    + by rewrite decide_False by congruence.
  - intros uid. unfold user_total_events.
    rewrite Hev, filter_snoc_length. cbn [event_row Events.user_id].
    destruct (decide (EventCreate.user_id event = uid)) as [<-|Hne].
    + by rewrite decide_True.
    + by rewrite decide_False by congruence.
Qed.

Lemma size_list_to_set_fmap_le {A : Type} (f : A → string) (l : list A) :
  (size (list_to_set (f <$> l) : gset string) ≤ length l)%nat.
Proof.
  etransitivity; [apply size_list_to_set_le|]. by rewrite length_fmap.
Qed.

Lemma filter_disjoint_length {A : Type} (P Q R : A → Prop)
    `{!∀ a, Decision (P a)} `{!∀ a, Decision (Q a)} `{!∀ a, Decision (R a)}
    (l : list A) :
  (∀ a, P a → R a) → (∀ a, Q a → R a) → (∀ a, P a → Q a → False) →
  (length (filter P l) + length (filter Q l) ≤ length (filter R l))%nat.
Proof.
  intros HPR HQR HPQ. induction l as [|a l IH]; [done|].
  rewrite !filter_cons.
  destruct (decide (P a)) as [HP|HP], (decide (Q a)) as [HQ|HQ];
    [by destruct (HPQ a)|..];
    destruct (decide (R a)) as [HR|HR]; simpl; try lia;
    exfalso; by auto.
Qed.

Lemma filter_none_iff {A : Type} (P : A → Prop) `{!∀ a, Decision (P a)}
    (l : list A) :
  filter P l = [] ↔ ∀ a, a ∈ l → ¬ P a.
Proof.
  split; [|apply filter_none; apply _].
  intros Hnil a Ha HP. by apply (filter_nil_not_elem_of P l a).
Qed.

(** X27. The counts of the user analytics fit together: the distinct items
    viewed and the distinct items completed are together not more than the
    events of the user, which are not more than all events; and for a user
    without events every count is 0 and the average quiz score is [0.0]. *)
Theorem X27_user_analytics_counts (db : Store) (uid : string) :
  (content_viewed db uid + content_completed db uid
   ≤ user_total_events db uid)%nat
  ∧ (user_total_events db uid ≤ total_events db)%nat
  ∧ (user_total_events db uid = 0%nat ↔ has_no_events db uid)
  ∧ (has_no_events db uid →
     content_viewed db uid = 0%nat ∧ content_completed db uid = 0%nat
     ∧ avg_quiz_score db uid = 0.0).
Proof.
  unfold content_viewed, content_completed, distinct_content,
    user_total_events, total_events.
  assert (has_no_events db uid
          → filter (λ e, Events.user_id e = uid) (events db) = []) as Hnone.
  { intros Hno. apply filter_none_iff. intros e He Hu. by apply (Hno e He). }
  assert (∀ t, filter (λ e, Events.user_id e = uid) (events db) = []
               → filter (λ e, Events.user_id e = uid
                              ∧ Events.event_type e = t) (events db) = [])
    as Htyped.
  { intros t Hnil. apply filter_none_iff. intros e He [Hu _].
    rewrite filter_none_iff in Hnil. by apply (Hnil e He). }
  split; [|split; [|split]].
  - pose proof (size_list_to_set_fmap_le Events.content_id
                  (filter (λ e, Events.user_id e = uid
                                ∧ Events.event_type e = "view") (events db))).
    pose proof (size_list_to_set_fmap_le Events.content_id
                  (filter (λ e, Events.user_id e = uid
                                ∧ Events.event_type e = "complete")
                          (events db))).
    pose proof (filter_disjoint_length
                  (λ e, Events.user_id e = uid ∧ Events.event_type e = "view")
                  (λ e, Events.user_id e = uid
                        ∧ Events.event_type e = "complete")
                  (λ e, Events.user_id e = uid) (events db)) as Hsum.
    specialize (Hsum ltac:(by intros e [? _]) ltac:(by intros e [? _])).
    specialize (Hsum ltac:(intros e [_ H1] [_ H2]; congruence)). lia.
  - apply length_filter.
  - split.
    + intros Hzero%nil_length_inv e He Hu.
      rewrite filter_none_iff in Hzero. by apply (Hzero e He).
    + intros Hno. by rewrite Hnone.
  - intros Hno. specialize (Hnone Hno).
    rewrite !Htyped by done. split; [done|]. split; [done|].
    unfold avg_quiz_score, avg_score_row, quiz_values.
    by rewrite Htyped.
Qed.

(** A seeded store has a user, a content item and an event. *)
Lemma seed_database_inhabited (R : RandomModule) (db : Store)
    (s : Py.Rng * Clock) :
  users db = [] → content db = [] → events db = [] →
  ∃ db' s' u c e,
    seed_database R db s = (Some db', s')
    ∧ u ∈ users db' ∧ c ∈ content db' ∧ e ∈ events db'.
Proof.
  intros Hu Hc He.
  destruct (seed_database_returns R db s Hu Hc He) as (db' & s' & Hrun).
  pose proof Hrun as Hcases.
  apply seed_database_cases in Hcases
    as [(Hne & _)
       |(_ & s1 & s2 & s3 & us & ts & cs & es & Mu & Mc & Ms & Me
         & [Eu _]%executemany_Some & [Ec _]%executemany_Some
         & [Ee _]%executemany_Some & _)]; [done|].
  rewrite Hu in Eu. rewrite Hc in Ec. rewrite He in Ee.
  cbn [app] in Eu, Ec, Ee.
  pose proof (mapM_Seeding_length (seed_user R) (seq 1 100) s) as Lu.
  pose proof (mapM_Seeding_length (seed_content R) (seq 1 200) s1) as Lt.
  pose proof (mapM_Seeding_length stamp_content ts s2) as Lc.
  pose proof (mapM_Seeding_length (seed_event R) (seq 1 5000) s3) as Le.
  rewrite Mu in Lu. rewrite Mc in Lt. rewrite Ms in Lc. rewrite Me in Le.
  cbn [fst] in Lu, Lt, Lc, Le. rewrite length_seq in Lu, Lt, Le.
  rewrite Lt in Lc.
  destruct us as [|u us]; [done|]. destruct cs as [|c cs]; [done|].
  destruct es as [|e es]; [done|].
  exists db', s', u, c, e. rewrite Eu, Ec, Ee.
  split; [done|]. split; [left|]. split; left.
Qed.

End Engine.

(** * Concrete requests, answered by the engine [similar_users] *)

Lemma C1_witness :
  ∃ resp db' g',
    get_recommendations similar_users db_sample rng_cycle 0 7 "U" 10 hybrid
    = (inr resp, db', g')
    ∧ Forall (λ r, 0 <= Recommendation.score r <= 1)
             (RecommendationResponse.recommendations resp)
    ∧ ∃ new,
        recommendation_logs db' = recommendation_logs db_sample ++ new
        ∧ logged_as "U" 0 (RecommendationResponse.recommendations resp) new
        ∧ Forall (λ l, 0 <= RecommendationLogs.score l <= 1) new.
Proof.
  eexists _, _, _. split; [vm_compute; reflexivity|].
  eapply (C1_score_in_unit_interval similar_users db_sample rng_cycle 0 7
                                    "U" 10 hybrid).
  - repeat constructor; simpl; lra.
  - exact rng_cycle_unit.
  - vm_compute; reflexivity.
Defined.


Lemma C8_witness :
  ∃ resp db' g',
    get_recommendations similar_users db_sample rng_cycle 0 7 "U" 10 hybrid
    = (inr resp, db', g')
    ∧ Forall (λ r, (1 ≤ length (Recommendation.reason_tags r) ≤ 3)%nat)
             (RecommendationResponse.recommendations resp).
Proof.
  eexists _, _, _. split; [vm_compute; reflexivity|].
  edestruct (C8_reason_tags similar_users db_sample rng_cycle 0 7 "U" 10
                            hybrid)
    as (user & new & _ & _ & _ & H); [vm_compute; reflexivity|].
  eapply Forall_impl; [exact H|]. by intros r [Hr _].
Defined.

Lemma C6_witness :
  has_no_events db_scenario "U"
  ∧ similar_users db_scenario "U" = []
  ∧ score_content similar_users db_scenario "U" ["python"; "cloud"] "novice"
                  hybrid 0 rng_zero content_C
    = score_content similar_users db_scenario "U" ["python"; "cloud"] "novice"
                    content_based 0 rng_zero content_C.
Proof.
  assert (has_no_events db_scenario "U") as Hno.
  { intros e He. simpl in He. by apply elem_of_nil in He. }
  destruct (C6_strategy_gating similar_users similar_users_allowed
                                 db_scenario "U") as [_ H].
  destruct (H Hno) as (Hsim & _ & Hscore & _).
  exact (conj Hno (conj Hsim (Hscore _ _ _ _ _))).
Defined.

(** An item created 1000 days before the request keeps half of its total. *)
Lemma C4_witness :
  0 <= Content.popularity_score content_C
  ∧ days_old (1000 * microseconds_per_day) (Content.created_at content_C)
    = 1000%Z
  ∧ (raw_scoring similar_users db_scenario "U" ["python"; "cloud"] "novice"
                 content_based content_C).1 * 0.5
    <= (recency_penalty (1000 * microseconds_per_day)
          (Content.created_at content_C)
          (raw_scoring similar_users db_scenario "U" ["python"; "cloud"]
                       "novice" content_based content_C)).1.
Proof.
  assert (0 <= Content.popularity_score content_C) as Hp by (simpl; lra).
  split; [exact Hp|]. split; [reflexivity|].
  destruct (C4_recency_decay similar_users db_scenario "U"
              ["python"; "cloud"] "novice" content_based
              (1000 * microseconds_per_day) rng_zero content_C)
    as (_ & _ & _ & _ & _ & _ & H).
  exact (H Hp).
Defined.

Lemma C2_scenario_witness :
  (recency_penalty 0 (Content.created_at content_C)
     (raw_scoring similar_users db_scenario "U"
                  (parse_tags (Users.interests user_U))
                  (Users.skill_level user_U) content_based content_C)).1
  == 0.56
  ∧ 0.56 <= Recommendation.score
              (score_content similar_users db_scenario "U"
                 (parse_tags (Users.interests user_U))
                 (Users.skill_level user_U) content_based 0 rng_cycle
                 content_C).1
  ∧ Recommendation.score
      (score_content similar_users db_scenario "U"
         (parse_tags (Users.interests user_U))
         (Users.skill_level user_U) content_based 0 rng_cycle content_C).1
    <= 0.66.
Proof.
  apply (C2_scenario_score similar_users db_scenario "U"
           (parse_tags (Users.interests user_U)) (Users.skill_level user_U)
           0 rng_cycle content_C).
  - exact rng_cycle_unit.
  - vm_compute; reflexivity.
  - vm_compute; reflexivity.
  - reflexivity.
  - reflexivity.
  - simpl; lra.
  - reflexivity.
Defined.

(** C2, as stated, fails: the request of the scenario, with a first draw of
    0, returns the score 0.56, above the claimed upper end 0.46. *)
Lemma C2_counterexample :
  ∃ resp db' g' r,
    get_recommendations similar_users db_scenario rng_zero 0 0 "U" 10
                        content_based
    = (inr resp, db', g')
    ∧ RecommendationResponse.recommendations resp = [r]
    ∧ Recommendation.score r == 0.56
    ∧ ¬ (0.36 <= Recommendation.score r <= 0.46).
Proof.
  eexists _, _, _, _. split; [vm_compute; reflexivity|].
  split; [reflexivity|]. split; [reflexivity|].
  intros [_ H]. vm_compute in H. by apply H.
Qed.

(** * Further concrete requests *)

Lemma references_exist_sample : references_exist db_sample.
Proof.
  intros e He. cbn in He. rewrite !elem_of_cons in He.
  destruct He as [->|[->|[->|[->|He]]]]; [..|by apply elem_of_nil in He];
    split; cbn; apply (bool_decide_unpack _); by vm_compute.
Qed.

Lemma unique_keys_sample : unique_keys db_sample.
Proof.
  unfold unique_keys. cbn.
  repeat split; apply (bool_decide_unpack _); by vm_compute.
Qed.

Lemma popularity_nonneg_sample : popularity_nonneg db_sample.
Proof. unfold popularity_nonneg. repeat constructor; simpl; lra. Qed.

Lemma X2_witness :
  ∃ resp db' g',
    get_recommendations similar_users db_sample rng_cycle 0 7 "U" 10 hybrid
    = (inr resp, db', g')
    ∧ ∃ new,
        recommendation_logs db' = recommendation_logs db_sample ++ new
        ∧ Forall2
            (λ r l,
               (Recommendation.reason_tags r ≠ [""]
                → parse_tags (RecommendationLogs.reason_tags l)
                  = Recommendation.reason_tags r)
               ∧ (Recommendation.reason_tags r = [""]
                  → RecommendationLogs.reason_tags l = ""))
            (RecommendationResponse.recommendations resp) new.
Proof.
  eexists _, _, _. split; [vm_compute; reflexivity|].
  eapply (X2_logged_tags_round_trip similar_users db_sample rng_cycle 0 7
                                    "U" 10 hybrid).
  vm_compute; reflexivity.
Defined.

Lemma X5_witness :
  ∃ resp db' g',
    log_event db_sample rng_zero 0 event_view_C = (inr resp, db', g')
    ∧ unique_keys db_sample ∧ unique_keys db'.
Proof.
  eexists _, _, _. split; [vm_compute; reflexivity|].
  split; [exact unique_keys_sample|].
  eapply (X5_unique_keys_kept similar_users db_sample);
    [exact unique_keys_sample|].
  apply rtc_once. left. eexists rng_zero, 0%Z, event_view_C, _, _.
  vm_compute; reflexivity.
Defined.

Lemma X6_witness :
  ∃ resp db' g',
    log_event db_sample rng_zero 0 event_view_C = (inr resp, db', g')
    ∧ references_exist db_sample ∧ references_exist db'.
Proof.
  eexists _, _, _. split; [vm_compute; reflexivity|].
  split; [exact references_exist_sample|].
  eapply (X6_references_kept similar_users db_sample);
    [exact references_exist_sample|].
  apply rtc_once. left. eexists rng_zero, 0%Z, event_view_C, _, _.
  vm_compute; reflexivity.
Defined.

Lemma X7_witness :
  ∃ resp db' g',
    log_event db_sample rng_zero 0 event_view_C = (inr resp, db', g')
    ∧ popularity_nonneg db_sample ∧ popularity_nonneg db'.
Proof.
  eexists _, _, _. split; [vm_compute; reflexivity|].
  split; [exact popularity_nonneg_sample|].
  eapply (X7_popularity_nonneg_kept similar_users db_sample);
    [exact popularity_nonneg_sample|].
  apply rtc_once. left. eexists rng_zero, 0%Z, event_view_C, _, _.
  vm_compute; reflexivity.
Defined.

Lemma X8_witness :
  ∃ resp db' g',
    log_event db_sample rng_zero 0 event_view_C = (inr resp, db', g')
    ∧ EventResponse.timestamp resp = 0%Z
    ∧ EventResponse.status resp = "success"
    ∧ length (users db') = length (users db_sample)
    ∧ length (content db') = length (content db_sample).
Proof.
  eexists _, _, _. split; [vm_compute; reflexivity|].
  edestruct (X8_ingestion_touches db_sample rng_zero 0 event_view_C)
    as (Ht & Hs & _ & _ & Hu & Hc); [vm_compute; reflexivity|].
  exact (conj Ht (conj Hs (conj Hu Hc))).
Defined.

Lemma X9_witness :
  ∃ resp1 resp2 db1 db2 g1 g2,
    get_recommendations similar_users db_sample rng_cycle 0 7 "U" 1 hybrid
    = (inr resp1, db1, g1)
    ∧ get_recommendations similar_users db_sample rng_cycle 0 7 "U" 10 hybrid
      = (inr resp2, db2, g2)
    ∧ RecommendationResponse.recommendations resp1
      = take (Z.to_nat 1) (RecommendationResponse.recommendations resp2).
Proof.
  eexists _, _, _, _, _, _. split; [vm_compute; reflexivity|].
  split; [vm_compute; reflexivity|].
  eapply (X9_smaller_k_is_prefix similar_users db_sample rng_cycle 0 7 "U"
                                 1 10 hybrid);
    [lia|vm_compute; reflexivity|vm_compute; reflexivity].
Defined.

Lemma X10_witness :
  ∃ resp db' g',
    get_recommendations similar_users db_sample rng_cycle 0 7 "U" 10 hybrid
    = (inr resp, db', g')
    ∧ NoDup (Content.content_id <$> content db_sample)
    ∧ NoDup (Recommendation.content_id
             <$> RecommendationResponse.recommendations resp).
Proof.
  eexists _, _, _. split; [vm_compute; reflexivity|].
  assert (NoDup (Content.content_id <$> content db_sample)) as Hnd
    by (apply (bool_decide_unpack _); by vm_compute).
  split; [exact Hnd|].
  edestruct (X10_recommendations_distinct similar_users db_sample rng_cycle
                                          0 7 "U" 10 hybrid)
    as [H _]; [exact Hnd|vm_compute; reflexivity|exact H].
Defined.

Lemma X15_witness :
  NoDup (Content.content_id <$> content db_sample)
  ∧ references_exist db_sample
  ∧ (content_completed db_sample "U" + length (eligible db_sample "U")
     = length (content db_sample))%nat.
Proof.
  assert (NoDup (Content.content_id <$> content db_sample)) as Hnd
    by (apply (bool_decide_unpack _); by vm_compute).
  split; [exact Hnd|]. split; [exact references_exist_sample|].
  exact (X15_completed_and_candidates db_sample "U" Hnd
                                      references_exist_sample).
Defined.

Lemma X18_witness :
  ∃ db' s',
    seed_database random_first db_empty (rng_zero, clock_zero)
    = (Some db', s')
    ∧ length (users db') = 100%nat
    ∧ ∀ R2 s2, seed_database R2 db' s2 = (Some db', s2).
Proof.
  destruct (seed_database_returns random_first db_empty
              (rng_zero, clock_zero) eq_refl eq_refl eq_refl)
    as (db' & s' & Hrun).
  exists db', s'. split; [exact Hrun|].
  destruct (X18_seed_database_once random_first db_empty db'
              (rng_zero, clock_zero) s' Hrun) as (_ & Hlen & Hagain & _).
  exact (conj (Hlen eq_refl) Hagain).
Defined.

Lemma X19_witness :
  ∃ db' s',
    seed_database random_first db_empty (rng_zero, clock_zero)
    = (Some db', s')
    ∧ Users.user_id <$> users db'
      = (λ i : nat, "user_" +:+ pretty i) <$> seq 1 100
    ∧ Content.content_id <$> content db'
      = (λ i : nat, "content_" +:+ pretty i) <$> seq 1 200
    ∧ Events.event_id <$> events db'
      = (λ i : nat, "event_" +:+ pretty i) <$> seq 1 5000.
Proof.
  destruct (X19_seed_database_fresh random_first db_empty
              (rng_zero, clock_zero) eq_refl eq_refl eq_refl)
    as (db' & s' & Hrun & Hu & Hc & He & _).
  exists db', s'. exact (conj Hrun (conj Hu (conj Hc He))).
Defined.

Lemma unique_keys_empty : unique_keys db_empty.
Proof. unfold unique_keys. cbn. repeat split; constructor. Qed.

Lemma references_exist_empty : references_exist db_empty.
Proof. intros e He. cbn in He. by apply elem_of_nil in He. Qed.

Lemma popularity_nonneg_empty : popularity_nonneg db_empty.
Proof. constructor. Qed.

Lemma X20_witness :
  ∃ db' s',
    seed_database random_first db_empty (rng_zero, clock_zero)
    = (Some db', s')
    ∧ unique_keys db' ∧ references_exist db' ∧ popularity_nonneg db'
    ∧ unit_draws s'.1.
Proof.
  destruct (seed_database_returns random_first db_empty
              (rng_zero, clock_zero) eq_refl eq_refl eq_refl)
    as (db' & s' & Hrun).
  exists db', s'. split; [exact Hrun|].
  exact (X20_seed_database_invariants random_first db_empty db'
           (rng_zero, clock_zero) s' random_first_contract rng_zero_unit
           Hrun unique_keys_empty references_exist_empty
           popularity_nonneg_empty).
Defined.

Lemma X21_witness :
  ∃ db' s' u c,
    seed_database random_first db_empty (rng_zero, clock_zero)
    = (Some db', s')
    ∧ u ∈ users db' ∧ c ∈ content db'
    ∧ (overlap_count u c ≤ 3)%nat
    ∧ tag_contribution u c <= 0.9
    ∧ 0.2 <= difficulty_factor (Users.skill_level u) (Content.difficulty c).
Proof.
  destruct (seed_database_inhabited random_first db_empty
              (rng_zero, clock_zero) eq_refl eq_refl eq_refl)
    as (db' & s' & u & c & e & Hrun & Hu & Hc & _).
  exists db', s', u, c. split; [exact Hrun|].
  split; [exact Hu|]. split; [exact Hc|].
  destruct (X21_seeded_profiles random_first db_empty db'
              (rng_zero, clock_zero) s' u c random_first_contract
              rng_zero_unit eq_refl eq_refl Hrun Hu Hc)
    as (_ & _ & _ & Hf & Ho & Ht & _).
  exact (conj Ho (conj Ht Hf)).
Defined.

Lemma X22_witness :
  ∃ db' s',
    seed_database random_first db_empty (rng_zero, clock_zero)
    = (Some db', s')
    ∧ (filter (λ e, Events.user_id e = "user_1"
                    ∧ Events.event_type e = "quiz_score") (events db') = [] →
       avg_quiz_score db' "user_1" = 0.0)
    ∧ (filter (λ e, Events.user_id e = "user_1"
                    ∧ Events.event_type e = "quiz_score") (events db') ≠ [] →
       60 <= avg_quiz_score db' "user_1" <= 100).
Proof.
  destruct (seed_database_returns random_first db_empty
              (rng_zero, clock_zero) eq_refl eq_refl eq_refl)
    as (db' & s' & Hrun).
  exists db', s'. split; [exact Hrun|].
  destruct (X22_seeded_quiz_scores random_first db_empty db'
              (rng_zero, clock_zero) s' "user_1" random_first_contract
              rng_zero_unit eq_refl eq_refl Hrun) as (_ & Hnone & Hsome).
  exact (conj Hnone Hsome).
Defined.

Lemma X23_witness :
  ∃ resp db' g',
    log_event db_sample rng_zero 0 (EventCreate.mk "U" "C" "complete" None None)
    = (inr resp, db', g')
    ∧ Content.content_id <$> eligible db_sample "U" = ["C"; "D"]
    ∧ Content.content_id <$> eligible db' "U"
      = filter (λ cid, ¬ ("U" = "U" ∧ cid = "C" ∧ "complete" = "complete"))
               (Content.content_id <$> eligible db_sample "U").
Proof.
  eexists _, _, _. split; [vm_compute; reflexivity|].
  split; [vm_compute; reflexivity|].
  eapply (X23_event_and_candidates db_sample rng_zero 0
            (EventCreate.mk "U" "C" "complete" None None)).
  vm_compute; reflexivity.
Defined.

Lemma X24_witness :
  ∃ resp1 db1 g1 resp db3 g3,
    log_event db_sample rng_zero 0 (EventCreate.mk "U" "C" "complete" None None)
    = (inr resp1, db1, g1)
    ∧ get_recommendations similar_users db1 rng_cycle 0 7 "U" 10 hybrid
      = (inr resp, db3, g3)
    ∧ ("C" ∉ Recommendation.content_id
             <$> RecommendationResponse.recommendations resp).
Proof.
  eexists _, _, _, _, _, _. split; [vm_compute; reflexivity|].
  split; [vm_compute; reflexivity|].
  eapply (X24_completed_never_again similar_users db_sample _ _ _
            rng_zero _ rng_cycle _ 0 0 7 10
            (EventCreate.mk "U" "C" "complete" None None) hybrid);
    [vm_compute; reflexivity|reflexivity|apply rtc_refl
    |vm_compute; reflexivity].
Defined.

Lemma X26_witness :
  ∃ resp db' g',
    log_event db_sample rng_zero 0 event_view_C = (inr resp, db', g')
    ∧ total_events db' = S (total_events db_sample).
Proof.
  eexists _, _, _. split; [vm_compute; reflexivity|].
  edestruct (X26_event_in_analytics db_sample rng_zero 0 event_view_C)
    as [H _]; [vm_compute; reflexivity|exact H].
Defined.
